(** * Chaff generator: the file-linking and encoding pipeline

    A shallow embedding of [src/file_linking.py] (with the plan record of
    [src/settings.py] and the Fernet decoder of [src/tests/decode_chaff.py])
    together with the properties the specification states about it, followed
    by the generation planner of [src/settings.py], the naming of written
    files in [src/main.py] and the base64 and name handling of the decoder
    utility, with further properties of all of these.

    Conventions of the embedding.
    - Python [bytes] are [list byte].
    - Python [str] is represented by its UTF-8 encoding, as a Rocq [string];
      [s.encode('utf-8')] is then the underlying byte list and
      [b.decode('utf-8', errors='ignore')] keeps exactly the well-formed
      UTF-8 sequences of [b].
    - The process-wide random sources ([random], [secrets], [os.urandom]) are
      an explicit tape of draws threaded through every call, and Python
      exceptions are explicit results, in the monad [M] below.
    - The libraries the module calls (Fernet, PBKDF2, pyzipper, Faker and the
      content templates) are parameters of the sections that use them. *)

From Stdlib Require Import List Strings.String Strings.Ascii Strings.Byte NArith Arith Bool Lia.
Import ListNotations.
Local Open Scope list_scope.

(** ** Bytes and strings *)

Definition bytes := list byte.

Definition byte_of_N (n : N) : byte :=
  match Byte.of_N (N.land n 255) with
  | Some b => b
  | None => x00
  end.

Definition encode_utf8 (s : string) : bytes := list_byte_of_string s.

Definition bytes_eqb (x y : bytes) : bool :=
  if list_eq_dec Byte.byte_eq_dec x y then true else false.

(** Every byte, for exhaustive checks that run inside the kernel. *)
Definition all_bytes : list byte := map byte_of_N (map N.of_nat (seq 0 256)).

(** ** base64 (RFC 4648), as [base64.b64encode] and [binascii.a2b_base64] *)

Module Base64.

Definition PAD : byte := "="%byte.
Definition NL : byte := x0a.

Definition alphabet : bytes :=
  list_byte_of_string
    "ABCDEFGHIJKLMNOPQRSTUVWXYZabcdefghijklmnopqrstuvwxyz0123456789+/".

Definition table_b2a (i : N) : byte := nth (N.to_nat i) alphabet PAD.

(** The inverse table: [None] for a byte outside the alphabet. *)
Definition table_a2b (c : byte) : option N :=
  let n := Byte.to_N c in
  (if (65 <=? n) && (n <=? 90) then Some (n - 65)
   else if (97 <=? n) && (n <=? 122) then Some (n - 71)
   else if (48 <=? n) && (n <=? 57) then Some (n + 4)
   else if n =? 43 then Some 62
   else if n =? 47 then Some 63
   else None)%N.

Definition idx0 (a : byte) : N := N.shiftr (Byte.to_N a) 2.
Definition idx1 (a b : byte) : N :=
  N.lor (N.shiftl (N.land (Byte.to_N a) 3) 4) (N.shiftr (Byte.to_N b) 4).
Definition idx2 (b c : byte) : N :=
  N.lor (N.shiftl (N.land (Byte.to_N b) 15) 2) (N.shiftr (Byte.to_N c) 6).
Definition idx3 (c : byte) : N := N.land (Byte.to_N c) 63.

(** [base64.b64encode]: three bytes become four characters; a final group
    of one or two bytes is zero-filled and padded with [=]. *)
Fixpoint b64encode (content : bytes) : bytes :=
  match content with
  | [] => []
  | [a] => [table_b2a (idx0 a); table_b2a (idx1 a x00); PAD; PAD]
  | [a; b] =>
      [table_b2a (idx0 a); table_b2a (idx1 a b); table_b2a (idx2 b x00); PAD]
  | a :: b :: c :: rest =>
      table_b2a (idx0 a) :: table_b2a (idx1 a b) ::
      table_b2a (idx2 b c) :: table_b2a (idx3 c) :: b64encode rest
  end.

(** The decoding loop of [binascii.a2b_base64] in its default, non-strict
    mode: bytes outside the alphabet are discarded, a complete pad sequence
    stops the parse, and leftover characters are an error ([None]). *)
Fixpoint a2b_loop (s : bytes) (quad_pos : nat) (leftchar : N) (pads : nat)
  : option bytes :=
  match s with
  | [] => if quad_pos =? 0 then Some [] else None
  | this_ch :: rest =>
      if Byte.eqb this_ch PAD then
        if (2 <=? quad_pos) then
          if (4 <=? quad_pos + S pads) then Some []
          else a2b_loop rest quad_pos leftchar (S pads)
        else a2b_loop rest quad_pos leftchar pads
      else
        match table_a2b this_ch with
        | None => a2b_loop rest quad_pos leftchar pads
        | Some v =>
            match quad_pos with
            | 0 => a2b_loop rest 1 v 0
            | 1 =>
                option_map
                  (cons (byte_of_N (N.lor (N.shiftl leftchar 2) (N.shiftr v 4))))
                  (a2b_loop rest 2 (N.land v 15) 0)
            | 2 =>
                option_map
                  (cons (byte_of_N (N.lor (N.shiftl leftchar 4) (N.shiftr v 2))))
                  (a2b_loop rest 3 (N.land v 3) 0)
            | _ =>
                option_map
                  (cons (byte_of_N (N.lor (N.shiftl leftchar 6) v)))
                  (a2b_loop rest 0 0 0)
            end
        end
  end.

Definition b64decode (s : bytes) : option bytes := a2b_loop s 0 0 0.

(** [bytes.translate] with the two-entry tables of the url-safe variant. *)
Definition urlsafe_encode_translation (c : byte) : byte :=
  if Byte.eqb c "+"%byte then "-"%byte
  else if Byte.eqb c "/"%byte then "_"%byte else c.

Definition urlsafe_decode_translation (c : byte) : byte :=
  if Byte.eqb c "-"%byte then "+"%byte
  else if Byte.eqb c "_"%byte then "/"%byte else c.

Definition urlsafe_b64encode (content : bytes) : bytes :=
  map urlsafe_encode_translation (b64encode content).

Definition urlsafe_b64decode (s : bytes) : option bytes :=
  b64decode (map urlsafe_decode_translation s).

(** Two texts the decoding loop cannot tell apart, from any state. *)
Definition same_decoding (s1 s2 : bytes) : Prop :=
  forall q l p, a2b_loop s1 q l p = a2b_loop s2 q l p.

End Base64.

(** ** Python string operations *)

Module Py.

Local Open Scope string_scope.

Definition ascii_N (c : ascii) : N := N_of_ascii c.

Definition is_upper (c : ascii) : bool :=
  ((65 <=? ascii_N c) && (ascii_N c <=? 90))%N.
Definition is_lower (c : ascii) : bool :=
  ((97 <=? ascii_N c) && (ascii_N c <=? 122))%N.

Definition lower_ascii (c : ascii) : ascii :=
  if is_upper c then ascii_of_N (ascii_N c + 32) else c.
Definition upper_ascii (c : ascii) : ascii :=
  if is_lower c then ascii_of_N (ascii_N c - 32) else c.

Fixpoint map_string (f : ascii -> ascii) (s : string) : string :=
  match s with
  | EmptyString => EmptyString
  | String c t => String (f c) (map_string f t)
  end.

(** [str.lower] and [str.upper]; only ASCII letters are cased here. *)
Definition lower : string -> string := map_string lower_ascii.
Definition upper : string -> string := map_string upper_ascii.

(** [str.title]: a letter that follows a non-letter is upper-cased, any other
    letter is lower-cased. *)
Fixpoint title_from (previous_is_cased : bool) (s : string) : string :=
  match s with
  | EmptyString => EmptyString
  | String c t =>
      let cased := is_upper c || is_lower c in
      String (if previous_is_cased then lower_ascii c else upper_ascii c)
             (title_from cased t)
  end.
Definition title : string -> string := title_from false.

(** [sub in s]. *)
Fixpoint contains (sub s : string) : bool :=
  String.prefix sub s ||
  match s with
  | EmptyString => false
  | String _ t => contains sub t
  end.

(** [s.endswith(suffix)]. *)
Definition endswith (s suffix : string) : bool :=
  let n := String.length s in
  let m := String.length suffix in
  (m <=? n)%nat && String.eqb (String.substring (n - m) m s) suffix.

(** [s.replace(old, '')] for a non-empty [old]: every occurrence found by a
    left-to-right scan is dropped; [skip] counts the characters of the
    occurrence being dropped. *)
Fixpoint remove_from (old s : string) (skip : nat) : string :=
  match s with
  | EmptyString => EmptyString
  | String c t =>
      match skip with
      | S k => remove_from old t k
      | O =>
          if String.prefix old s then remove_from old t (String.length old - 1)
          else String c (remove_from old t 0)
      end
  end.
Definition remove_all (old s : string) : string := remove_from old s 0.

(** [s.split('.')[0]]: the text before the first dot. *)
Fixpoint split_dot_head (s : string) : string :=
  match s with
  | EmptyString => EmptyString
  | String c t => if Ascii.eqb c "."%char then EmptyString
                  else String c (split_dot_head t)
  end.

(** [s[:n]], counting code points: a continuation byte of the UTF-8
    representation belongs to the character before it. *)
Definition is_continuation (c : ascii) : bool :=
  ((128 <=? ascii_N c) && (ascii_N c <=? 191))%N.

Fixpoint take_chars (n : nat) (s : string) : string :=
  match s with
  | EmptyString => EmptyString
  | String c t =>
      if is_continuation c then String c (take_chars n t)
      else match n with
           | O => EmptyString
           | S k => String c (take_chars k t)
           end
  end.

(** [sep.join(parts)]. *)
Fixpoint join (sep : string) (parts : list string) : string :=
  match parts with
  | [] => EmptyString
  | [x] => x
  | x :: rest => x ++ sep ++ join sep rest
  end.

(** [str(n)] for a non-negative integer. *)
Definition digit (d : nat) : ascii := ascii_of_nat (48 + d).

Fixpoint str_of_nat_aux (fuel n : nat) (acc : string) : string :=
  let acc' := String (digit (n mod 10)) acc in
  match fuel with
  | O => acc'
  | S f => if (n / 10 =? 0)%nat then acc' else str_of_nat_aux f (n / 10) acc'
  end.
Definition str_of_nat (n : nat) : string := str_of_nat_aux n n EmptyString.

(** [x in xs] for a list of strings. *)
Definition mem (x : string) (xs : list string) : bool :=
  existsb (String.eqb x) xs.

(** [b.decode('utf-8', errors='ignore')]: well-formed sequences are kept;
    an invalid start byte is dropped alone, an invalid continuation drops the
    bytes read before it, and a sequence cut by the end of the input is
    dropped to the end. *)
Definition continuation (b : byte) : bool :=
  ((128 <=? Byte.to_N b) && (Byte.to_N b <=? 191))%N.

Definition second_of_three (lead b : byte) : bool :=
  let l := Byte.to_N lead in
  let n := Byte.to_N b in
  (if l =? 224 then (160 <=? n) && (n <=? 191)
   else if l =? 237 then (128 <=? n) && (n <=? 159)
   else (128 <=? n) && (n <=? 191))%N.

Definition second_of_four (lead b : byte) : bool :=
  let l := Byte.to_N lead in
  let n := Byte.to_N b in
  (if l =? 240 then (144 <=? n) && (n <=? 191)
   else if l =? 244 then (128 <=? n) && (n <=? 143)
   else (128 <=? n) && (n <=? 191))%N.

Fixpoint utf8_wellformed_part (s : bytes) : bytes :=
  match s with
  | [] => []
  | c :: r1 =>
      let n := Byte.to_N c in
      if (n <? 128)%N then c :: utf8_wellformed_part r1
      else if (n <? 194)%N then utf8_wellformed_part r1
      else if (n <? 224)%N then
        match r1 with
        | [] => []
        | c2 :: r2 =>
            if continuation c2 then c :: c2 :: utf8_wellformed_part r2
            else utf8_wellformed_part r1
        end
      else if (n <? 240)%N then
        match r1 with
        | [] => []
        | c2 :: r2 =>
            if second_of_three c c2 then
              match r2 with
              | [] => []
              | c3 :: r3 =>
                  if continuation c3
                  then c :: c2 :: c3 :: utf8_wellformed_part r3
                  else utf8_wellformed_part r2
              end
            else utf8_wellformed_part r1
        end
      else if (n <? 245)%N then
        match r1 with
        | [] => []
        | c2 :: r2 =>
            if second_of_four c c2 then
              match r2 with
              | [] => []
              | c3 :: r3 =>
                  if continuation c3 then
                    match r3 with
                    | [] => []
                    | c4 :: r4 =>
                        if continuation c4
                        then c :: c2 :: c3 :: c4 :: utf8_wellformed_part r4
                        else utf8_wellformed_part r3
                    end
                  else utf8_wellformed_part r2
              end
            else utf8_wellformed_part r1
        end
      else utf8_wellformed_part r1
  end.

Definition decode_utf8_ignore (b : bytes) : string :=
  string_of_list_byte (utf8_wellformed_part b).

End Py.

(** ** Randomness and exceptions

    A computation reads draws from a tape and either returns a value with
    the rest of the tape or raises.  An exhausted tape keeps answering 0, so
    every computation can be run on every tape. *)

Inductive exn : Type := ValueError | IndexError | LibraryError.

Definition Rng := list nat.

Inductive result (A : Type) : Type :=
| Ok (a : A) (r : Rng)
| Raise (e : exn).
Arguments Ok {A} a r.
Arguments Raise {A} e.

Definition M (A : Type) : Type := Rng -> result A.

Definition ret {A} (a : A) : M A := fun r => Ok a r.
Definition raise {A} (e : exn) : M A := fun _ => Raise e.
Definition bind {A B} (c : M A) (k : A -> M B) : M B :=
  fun r => match c r with
           | Ok a r' => k a r'
           | Raise e => Raise e
           end.

Notation "x <- c ;; k" := (bind c (fun x => k))
  (at level 61, c at next level, right associativity).
Notation "' p <- c ;; k" := (bind c (fun x => let p := x in k))
  (at level 61, p pattern, c at next level, right associativity).

Definition draw : M nat :=
  fun r => match r with
           | [] => Ok 0 []
           | n :: t => Ok n t
           end.

Definition randbelow (n : nat) : M nat := x <- draw ;; ret (x mod n).

(** [random.random()], at a resolution of 1/1000: every threshold the module
    compares it with (0.3, 0.4, 0.6, 0.7) is a multiple of that. *)
Definition random_permille : M nat := randbelow 1000.

(** [random.choice(seq)]; [IndexError] on an empty sequence. *)
Definition random_choice {A} (seq : list A) : M A :=
  match seq with
  | [] => raise IndexError
  | d :: _ => i <- randbelow (List.length seq) ;; ret (nth i seq d)
  end.

(** [random.randint(a, b)]; [ValueError] on the empty range [b < a]. *)
Definition randint (a b : nat) : M nat :=
  if b <? a then raise ValueError
  else k <- randbelow (b - a + 1) ;; ret (a + k).

Fixpoint remove_at {A} (i : nat) (l : list A) : list A :=
  match l, i with
  | [], _ => []
  | _ :: t, O => t
  | x :: t, S j => x :: remove_at j t
  end.

Fixpoint sample_loop {A} (pool : list A) (k : nat) : M (list A) :=
  match k with
  | O => ret []
  | S k' =>
      match pool with
      | [] => raise ValueError
      | d :: _ =>
          i <- randbelow (List.length pool) ;;
          rest <- sample_loop (remove_at i pool) k' ;;
          ret (nth i pool d :: rest)
      end
  end.

(** [random.sample(population, k)]: [k] elements at distinct positions;
    [ValueError] when the sample is larger than the population. *)
Definition random_sample {A} (population : list A) (k : nat) : M (list A) :=
  if List.length population <? k then raise ValueError
  else sample_loop population k.

(** [random.shuffle(x)], returning the shuffled list. *)
Definition random_shuffle {A} (x : list A) : M (list A) :=
  sample_loop x (List.length x).

(** [random.choices(population, weights=weights)[0]], weights in
    thousandths: the first element whose cumulative weight exceeds the
    draw. *)
Fixpoint pick_weighted {A} (population : list A) (weights : list nat)
  (x : nat) : option A :=
  match population, weights with
  | a :: ps, w :: ws => if x <? w then Some a else pick_weighted ps ws (x - w)
  | _, _ => None
  end.

Definition random_choices {A} (population : list A) (weights : list nat)
  : M A :=
  let total := list_sum weights in
  if total =? 0 then raise ValueError
  else x <- randbelow total ;;
       match pick_weighted population weights x with
       | Some a => ret a
       | None => raise IndexError
       end.

(** [os.urandom(n)]. *)
Fixpoint urandom (n : nat) : M bytes :=
  match n with
  | O => ret []
  | S k => x <- draw ;; rest <- urandom k ;;
           ret (byte_of_N (N.of_nat x) :: rest)
  end.

(** What [os.urandom(n)] reads off the random source: its next [n] draws,
    each reduced to a byte; an exhausted source gives zeros. *)
Definition drawn_bytes (n : nat) (r : Rng) : bytes :=
  map (fun x => byte_of_N (N.of_nat x)) (firstn n (r ++ repeat 0 n)).

(** Loops of the source: [for x in xs] over a state. *)
Fixpoint for_each {A S} (xs : list A) (body : A -> S -> M S) (s : S) : M S :=
  match xs with
  | [] => ret s
  | x :: rest => s' <- body x s ;; for_each rest body s'
  end.

(** ** Data model *)

Local Open Scope string_scope.

Inductive EncodingMethod : Type :=
| NONE | BASE64 | BASE64_MULTILINE | BASE64_URL_SAFE
| ENCRYPTED_FERNET | ZIP_PASSWORD | ZIP_ENCRYPTED.

(** [list(EncodingMethod)], in declaration order. *)
Definition all_methods : list EncodingMethod :=
  [NONE; BASE64; BASE64_MULTILINE; BASE64_URL_SAFE;
   ENCRYPTED_FERNET; ZIP_PASSWORD; ZIP_ENCRYPTED].

Definition method_eqb (a b : EncodingMethod) : bool :=
  match a, b with
  | NONE, NONE | BASE64, BASE64 | BASE64_MULTILINE, BASE64_MULTILINE
  | BASE64_URL_SAFE, BASE64_URL_SAFE | ENCRYPTED_FERNET, ENCRYPTED_FERNET
  | ZIP_PASSWORD, ZIP_PASSWORD | ZIP_ENCRYPTED, ZIP_ENCRYPTED => true
  | _, _ => false
  end.

Record FileGenerationPlan : Type := {
  file_type : string;
  size_bytes : nat;
  language : string;
  filename : string
}.

(** Equality of the dataclass: field by field. *)
Definition plan_eqb (p q : FileGenerationPlan) : bool :=
  String.eqb (file_type p) (file_type q) && Nat.eqb (size_bytes p) (size_bytes q)
  && String.eqb (language p) (language q) && String.eqb (filename p) (filename q).

Record FileReference : Type := {
  source_file : string;
  target_file : string;
  reference_type : string;
  context : string
}.

(** [salt] holds what [create_file_network] stores there: the base64 text
    of the salt that [encode_file] reports. *)
Record EncodedFile : Type := {
  original_plan : FileGenerationPlan;
  encoded_content : bytes;
  encoding_method : EncodingMethod;
  password : option string;
  key : option string;
  salt : option string;
  references : list FileReference
}.

Definition set_encoded_content (f : EncodedFile) (c : bytes) : EncodedFile :=
  {| original_plan := original_plan f;
     encoded_content := c;
     encoding_method := encoding_method f;
     password := password f;
     key := key f;
     salt := salt f;
     references := references f |}.

(** A [dict] with string keys, in insertion order. *)
Definition dict (V : Type) : Type := list (string * V).

Fixpoint dict_get {V} (d : dict V) (k : string) : option V :=
  match d with
  | [] => None
  | (k', v) :: rest => if String.eqb k k' then Some v else dict_get rest k
  end.

Fixpoint dict_set {V} (d : dict V) (k : string) (v : V) : dict V :=
  match d with
  | [] => [(k, v)]
  | (k', v') :: rest =>
      if String.eqb k k' then (k', v) :: rest else (k', v') :: dict_set rest k v
  end.

(** [d.get(k, [])]. *)
Definition dict_list {V} (d : dict (list V)) (k : string) : list V :=
  match dict_get d k with
  | Some l => l
  | None => []
  end.

(** Truth value of an optional string: [None] and [''] are false. *)
Definition truthy (s : option string) : bool :=
  match s with
  | Some (String _ _) => true
  | _ => false
  end.

(** ** External collaborators

    What the module imports and only calls: Faker, the [cryptography]
    package, [pyzipper] and the content templates of [templates.py]. *)

Inductive compression : Type := ZIP_LZMA | ZIP_DEFLATED.

Definition archive := list (string * bytes).

Record Externals : Type := {
  (** [Faker('en_US')], by provider name. *)
  fake : string -> M string;
  (** [PBKDF2HMAC(SHA256, length, salt, iterations).derive(key_material)]. *)
  pbkdf2_hmac_sha256 : nat -> bytes -> N -> bytes -> bytes;
  (** [Fernet.encrypt] and [Fernet.decrypt] under the decoded 32-byte key. *)
  fernet_encrypt : bytes -> bytes -> M bytes;
  fernet_decrypt : bytes -> bytes -> option bytes;
  (** An [AESZipFile] written with a password, and read back with one. *)
  aes_zip_write : compression -> bytes -> archive -> M bytes;
  aes_zip_read : bytes -> bytes -> option archive;
  (** [template.generate(size, filename)] of the template class registered
      for a file type, after [set_image_references] and
      [set_attachment_references]. *)
  template_generate :
    string -> string -> list string -> list string -> nat -> string -> M bytes;
  (** The Faker instance and the subject and date lines of an
      [EMLTemplate], by language. *)
  template_fake : string -> string -> M string;
  template_subject : string -> M string;
  template_date : string -> M string
}.

(** What the encoder relies on from its libraries. *)
Record ExternalsSound (ext : Externals) : Prop := {
  fake_total : forall provider r, exists s r', fake ext provider r = Ok s r';
  pbkdf2_length : forall n salt iterations material,
    List.length (pbkdf2_hmac_sha256 ext n salt iterations material) = n;
  fernet_roundtrip : forall k data r,
    List.length k = 32 ->
    exists token r',
      fernet_encrypt ext k data r = Ok token r' /\
      fernet_decrypt ext k token = Some data;
  aes_zip_roundtrip : forall c pwd entries r,
    pwd <> [] ->
    exists z r',
      aes_zip_write ext c pwd entries r = Ok z r' /\
      aes_zip_read ext pwd z = Some entries
}.

(** ** PasswordGenerator *)

Section PasswordGenerator.

Variable ext : Externals.

Definition weak_passwords : list string :=
  ["password123"; "admin"; "letmein"; "welcome"; "qwerty123";
   "password1"; "123456"; "admin123"; "welcome1"; "password"].

Definition ascii_letters : string :=
  "abcdefghijklmnopqrstuvwxyzABCDEFGHIJKLMNOPQRSTUVWXYZ".
Definition digits : string := "0123456789".

Definition strong_chars : string := ascii_letters ++ digits ++ "!@#$%^&*".

(** [''.join(secrets.choice(chars) for _ in range(n))]. *)
Fixpoint random_string (chars : list ascii) (n : nat) : M string :=
  match n with
  | O => ret ""
  | S k => c <- random_choice chars ;; rest <- random_string chars k ;;
           ret (String c rest)
  end.

Definition generate_password (strength : string) : M string :=
  if String.eqb strength "weak" then random_choice weak_passwords
  else if String.eqb strength "medium" then
    word <- fake ext "word" ;;
    n0 <- randint 10 99 ;;
    first_name <- fake ext "first_name" ;;
    n1 <- randint 1980 2024 ;;
    company <- fake ext "company" ;;
    n2 <- randint 1 99 ;;
    city <- fake ext "city" ;;
    n3 <- randint 10 999 ;;
    random_choice
      [Py.title word ++ Py.str_of_nat n0 ++ "!";
       first_name ++ Py.str_of_nat n1;
       Py.take_chars 8 (Py.remove_all "," (Py.remove_all " " company))
         ++ Py.str_of_nat n2;
       Py.remove_all " " city ++ Py.str_of_nat n3]
  else random_string (list_ascii_of_string strong_chars) 16.

End PasswordGenerator.

(** ** FileEncoder *)

Section FileEncoder.

Variable ext : Externals.

(** [range(0, n, step)]. *)
Definition range_step (n step : nat) : list nat :=
  map (fun k => k * step) (seq 0 ((n + step - 1) / step)).

(** [b[i:j]]. *)
Definition slice {A} (l : list A) (i j : nat) : list A :=
  firstn (j - i) (skipn i l).

(** [sep.join(parts)] on bytes. *)
Fixpoint join_bytes (sep : bytes) (parts : list bytes) : bytes :=
  match parts with
  | [] => []
  | [x] => x
  | x :: rest => (x ++ sep ++ join_bytes sep rest)%list
  end.

(** [Fernet(key)]: the key must be the url-safe base64 text of 32 bytes. *)
Definition Fernet (fernet_key : bytes) : M bytes :=
  match Base64.urlsafe_b64decode fernet_key with
  | Some k => if (List.length k =? 32)%nat then ret k else raise ValueError
  | None => raise ValueError
  end.

(** The key derivation shared by the encoder and by [decode_encrypted_file]. *)
Definition derive_key (password : string) (salt : bytes) : bytes :=
  Base64.urlsafe_b64encode
    (pbkdf2_hmac_sha256 ext 32 salt 100000%N (encode_utf8 password)).

Definition checksum_decoy : bytes :=
  list_byte_of_string "d41d8cd98f00b204e9800998ecf8427e".

Definition metadata := dict string.

Definition encode_file (content : bytes) (method : EncodingMethod)
  (password : option string) : M (bytes * metadata) :=
  match method with
  | BASE64 =>
      ret (Base64.b64encode content, [("encoding", "base64")])
  | BASE64_MULTILINE =>
      let encoded := Base64.b64encode content in
      let lines :=
        map (fun i => slice encoded i (i + 64))
            (range_step (List.length encoded) 64) in
      ret (join_bytes [Base64.NL] lines,
           [("encoding", "base64"); ("format", "multiline")])
  | BASE64_URL_SAFE =>
      ret (Base64.urlsafe_b64encode content, [("encoding", "base64url")])
  | ENCRYPTED_FERNET =>
      password <- (if truthy password
                   then ret (match password with Some p => p | None => "" end)
                   else generate_password ext "medium") ;;
      salt <- urandom 16 ;;
      let key := derive_key password salt in
      fernet <- Fernet key ;;
      encrypted <- fernet_encrypt ext fernet content ;;
      ret ((salt ++ encrypted)%list,
           [("encryption", "fernet"); ("password", password);
            ("salt", string_of_list_byte (Base64.b64encode salt))])
  | ZIP_PASSWORD =>
      password <- (if truthy password
                   then ret (match password with Some p => p | None => "" end)
                   else generate_password ext "medium") ;;
      encoded <- aes_zip_write ext ZIP_LZMA (encode_utf8 password)
                   [("data.bin", content)] ;;
      ret (encoded,
           [("compression", "zip"); ("encryption", "aes");
            ("password", password)])
  | ZIP_ENCRYPTED =>
      password <- (if truthy password
                   then ret (match password with Some p => p | None => "" end)
                   else generate_password ext "strong") ;;
      let n := List.length content in
      let entries :=
        ([("document.dat", if (100 <? n)%nat then firstn (n / 2) content else content)]
         ++ (if (100 <? n)%nat then [("metadata.txt", skipn (n / 2) content)] else [])
         ++ [("checksum.md5", checksum_decoy)])%list in
      encoded <- aes_zip_write ext ZIP_DEFLATED (encode_utf8 password) entries ;;
      ret (encoded,
           [("compression", "zip"); ("encryption", "aes256");
            ("password", password)])
  | NONE =>
      ret (content, [("encoding", "none")])
  end.

(** [decode_encrypted_file] of the decoder utility, on the file's bytes. *)
Definition decode_encrypted_file (encrypted_data : bytes) (password : string)
  : option bytes :=
  let salt := firstn 16 encrypted_data in
  let encrypted_content := skipn 16 encrypted_data in
  match Fernet (derive_key password salt) [] with
  | Ok fernet _ => fernet_decrypt ext fernet encrypted_content
  | Raise _ => None
  end.

End FileEncoder.

(** ** FileLinkingManager *)

(** The fields of the manager that are read again; [file_groups] is
    written once and never read, and is left out. *)
Record Manager : Type := {
  file_references : list FileReference;
  passwords : dict string;
  keys : dict string;
  encoded_files : list EncodedFile
}.

(** The state [__init__] leaves. *)
Definition new_manager : Manager :=
  {| file_references := []; passwords := []; keys := []; encoded_files := [] |}.

Definition append_reference (m : Manager) (ref : FileReference) : Manager :=
  {| file_references := (file_references m ++ [ref])%list;
     passwords := passwords m;
     keys := keys m;
     encoded_files := encoded_files m |}.

(** The reference list holds an edge of this kind between these names. *)
Definition has_edge (kind source target : string) (m : Manager) : Prop :=
  exists ref, In ref (file_references m) /\
              source_file ref = source /\
              target_file ref = target /\
              reference_type ref = kind.

(** An edge as the data model wants it: between two different names of the
    plan set. *)
Definition well_formed_reference (plans : list FileGenerationPlan)
  (ref : FileReference) : Prop :=
  source_file ref <> target_file ref /\
  In (source_file ref) (map filename plans) /\
  In (target_file ref) (map filename plans).

(** [m'] is [m] with well-formed edges appended and nothing else changed. *)
Definition extends_with_edges (plans : list FileGenerationPlan)
  (m m' : Manager) : Prop :=
  (exists new, file_references m' = (file_references m ++ new)%list /\
               Forall (well_formed_reference plans) new) /\
  encoded_files m' = encoded_files m /\
  passwords m' = passwords m /\
  keys m' = keys m.

(** Plans of different kinds carry different names, as they do in a plan
    set whose names are unique. *)
Definition kinds_apart (plans : list FileGenerationPlan) : bool :=
  forallb (fun p =>
    forallb (fun q => String.eqb (file_type p) (file_type q)
                      || negb (String.eqb (filename p) (filename q)))
            plans) plans.

(** Groups, by project or by base name, hold plans of the plan set. *)
Definition members_in (plans : list FileGenerationPlan)
  (d : dict (list FileGenerationPlan)) : Prop :=
  forall k l, In (k, l) d -> incl l plans.

(** The methods that protect a file with a password. *)
Definition uses_password (method : EncodingMethod) : bool :=
  match method with
  | ENCRYPTED_FERNET | ZIP_PASSWORD | ZIP_ENCRYPTED => true
  | _ => false
  end.

(** What the rewriting phases leave alone in an encoded file. *)
Definition credentials (f : EncodedFile)
  : FileGenerationPlan * EncodingMethod * option string * option string :=
  (original_plan f, encoding_method f, password f, salt f).

(** Password and salt are present exactly for the methods that need them,
    and a password is never empty. *)
Definition credentials_consistent (f : EncodedFile) : Prop :=
  ((uses_password (encoding_method f) = false /\ password f = None) \/
   (uses_password (encoding_method f) = true /\
    exists pw, password f = Some pw /\ pw <> EmptyString)) /\
  (salt f <> None <-> encoding_method f = ENCRYPTED_FERNET).

(** The registry holds the password of each protected file under its name,
    and nothing else. *)
Definition registry_matches (registry : dict string) (files : list EncodedFile)
  : Prop :=
  forall name pw,
    dict_get registry name = Some pw <->
    exists f, In f files /\ filename (original_plan f) = name /\
              password f = Some pw.

(** The state of the encoding loop once the plans [done] are through. *)
Definition encoded_upto (done : list FileGenerationPlan) (s : Manager) : Prop :=
  map original_plan (encoded_files s) = done /\
  Forall credentials_consistent (encoded_files s) /\
  registry_matches (passwords s) (encoded_files s).

Definition set_encoded_files (m : Manager) (fs : list EncodedFile) : Manager :=
  {| file_references := file_references m;
     passwords := passwords m;
     keys := keys m;
     encoded_files := fs |}.

Definition nl : string := String (ascii_of_nat 10) "".

Definition of_type (kinds : list string) (p : FileGenerationPlan) : bool :=
  Py.mem (file_type p) kinds.

Definition other_name (p q : FileGenerationPlan) : bool :=
  negb (String.eqb (filename q) (filename p)).

Section Linking.

Variable ext : Externals.

Definition _choose_encoding_method (ftype : string) : M EncodingMethod :=
  if String.eqb ftype "pdf" then ret NONE
  else if Py.mem ftype ["jpg"; "png"] then ret NONE
  else if String.eqb ftype "eml" then ret NONE
  else
    let weights :=
      if String.eqb ftype "docx" then [300; 200; 100; 100; 200; 50; 50]
      else if Py.mem ftype ["xlsx"; "csv"] then [200; 200; 100; 100; 100; 200; 100]
      else if String.eqb ftype "txt" then [300; 300; 200; 100; 50; 30; 20]
      else [500; 200; 100; 100; 100; 0; 0] in
    random_choices all_methods weights.

(** *** The nine relation passes *)

Definition attachment_contexts (attachment : FileGenerationPlan) : list string :=
  let name := filename attachment in
  ["Please see the attached " ++ Py.upper (file_type attachment) ++ " file: " ++ name;
   "Attachment: " ++ name ++ " contains the requested data";
   "See attached document " ++ name ++ " for details";
   "Please review the enclosed file: " ++ name;
   "The file " ++ name ++ " is attached for your reference";
   "Attached: " ++ name ++ " (contains confidential information)";
   "Please find " ++ name ++ " attached to this email";
   "Document attached: " ++ name ++ " - requires immediate attention"].

Definition _create_email_attachments (emails other_files : list FileGenerationPlan)
  (self : Manager) : M Manager :=
  for_each emails (fun email self =>
    if (0 <? List.length other_files)%nat then
      num_attachments <- randint 1 (Nat.min 6 (List.length other_files)) ;;
      attachments <- random_sample other_files num_attachments ;;
      for_each attachments (fun attachment self =>
        ctx <- random_choice (attachment_contexts attachment) ;;
        let self := append_reference self
          {| source_file := filename email;
             target_file := filename attachment;
             reference_type := "attachment";
             context := ctx |} in
        x <- random_permille ;;
        if (x <? 300)%nat then
          ret (append_reference self
            {| source_file := filename attachment;
               target_file := filename email;
               reference_type := "email_source";
               context := "This file was sent via email: " ++ filename email |})
        else ret self) self
    else ret self) self.

Definition _create_document_image_embeddings
  (documents images : list FileGenerationPlan) (self : Manager) : M Manager :=
  for_each documents (fun document self =>
    x <- random_permille ;;
    if (x <? 600)%nat && negb (Nat.eqb (List.length images) 0) then
      num_images <- randint 1 (Nat.min 3 (List.length images)) ;;
      embedded_images <- random_sample images num_images ;;
      for_each embedded_images (fun image self =>
        ret (append_reference self
          {| source_file := filename document;
             target_file := filename image;
             reference_type := "embedded_image";
             context := "Document contains embedded image: " ++ filename image |}))
        self
    else ret self) self.

Definition document_reference_types (ref_doc : FileGenerationPlan) : list string :=
  let name := filename ref_doc in
  ["See related document: " ++ name;
   "Additional information in: " ++ name;
   "Cross-reference: " ++ name;
   "Supporting documentation: " ++ name;
   "Referenced in document: " ++ name;
   "See also: " ++ name ++ " for complete details"].

Definition _create_document_references (documents : list FileGenerationPlan)
  (self : Manager) : M Manager :=
  for_each documents (fun doc self =>
    let other_docs := filter (other_name doc) documents in
    match other_docs with
    | [] => ret self
    | _ =>
        num_refs <- randint 1 (Nat.min 3 (List.length other_docs)) ;;
        referenced_docs <- random_sample other_docs num_refs ;;
        for_each referenced_docs (fun ref_doc self =>
          ctx <- random_choice (document_reference_types ref_doc) ;;
          ret (append_reference self
            {| source_file := filename doc;
               target_file := filename ref_doc;
               reference_type := "document_reference";
               context := ctx |})) self
    end) self.

Definition spreadsheet_reference_contexts (ref_file : FileGenerationPlan)
  : list string :=
  let name := filename ref_file in
  ["Data source: " ++ name;
   "Supporting file: " ++ name;
   "Referenced document: " ++ name;
   "Source material: " ++ name;
   "Analysis based on: " ++ name;
   "Data extracted from: " ++ name].

Definition _create_spreadsheet_references
  (spreadsheets other_files : list FileGenerationPlan) (self : Manager)
  : M Manager :=
  for_each spreadsheets (fun sheet self =>
    match other_files with
    | [] => ret self
    | _ =>
        num_refs <- randint 2 (Nat.min 4 (List.length other_files)) ;;
        referenced_files <- random_sample other_files num_refs ;;
        for_each referenced_files (fun ref_file self =>
          ctx <- random_choice (spreadsheet_reference_contexts ref_file) ;;
          ret (append_reference self
            {| source_file := filename sheet;
               target_file := filename ref_file;
               reference_type := "data_source";
               context := ctx |})) self
    end) self.

Definition project_names : list string :=
  ["Alpha"; "Beta"; "Gamma"; "Delta"; "Phoenix"; "Titan"; "Nova"; "Apex"].

(** [if k not in d: d[k] = []] followed by [d[k].append(v)]. *)
Definition dict_append {V} (d : dict (list V)) (k : string) (v : V)
  : dict (list V) :=
  match dict_get d k with
  | None => dict_set d k [v]
  | Some l => dict_set d k (l ++ [v])%list
  end.

Definition assign_projects (all_files : list FileGenerationPlan)
  : M (dict (list FileGenerationPlan)) :=
  for_each all_files (fun file project_files =>
    x <- random_permille ;;
    if (x <? 700)%nat then
      project <- random_choice project_names ;;
      ret (dict_append project_files project file)
    else ret project_files) [].

Definition _create_project_references (all_files : list FileGenerationPlan)
  (self : Manager) : M Manager :=
  project_files <- assign_projects all_files ;;
  for_each project_files (fun '(project, files) self =>
    if (1 <? List.length files)%nat then
      for_each files (fun file self =>
        let other_project_files := filter (other_name file) files in
        match other_project_files with
        | [] => ret self
        | _ =>
            num_refs <- randint 1 (Nat.min 2 (List.length other_project_files)) ;;
            referenced <- random_sample other_project_files num_refs ;;
            for_each referenced (fun ref_file self =>
              ret (append_reference self
                {| source_file := filename file;
                   target_file := filename ref_file;
                   reference_type := "project_reference";
                   context := "Project " ++ project ++ " file: "
                              ++ filename ref_file |})) self
        end) self
    else ret self) self.

Definition version_indicators : list string :=
  ["_v2"; "_v3"; "_final"; "_draft"; "_copy"; "_backup"; "_old"].

(** The grouping key of the version pass: each indicator is removed in turn,
    then everything from the first dot on is cut. *)
Definition base_name_of (name : string) : string :=
  Py.split_dot_head
    (fold_left (fun base_name indicator => Py.remove_all indicator base_name)
               version_indicators name).

Definition group_by_base_name (all_files : list FileGenerationPlan)
  : dict (list FileGenerationPlan) :=
  fold_left (fun base_names file =>
               dict_append base_names (base_name_of (filename file)) file)
            all_files [].

Definition version_contexts (other_file : FileGenerationPlan) : list string :=
  let name := filename other_file in
  ["Previous version: " ++ name;
   "Updated version of: " ++ name;
   "See also version: " ++ name;
   "Replaces: " ++ name;
   "Related version: " ++ name].

Definition _create_version_references (all_files : list FileGenerationPlan)
  (self : Manager) : M Manager :=
  let base_names := group_by_base_name all_files in
  for_each base_names (fun '(base_name, files) self =>
    if (1 <? List.length files)%nat then
      for_each files (fun file self =>
        let other_versions := filter (other_name file) files in
        for_each other_versions (fun other_file self =>
          ctx <- random_choice (version_contexts other_file) ;;
          ret (append_reference self
            {| source_file := filename file;
               target_file := filename other_file;
               reference_type := "version_reference";
               context := ctx |})) self) self
    else ret self) self.

(** How an f-string renders an optional password. *)
Definition password_text (p : option string) : string :=
  match p with
  | Some s => s
  | None => "None"
  end.

Definition _create_password_references (files : list FileGenerationPlan)
  (self : Manager) : M Manager :=
  let password_protected :=
    filter (fun f => truthy (password f)
                     && existsb (plan_eqb (original_plan f)) files)
           (encoded_files self) in
  for_each password_protected (fun protected_file self =>
    x <- random_permille ;;
    if (x <? 700)%nat then
      let protected_name := filename (original_plan protected_file) in
      let possible_containers :=
        filter (fun f => negb (String.eqb (filename f) protected_name)
                         && of_type ["eml"; "txt"; "docx"] f) files in
      match possible_containers with
      | [] => ret self
      | _ =>
          container <- random_choice possible_containers ;;
          ret (append_reference self
            {| source_file := filename container;
               target_file := protected_name;
               reference_type := "password";
               context := "Password for " ++ protected_name ++ ": "
                          ++ password_text (password protected_file) |})
      end
    else ret self) self.

Definition _create_backup_references
  (documents spreadsheets : list FileGenerationPlan) (self : Manager)
  : M Manager :=
  for_each (firstn (List.length documents / 3) documents) (fun doc self =>
    match spreadsheets with
    | [] => ret self
    | _ =>
        backup <- random_choice spreadsheets ;;
        ret (append_reference self
          {| source_file := filename doc;
             target_file := filename backup;
             reference_type := "backup";
             context := "Backup data stored in: " ++ filename backup |})
    end) self.

Definition _create_data_references
  (spreadsheets documents : list FileGenerationPlan) (self : Manager)
  : M Manager :=
  for_each (firstn (List.length spreadsheets / 2) spreadsheets) (fun sheet self =>
    match documents with
    | [] => ret self
    | _ =>
        source_doc <- random_choice documents ;;
        ret (append_reference self
          {| source_file := filename sheet;
             target_file := filename source_doc;
             reference_type := "data";
             context := "Data source: " ++ filename source_doc |})
    end) self.

(** The partition of the plan set and the nine passes, in the order
    [create_file_network] runs them. *)
Definition emails_of (plans : list FileGenerationPlan) :=
  filter (of_type ["eml"]) plans.
Definition documents_of (plans : list FileGenerationPlan) :=
  filter (of_type ["pdf"; "docx"; "txt"]) plans.
Definition spreadsheets_of (plans : list FileGenerationPlan) :=
  filter (of_type ["xlsx"; "csv"]) plans.
Definition images_of (plans : list FileGenerationPlan) :=
  filter (of_type ["jpg"; "png"]) plans.

Definition create_cross_references (plans : list FileGenerationPlan)
  (self : Manager) : M Manager :=
  let emails := emails_of plans in
  let documents := documents_of plans in
  let spreadsheets := spreadsheets_of plans in
  let images := images_of plans in
  self <- _create_email_attachments emails
            (documents ++ spreadsheets ++ images)%list self ;;
  self <- _create_document_image_embeddings documents images self ;;
  self <- _create_document_references documents self ;;
  self <- _create_spreadsheet_references spreadsheets
            (documents ++ images)%list self ;;
  self <- _create_password_references plans self ;;
  self <- _create_backup_references documents spreadsheets self ;;
  self <- _create_data_references spreadsheets documents self ;;
  self <- _create_project_references plans self ;;
  _create_version_references plans self.

(** *** Rewriting content after the graph is built *)

Fixpoint map_M {A B} (f : A -> M B) (l : list A) : M (list B) :=
  match l with
  | [] => ret []
  | x :: rest => y <- f x ;; ys <- map_M f rest ;; ret (y :: ys)
  end.

Definition references_from (self : Manager) (name : string)
  : list FileReference :=
  filter (fun ref => String.eqb (source_file ref) name) (file_references self).

Definition endswith_any (s : string) (suffixes : list string) : bool :=
  existsb (Py.endswith s) suffixes.

(** [sender.split('@')[1]]. *)
Fixpoint after_at (s : string) : option string :=
  match s with
  | EmptyString => None
  | String c t =>
      if Ascii.eqb c "@"%char then
        Some ((fix upto (u : string) : string :=
                 match u with
                 | EmptyString => EmptyString
                 | String d v => if Ascii.eqb d "@"%char then EmptyString
                                 else String d (upto v)
                 end) t)
      else after_at t
  end.

Definition attachment_lines (heading : string) (descriptions : list string)
  (atts : list FileReference) : M (list string) :=
  match atts with
  | [] => ret []
  | _ =>
      lines <- map_M (fun att =>
                 random_choice
                   (map (fun d => "    - " ++ target_file att ++ d) descriptions))
               atts ;;
      ret (heading :: lines)
  end.

Definition _generate_email_with_references (lang : string)
  (attachments password_refs : list FileReference) : M string :=
  let tfake := template_fake ext lang in
  sender <- tfake "email" ;;
  recipient <- tfake "email" ;;
  subject <- template_subject ext lang ;;
  date <- template_date ext lang ;;
  let ends suffixes att := endswith_any (Py.lower (target_file att)) suffixes in
  let image_attachments := filter (ends [".jpg"; ".png"]) attachments in
  let document_attachments := filter (ends [".pdf"; ".docx"; ".txt"]) attachments in
  let data_attachments := filter (ends [".xlsx"; ".csv"]) attachments in
  first_name <- tfake "first_name" ;;
  opening <-
    match image_attachments, document_attachments with
    | _ :: _, _ :: _ =>
        ret "I've attached the requested documents along with supporting visual materials."
    | _ :: _, [] =>
        ret "Please review the attached images and visual documentation."
    | [], _ :: _ =>
        ret "The attached documents contain the information we discussed."
    | [], [] => tfake "text"
    end ;;
  listing <-
    match attachments with
    | [] => ret []
    | _ =>
        docs <- attachment_lines "  Documents:"
                  [" (contains detailed analysis)";
                   " (confidential - handle with care)";
                   " (requires immediate review)";
                   " (supporting documentation)";
                   " (latest version - please review)"] document_attachments ;;
        imgs <- attachment_lines "  Visual Materials:"
                  [" (charts and diagrams)";
                   " (screenshot for reference)";
                   " (visual documentation)";
                   " (supporting graphics)";
                   " (embedded in related documents)"] image_attachments ;;
        data <- attachment_lines "  Data Files:"
                  [" (raw data for analysis)";
                   " (spreadsheet with calculations)";
                   " (database export)";
                   " (financial data - confidential)"] data_attachments ;;
        ret (["Attachments included:"] ++ docs ++ imgs ++ data ++ [""])%list
    end ;;
  let security :=
    match password_refs with
    | [] => []
    | _ => (["Security Notes:"]
            ++ map (fun pwd_ref => ("  - " ++ context pwd_ref)%string) password_refs
            ++ [""])%list
    end in
  x <- random_permille ;;
  other <-
    (if (x <? 600)%nat then
       o <- random_choice
              ["Additional related files may be found in the shared directory.";
               "See previous email thread for context on these attachments.";
               "Some images are embedded within the attached documents.";
               "Please ensure all files are reviewed together for complete understanding.";
               "Cross-reference these files with our project documentation."] ;;
       ret [o; ""]
     else ret []) ;;
  y <- random_permille ;;
  action <-
    (if (y <? 400)%nat then
       a <- random_choice
              ["Please confirm receipt and review by end of week.";
               "Your feedback on the attached materials is requested.";
               "These files require your approval before proceeding.";
               "Please coordinate with the team on the attached documentation."] ;;
       ret [a; ""]
     else ret []) ;;
  signature <- tfake "name" ;;
  let body_parts :=
    ([("Dear " ++ first_name ++ ",")%string; ""; opening; ""] ++ listing ++ security
     ++ other ++ action ++ ["Best regards,"; signature])%list in
  (* the separator is a backslash followed by the letter n *)
  let body := Py.join "\n" body_parts in
  let content_type :=
    match attachments with [] => "text/plain" | _ => "multipart/mixed" end in
  from_name <- tfake "name" ;;
  to_name <- tfake "name" ;;
  uuid <- tfake "uuid4" ;;
  domain <- match after_at sender with
            | Some d => ret d
            | None => raise IndexError
            end ;;
  closing_name <- tfake "name" ;;
  job <- tfake "job" ;;
  company <- tfake "company" ;;
  phone <- tfake "phone_number" ;;
  ret ("From: " ++ from_name ++ " <" ++ sender ++ ">" ++ nl
       ++ "To: " ++ to_name ++ " <" ++ recipient ++ ">" ++ nl
       ++ "Subject: " ++ subject ++ nl
       ++ "Date: " ++ date ++ nl
       ++ "Message-ID: <" ++ uuid ++ "@" ++ domain ++ ">" ++ nl
       ++ "MIME-Version: 1.0" ++ nl
       ++ "Content-Type: " ++ content_type ++ "; charset=utf-8" ++ nl
       ++ "Content-Transfer-Encoding: 8bit" ++ nl
       ++ "X-Priority: Normal" ++ nl
       ++ "X-Attachments: " ++ Py.str_of_nat (List.length attachments)
       ++ " file(s)" ++ nl
       ++ nl
       ++ body ++ nl
       ++ nl
       ++ "--" ++ nl
       ++ closing_name ++ nl
       ++ job ++ nl
       ++ company ++ nl
       ++ phone ++ nl).

Definition is_type (kind : string) (f : EncodedFile) : bool :=
  String.eqb (file_type (original_plan f)) kind.

Definition _update_email_content_with_references (self : Manager) : M Manager :=
  files <- map_M (fun encoded_file =>
      if is_type "eml" encoded_file then
        let name := filename (original_plan encoded_file) in
        let email_refs := references_from self name in
        match email_refs with
        | [] => ret encoded_file
        | _ =>
            let attachments :=
              filter (fun ref => String.eqb (reference_type ref) "attachment")
                     email_refs in
            let password_refs :=
              filter (fun ref => String.eqb (reference_type ref) "password"
                                 && String.eqb (source_file ref) name)
                     (file_references self) in
            custom_content <-
              _generate_email_with_references
                (language (original_plan encoded_file)) attachments password_refs ;;
            ret (set_encoded_content encoded_file (encode_utf8 custom_content))
        end
      else ret encoded_file) (encoded_files self) ;;
  ret (set_encoded_files self files).

(** The text the document rewriter appends. *)
Definition referenced_files_section (doc_refs : list FileReference) : string :=
  fold_left (fun additional_content ref =>
               additional_content ++ "- " ++ context ref ++ nl)
            doc_refs (nl ++ nl ++ "REFERENCED FILES:" ++ nl).

Definition update_document (self : Manager) (encoded_file : EncodedFile)
  : EncodedFile :=
  if of_type ["txt"; "docx"] (original_plan encoded_file) then
    let doc_refs := references_from self (filename (original_plan encoded_file)) in
    match doc_refs with
    | [] => encoded_file
    | _ =>
        let additional_content := referenced_files_section doc_refs in
        if is_type "txt" encoded_file then
          let current_content :=
            Py.decode_utf8_ignore (encoded_content encoded_file) in
          let new_content := current_content ++ additional_content in
          set_encoded_content encoded_file (encode_utf8 new_content)
        else encoded_file
    end
  else encoded_file.

Definition _update_document_content_with_references (self : Manager) : Manager :=
  set_encoded_files self (map (update_document self) (encoded_files self)).

(** [s.split(sep)] for a one-character separator. *)
Fixpoint split_on (sep : ascii) (s : string) : list string :=
  match s with
  | EmptyString => [EmptyString]
  | String c t =>
      if Ascii.eqb c sep then EmptyString :: split_on sep t
      else match split_on sep t with
           | h :: r => String c h :: r
           | [] => [String c EmptyString]
           end
  end.

Definition update_spreadsheet (self : Manager) (encoded_file : EncodedFile)
  : EncodedFile :=
  if of_type ["csv"] (original_plan encoded_file) then
    let sheet_refs := references_from self (filename (original_plan encoded_file)) in
    match sheet_refs with
    | [] => encoded_file
    | _ =>
        let current_content :=
          Py.decode_utf8_ignore (encoded_content encoded_file) in
        let lines := split_on (ascii_of_nat 10) current_content in
        let reference_comments :=
          (["# REFERENCED FILES:"]
           ++ map (fun ref => ("# " ++ context ref)%string) sheet_refs ++ [""])%list in
        let new_lines := (reference_comments ++ lines)%list in
        let new_content := Py.join nl new_lines in
        set_encoded_content encoded_file (encode_utf8 new_content)
    end
  else encoded_file.

Definition _update_spreadsheet_content_with_references (self : Manager) : Manager :=
  set_encoded_files self (map (update_spreadsheet self) (encoded_files self)).

(** *** Password hints *)

Definition hint_formats (protected_filename password : string) : list string :=
  ["Note: Archive password for " ++ protected_filename ++ ": " ++ password;
   "Backup access code: " ++ password ++ " (for " ++ protected_filename ++ ")";
   "Decryption key: " ++ password;
   "Access credentials - File: " ++ protected_filename ++ ", Pass: " ++ password;
   "Security memo: " ++ protected_filename ++ " requires password '"
     ++ password ++ "'"].

(** The hint is framed by backslash-n pairs, as the source writes them. *)
Definition append_hint (target_file : EncodedFile) (hint : string) : EncodedFile :=
  let current_content := Py.decode_utf8_ignore (encoded_content target_file) in
  let new_content := current_content ++ "\n\n" ++ hint ++ "\n" in
  set_encoded_content target_file (encode_utf8 new_content).

(** [text_files] aliases objects of [encoded_files]: it is kept as the
    positions of those objects. *)
Definition text_file_positions (files : list EncodedFile) : list nat :=
  map fst
    (filter (fun jf => of_type ["txt"; "docx"] (original_plan (snd jf)))
            (combine (seq 0 (List.length files)) files)).

Fixpoint update_at {A} (i : nat) (x : A) (l : list A) : list A :=
  match l, i with
  | [], _ => []
  | _ :: t, O => x :: t
  | y :: t, S j => y :: update_at j x t
  end.

Definition distribute_step (text_files : list nat)
  (entry : nat * (string * string)) (self : Manager) : M Manager :=
  let '(i, (protected_filename, password)) := entry in
  match nth_error text_files i with
  | None => ret self
  | Some j =>
      match nth_error (encoded_files self) j with
      | None => ret self
      | Some target_file =>
          hint <- random_choice (hint_formats protected_filename password) ;;
          if is_type "txt" target_file then
            ret (set_encoded_files self
                   (update_at j (append_hint target_file hint)
                              (encoded_files self)))
          else ret self
      end
  end.

Definition _distribute_password_hints (self : Manager) : M Manager :=
  let text_files := text_file_positions (encoded_files self) in
  all_passwords <- random_shuffle (passwords self) ;;
  let chosen := firstn (List.length text_files / 2) all_passwords in
  for_each (combine (seq 0 (List.length chosen)) chosen)
           (distribute_step text_files) self.

(** *** What the distributor may do to a file *)

(** A carrier after the distributor ran: the file before, with one hint
    appended that was built from an entry of the registry. *)
Definition hinted (registry : dict string) (before after : EncodedFile) : Prop :=
  is_type "txt" before = true /\
  exists protected_filename pw hint,
    In (protected_filename, pw) registry /\
    In hint (hint_formats protected_filename pw) /\
    Py.contains pw hint = true /\
    (hint <> "Decryption key: " ++ pw ->
     Py.contains protected_filename hint = true) /\
    after = append_hint before hint.

(** The state after the first [k] registry entries were handled: a file
    differs from the original only at a position one of those entries used,
    and then by one appended hint. *)
Definition distributed (files0 : list EncodedFile) (registry : dict string)
  (k : nat) (s : Manager) : Prop :=
  List.length (encoded_files s) = List.length files0 /\
  forall j f f',
    nth_error files0 j = Some f ->
    nth_error (encoded_files s) j = Some f' ->
    f' = f \/
    ((exists i, (i < k)%nat /\ nth_error (text_file_positions files0) i = Some j)
     /\ hinted registry f f').

(** *** The pipeline *)

Definition supported_types : list string :=
  ["pdf"; "docx"; "xlsx"; "eml"; "csv"; "txt"; "jpg"; "png"].

Definition sample_names (pool : list FileGenerationPlan) (most : nat)
  : M (list string) :=
  match pool with
  | [] => ret []
  | _ =>
      num <- randint 1 (Nat.min most (List.length pool)) ;;
      chosen <- random_sample pool num ;;
      ret (map filename chosen)
  end.

(** The image and attachment names handed to the template before it
    generates. *)
Definition template_references (plan : FileGenerationPlan)
  (documents spreadsheets images : list FileGenerationPlan)
  : M (list string * list string) :=
  if of_type ["pdf"; "docx"] plan then
    image_filenames <- sample_names images 3 ;;
    ret (image_filenames, [])
  else if String.eqb (file_type plan) "eml" then
    image_filenames <- sample_names images 4 ;;
    attachment_filenames <- sample_names (documents ++ spreadsheets)%list 5 ;;
    ret (image_filenames, attachment_filenames)
  else ret ([], []).

Definition encode_plan (documents spreadsheets images : list FileGenerationPlan)
  (plan : FileGenerationPlan) (self : Manager) : M Manager :=
  encoding_method <- _choose_encoding_method (file_type plan) ;;
  _ <- (if Py.mem (Py.lower (file_type plan)) supported_types
        then ret tt else raise ValueError) ;;
  '(image_refs, attachment_refs) <-
     template_references plan documents spreadsheets images ;;
  original_content <-
    template_generate ext (Py.lower (file_type plan)) (language plan)
                      image_refs attachment_refs
                      (size_bytes plan) (filename plan) ;;
  '(encoded_content, metadata) <-
     encode_file ext original_content encoding_method None ;;
  let encoded_file :=
    {| original_plan := plan;
       encoded_content := encoded_content;
       encoding_method := encoding_method;
       password := dict_get metadata "password";
       key := dict_get metadata "key";
       salt := dict_get metadata "salt";
       references := [] |} in
  let passwords' :=
    match password encoded_file with
    | Some (String c p) => dict_set (passwords self) (filename plan) (String c p)
    | _ => passwords self
    end in
  let keys' :=
    match key encoded_file with
    | Some (String c k) => dict_set (keys self) (filename plan) (String c k)
    | _ => keys self
    end in
  ret {| file_references := file_references self;
         passwords := passwords';
         keys := keys';
         encoded_files := (encoded_files self ++ [encoded_file])%list |}.

Definition create_file_network (plans : list FileGenerationPlan)
  (self : Manager) : M (list EncodedFile * Manager) :=
  let documents := documents_of plans in
  let spreadsheets := spreadsheets_of plans in
  let images := images_of plans in
  self <- for_each plans (encode_plan documents spreadsheets images) self ;;
  self <- create_cross_references plans self ;;
  self <- _update_email_content_with_references self ;;
  let self := _update_document_content_with_references self in
  let self := _update_spreadsheet_content_with_references self in
  self <- _distribute_password_hints self ;;
  ret (encoded_files self, self).

End Linking.

(** ** A small executable instance of the external collaborators

    It stands in for the libraries when the model is run on concrete
    inputs: a key stream cipher that only reverses its input, and an
    archive format with unary length prefixes. *)

Module Reference.

Definition unary (n : nat) : bytes := (repeat x01 n ++ [x00])%list.

Definition put_bytes (b : bytes) : bytes := (unary (List.length b) ++ b)%list.

Definition put_entry (e : string * bytes) : bytes :=
  (put_bytes (list_byte_of_string (fst e)) ++ put_bytes (snd e))%list.

Definition put_archive (entries : archive) : bytes :=
  (unary (List.length entries) ++ List.concat (map put_entry entries))%list.

Fixpoint get_unary (s : bytes) : option (nat * bytes) :=
  match s with
  | [] => None
  | c :: rest =>
      if Byte.eqb c x00 then Some (0, rest)
      else match get_unary rest with
           | Some (n, rest') => Some (S n, rest')
           | None => None
           end
  end.

Definition get_bytes (s : bytes) : option (bytes * bytes) :=
  match get_unary s with
  | Some (n, rest) =>
      if (n <=? List.length rest)%nat then Some (firstn n rest, skipn n rest)
      else None
  | None => None
  end.

Fixpoint get_entries (count : nat) (s : bytes) : option archive :=
  match count with
  | O => Some []
  | S k =>
      match get_bytes s with
      | Some (name, rest) =>
          match get_bytes rest with
          | Some (data, rest') =>
              match get_entries k rest' with
              | Some es => Some ((string_of_list_byte name, data) :: es)
              | None => None
              end
          | None => None
          end
      | None => None
      end
  end.

Definition get_archive (s : bytes) : option archive :=
  match get_unary s with
  | Some (count, rest) => get_entries count rest
  | None => None
  end.

Definition ext : Externals :=
  {| fake := fun provider => ret ("Sample" ++ provider);
     pbkdf2_hmac_sha256 := fun n salt _ material =>
       firstn n (material ++ salt ++ repeat x00 n)%list;
     fernet_encrypt := fun _ data => ret (rev data);
     fernet_decrypt := fun _ token => Some (rev token);
     aes_zip_write := fun _ pwd entries => ret (put_bytes pwd ++ put_archive entries)%list;
     aes_zip_read := fun pwd z =>
       match get_bytes z with
       | Some (p, rest) => if bytes_eqb p pwd then get_archive rest else None
       | None => None
       end;
     template_generate := fun ftype _ _ _ _ name =>
       ret (list_byte_of_string (ftype ++ " body of " ++ name));
     template_fake := fun _ provider =>
       ret (if String.eqb provider "email" then "user@example.com" else provider);
     template_subject := fun _ => ret "Quarterly figures";
     template_date := fun _ => ret "Mon, 01 Jan 2024 09:00:00 " |}.

Definition plan (ftype name : string) : FileGenerationPlan :=
  {| file_type := ftype; size_bytes := 64; language := "en"; filename := name |}.

(** A state the pipeline can reach before the distributor runs: a text
    file wrapped in a password archive, and a plain one. *)
Definition archived_text : EncodedFile :=
  {| original_plan := plan "txt" "a.txt";
     encoded_content := list_byte_of_string "PK archive bytes";
     encoding_method := ZIP_PASSWORD;
     password := Some "Harbor42!";
     key := None;
     salt := None;
     references := [] |}.

Definition plain_text : EncodedFile :=
  {| original_plan := plan "txt" "b.txt";
     encoded_content := list_byte_of_string "minutes of the meeting";
     encoding_method := NONE;
     password := None;
     key := None;
     salt := None;
     references := [] |}.

Definition before_hints : Manager :=
  {| file_references := [];
     passwords := [("a.txt", "Harbor42!")];
     keys := [];
     encoded_files := [archived_text; plain_text] |}.

Definition after_hints (tape : Rng) : Manager :=
  match _distribute_password_hints before_hints tape with
  | Ok m _ => m
  | Raise _ => before_hints
  end.

(** A plan set with every kind of file, and the state the relation passes
    leave for a given tape. *)
Definition office_plans : list FileGenerationPlan :=
  [plan "eml" "memo.eml"; plan "txt" "notes.txt"; plan "txt" "notes_v2.txt";
   plan "csv" "ledger.csv"; plan "png" "chart.png"; plan "docx" "notes_final.docx"].

Definition linked (tape : Rng) : Manager :=
  match create_cross_references office_plans new_manager tape with
  | Ok m _ => m
  | Raise _ => new_manager
  end.

(** Two text files through the whole pipeline. *)
Definition two_texts : list FileGenerationPlan :=
  [plan "txt" "a.txt"; plan "txt" "b.txt"].

Definition network (tape : Rng) : list EncodedFile * Manager :=
  match create_file_network ext two_texts new_manager tape with
  | Ok out _ => out
  | Raise _ => ([], new_manager)
  end.

End Reference.


(** ** Names as the version pass reads them *)

(** [''.join(parts)]. *)
Definition joined (parts : list string) : string :=
  fold_right String.append EmptyString parts.

(** A stem holds no dot and none of the version indicators. *)
Definition plain_stem (stem : string) : Prop :=
  Py.contains "." stem = false /\
  forall indicator,
    In indicator version_indicators -> Py.contains indicator stem = false.

(** An extension: nothing, or a dot and what follows it. *)
Definition is_extension (extension : string) : Prop :=
  extension = EmptyString \/ exists rest, extension = "." ++ rest.

(** Stripping the version suffixes and the extension from [name] leaves
    [stem]: the name is the stem, followed by any number of version
    indicators, followed by an extension. *)
Definition strips_to (name stem : string) : Prop :=
  plain_stem stem /\
  exists indicators extension,
    Forall (fun indicator => In indicator version_indicators) indicators /\
    is_extension extension /\
    name = stem ++ joined indicators ++ extension.

(** The indicators left when one is taken out. *)
Definition without (old : string) (indicators : list string) : list string :=
  filter (fun indicator => negb (String.eqb indicator old)) indicators.

(** ** The remaining methods of the module *)

Definition api_key_prefixes : list string :=
  ["sk_"; "pk_"; "api_"; "key_"; "token_"].

(** [PasswordGenerator.generate_api_key]. *)
Definition generate_api_key : M string :=
  prefix <- random_choice api_key_prefixes ;;
  key_part <- random_string (list_ascii_of_string (ascii_letters ++ digits)) 32 ;;
  ret (prefix ++ key_part).

(** [FileLinkingManager.get_file_references_for_file]. *)
Definition get_file_references_for_file (self : Manager) (name : string)
  : list FileReference :=
  filter (fun ref => String.eqb (source_file ref) name) (file_references self).

(** [EncodingMethod.value]. *)
Definition method_value (method : EncodingMethod) : string :=
  match method with
  | NONE => "none"
  | BASE64 => "base64"
  | BASE64_MULTILINE => "base64_multiline"
  | BASE64_URL_SAFE => "base64_urlsafe"
  | ENCRYPTED_FERNET => "encrypted_fernet"
  | ZIP_PASSWORD => "zip_password"
  | ZIP_ENCRYPTED => "zip_encrypted"
  end.

(** [d[k] = d.get(k, 0) + 1]. *)
Definition count_one (d : dict nat) (k : string) : dict nat :=
  dict_set d k (match dict_get d k with Some n => n | None => 0 end + 1)%nat.

(** [FileLinkingManager.get_encoding_summary]. *)
Definition get_encoding_summary (self : Manager) : dict nat :=
  fold_left (fun summary encoded_file =>
               count_one summary (method_value (encoding_method encoded_file)))
            (encoded_files self) [].

(** ** Shapes of emitted edges *)

(** [m'] is [m] with edges appended that all satisfy [P]. *)
Definition appends_edges (P : FileReference -> Prop) (m m' : Manager) : Prop :=
  exists new, file_references m' = (file_references m ++ new)%list /\
              Forall P new.

(** An edge of kind [kind] from a plan whose file type satisfies [source_kind]
    to a plan whose file type satisfies [target_kind]. *)
Definition edge_between (plans : list FileGenerationPlan)
  (source_kind target_kind : string -> Prop) (kind : string)
  (ref : FileReference) : Prop :=
  reference_type ref = kind /\
  exists p q, In p plans /\ In q plans /\
              source_file ref = filename p /\ target_file ref = filename q /\
              source_kind (file_type p) /\ target_kind (file_type q).

Definition is_email (t : string) : Prop := t = "eml".
Definition is_document (t : string) : Prop := In t ["pdf"; "docx"; "txt"].
Definition is_spreadsheet (t : string) : Prop := In t ["xlsx"; "csv"].
Definition is_image (t : string) : Prop := In t ["jpg"; "png"].
Definition is_carrier (t : string) : Prop := In t ["eml"; "txt"; "docx"].
Definition any_kind (t : string) : Prop := True.

(** The kinds each relation may connect. *)
Definition typed_edge (plans : list FileGenerationPlan) (ref : FileReference)
  : Prop :=
  edge_between plans is_email
    (fun t => is_document t \/ is_spreadsheet t \/ is_image t) "attachment" ref \/
  edge_between plans
    (fun t => is_document t \/ is_spreadsheet t \/ is_image t) is_email
    "email_source" ref \/
  edge_between plans is_document is_image "embedded_image" ref \/
  edge_between plans is_document is_document "document_reference" ref \/
  edge_between plans is_spreadsheet (fun t => is_document t \/ is_image t)
    "data_source" ref \/
  edge_between plans is_carrier any_kind "password" ref \/
  edge_between plans is_document is_spreadsheet "backup" ref \/
  edge_between plans is_spreadsheet is_document "data" ref \/
  edge_between plans any_kind any_kind "project_reference" ref \/
  edge_between plans any_kind any_kind "version_reference" ref.

(** What a password edge says: it names a protected file of the manager and
    spells out that file's password. *)
Definition password_edge (files : list FileGenerationPlan) (self : Manager)
  (ref : FileReference) : Prop :=
  reference_type ref = "password" /\
  exists protected_file pw container,
    In protected_file (encoded_files self) /\
    password protected_file = Some pw /\ pw <> EmptyString /\
    target_file ref = filename (original_plan protected_file) /\
    context ref = "Password for " ++ target_file ref ++ ": " ++ pw /\
    In container files /\
    source_file ref = filename container /\
    is_carrier (file_type container) /\
    source_file ref <> target_file ref.

(** What a version edge says: two differently named files of the plan set
    with one base name. *)
Definition version_edge (all_files : list FileGenerationPlan)
  (ref : FileReference) : Prop :=
  reference_type ref = "version_reference" /\
  exists f g, In f all_files /\ In g all_files /\
              source_file ref = filename f /\ target_file ref = filename g /\
              filename f <> filename g /\
              base_name_of (filename f) = base_name_of (filename g).

(** ** What the rewriting steps may do to a file *)

(** A file after rewriting: unchanged, or the same record with new content,
    which only files of the given kinds may get. *)
Definition rewritten (kinds : list string) (f f' : EncodedFile) : Prop :=
  f' = f \/
  (In (file_type (original_plan f)) kinds /\
   exists c, f' = set_encoded_content f c).

(** Content made of ASCII bytes only, as base64 text is. *)
Definition ascii_only (b : bytes) : bool :=
  forallb (fun c => (Byte.to_N c <? 128)%N) b.

(** The bytes of the section the document rewriter appends, and of the
    comment header the spreadsheet rewriter prepends. *)
Definition section_bytes (refs : list FileReference) : bytes :=
  (encode_utf8 (nl ++ nl ++ "REFERENCED FILES:" ++ nl)
   ++ List.concat (map (fun ref => encode_utf8 ("- " ++ context ref ++ nl)) refs))%list.

Definition header_bytes (refs : list FileReference) : bytes :=
  (encode_utf8 ("# REFERENCED FILES:" ++ nl)
   ++ List.concat (map (fun ref => encode_utf8 ("# " ++ context ref ++ nl)) refs)
   ++ encode_utf8 nl)%list.

(** The file name endings the email generator sorts attachments by. *)
Definition listed_suffixes : list string :=
  [".jpg"; ".png"; ".pdf"; ".docx"; ".txt"; ".xlsx"; ".csv"].

(** A manager state with an email that has an attachment edge and a
    password edge. *)
Definition mailbox : Manager :=
  {| file_references :=
       [ {| source_file := "memo.eml"; target_file := "ledger.csv";
            reference_type := "attachment";
            context := "Attachment: ledger.csv" |};
         {| source_file := "memo.eml"; target_file := "a.txt";
            reference_type := "password";
            context := "Password for a.txt: Harbor42!" |} ];
     passwords := [("a.txt", "Harbor42!")];
     keys := [];
     encoded_files :=
       [ {| original_plan := Reference.plan "eml" "memo.eml";
            encoded_content := list_byte_of_string "placeholder";
            encoding_method := NONE;
            password := None; key := None; salt := None;
            references := [] |};
         Reference.archived_text ] |}.

Definition mailbox_regenerated (tape : Rng) : Manager :=
  match _update_email_content_with_references Reference.ext mailbox tape with
  | Ok m _ => m
  | Raise _ => mailbox
  end.

(** ** The generation planner ([src/settings.py])

    The planner computes with Python integers that may be negative (space
    left after the reserve, space left for the remaining files), so its
    sizes and counts are in [Z]; [//] is floor division, which is [Z.div].
    The free disk space is read from the operating system and is a
    parameter here. *)

From Stdlib Require Import ZArith DecimalString.

Module Planner.

Local Open Scope Z_scope.

(** The fields of [ChaffSettings] the planner reads. *)
Record ChaffSettings : Type := {
  fill_drive : bool;
  min_file_size : Z;
  max_file_size : Z;
  minimum_remaining_disk_space : Z;
  min_file_count : Z;
  max_file_count : Z;
  chaff_file_types : list string;
  include_languages : list string
}.

(** [FileGenerationPlan] as the planner builds it, with the size as the
    integer the arithmetic gives. *)
Record FileGenerationPlan : Type := {
  file_type : string;
  size_bytes : Z;
  language : string;
  filename : string
}.

(** The planner can fail on a division by zero as well as inside [random]. *)
Inductive planner_exn : Type :=
| ZeroDivisionError
| Random (e : exn).

Inductive planned (A : Type) : Type :=
| Planned (a : A) (r : Rng)
| Failed (e : planner_exn).
Arguments Planned {A} a r.
Arguments Failed {A} e.

Definition lift {A} (c : M A) : Rng -> planned A :=
  fun r => match c r with
           | Ok a r' => Planned a r'
           | Raise e => Failed (Random e)
           end.

(** [str(n)] for an integer. *)
Definition str_of_Z (n : Z) : string := NilZero.string_of_int (Z.to_int n).

(** [random.randint(a, b)] on integers; [ValueError] on the empty range. *)
Definition randint_Z (a b : Z) : M Z :=
  if b <? a then raise ValueError
  else k <- randbelow (Z.to_nat (b - a + 1)) ;; ret (a + Z.of_nat k).

(** [range(n)]. *)
Definition range (n : Z) : list Z := map Z.of_nat (seq 0 (Z.to_nat n)).

(** [calculate_fill_drive_parameters]; [None] is [ZeroDivisionError]. *)
Definition calculate_fill_drive_parameters (settings : ChaffSettings)
  (available_space : Z) : option (Z * Z) :=
  let usable_space := available_space - minimum_remaining_disk_space settings in
  if usable_space <=? 0 then Some (0, 0)
  else
    let avg_target_size := (min_file_size settings + max_file_size settings) / 2 in
    if avg_target_size =? 0 then None
    else
      let estimated_file_count := usable_space / avg_target_size in
      let file_count :=
        Z.max (min_file_count settings)
              (Z.min estimated_file_count (max_file_count settings)) in
      let avg_file_size :=
        if 0 <? file_count then
          Z.max (min_file_size settings)
                (Z.min (usable_space / file_count) (max_file_size settings))
        else min_file_size settings in
      Some (file_count, avg_file_size).

Definition en_names : list string :=
  ["document"; "report"; "data"; "file"; "backup"; "archive"; "temp"].

Definition base_names : dict (list string) :=
  [("en", en_names);
   ("es", ["documento"; "informe"; "datos"; "archivo"; "respaldo"; "temporal"]);
   ("fr", ["document"; "rapport"; "donnees"; "fichier"; "sauvegarde"; "temporaire"]);
   ("de", ["dokument"; "bericht"; "daten"; "datei"; "sicherung"; "temporaer"]);
   ("cn", ["wenjian"; "baogao"; "shuju"; "beifen"; "linshi"]);
   ("jp", ["bunso"; "hokoku"; "deeta"; "bakkuappu"; "ichiji"]);
   ("ru", ["dokument"; "otchet"; "dannye"; "fajl"; "rezerv"; "vremennyj"])].

Definition suffixes : list string :=
  [""; "_copy"; "_backup"; "_final"; "_draft"; "_v2"; "_old"].

(** [_generate_filename]; the index is not used. *)
Definition _generate_filename (file_type language : string) (index : Z)
  : M string :=
  base_name <- random_choice
                 (match dict_get base_names language with
                  | Some names => names
                  | None => en_names
                  end) ;;
  suffix <- random_choice suffixes ;;
  x <- random_permille ;;
  base_name <-
    (if (x <? 300)%nat then
       timestamp <- randint_Z 20200101 20241231 ;;
       ret (base_name ++ "_" ++ str_of_Z timestamp)
     else ret base_name) ;;
  ret (base_name ++ suffix ++ "." ++ file_type).

(** The size of the file at index [i], with [total_allocated_size] given
    out so far. *)
Definition file_size_at (settings : ChaffSettings) (file_count : Z)
  (target_total_size : option Z) (i total_allocated_size : Z) : M Z :=
  let normal :=
    randint_Z (min_file_size settings) (max_file_size settings) in
  match target_total_size with
  | Some target =>
      if fill_drive settings && negb (target =? 0) then
        let remaining_files := file_count - i in
        let remaining_space := target - total_allocated_size in
        if 1 <? remaining_files then
          let max_for_this_file :=
            Z.min (max_file_size settings)
                  (remaining_space - (remaining_files - 1) * min_file_size settings) in
          let min_for_this_file :=
            Z.max (min_file_size settings)
                  (remaining_space - (remaining_files - 1) * max_file_size settings) in
          if min_for_this_file <=? max_for_this_file
          then randint_Z min_for_this_file max_for_this_file
          else ret (min_file_size settings)
        else
          ret (Z.max (min_file_size settings)
                     (Z.min remaining_space (max_file_size settings)))
      else normal
  | None => normal
  end.

(** One turn of the planning loop, on the pair of [plans] and
    [total_allocated_size]. *)
Definition plan_one (settings : ChaffSettings) (file_count : Z)
  (target_total_size : option Z) (i : Z)
  (state : list FileGenerationPlan * Z) : M (list FileGenerationPlan * Z) :=
  let '(plans, total_allocated_size) := state in
  file_type <- random_choice (chaff_file_types settings) ;;
  language <- random_choice (include_languages settings) ;;
  file_size <- file_size_at settings file_count target_total_size
                            i total_allocated_size ;;
  filename <- _generate_filename file_type language i ;;
  ret ((plans ++ [{| file_type := file_type;
                     size_bytes := file_size;
                     language := language;
                     filename := filename |}])%list,
       total_allocated_size + file_size).

Definition plan_files (settings : ChaffSettings) (file_count avg_size : Z)
  : M (list FileGenerationPlan) :=
  let target_total_size :=
    if fill_drive settings then Some (file_count * avg_size) else None in
  state <- for_each (range file_count)
                    (plan_one settings file_count target_total_size) ([], 0) ;;
  ret (fst state).

(** [generate_file_plan]. *)
Definition generate_file_plan (settings : ChaffSettings) (available_space : Z)
  : Rng -> planned (list FileGenerationPlan) :=
  if fill_drive settings then
    match calculate_fill_drive_parameters settings available_space with
    | None => fun _ => Failed ZeroDivisionError
    | Some (file_count, avg_size) =>
        if file_count =? 0 then fun r => Planned [] r
        else lift (plan_files settings file_count avg_size)
    end
  else
    lift (file_count <- randint_Z (min_file_count settings)
                                  (max_file_count settings) ;;
          let avg_size :=
            (min_file_size settings + max_file_size settings) / 2 in
          plan_files settings file_count avg_size).

(** [sum(plan.size_bytes for plan in plans)]. *)
Definition total_size (plans : list FileGenerationPlan) : Z :=
  fold_right Z.add 0 (map size_bytes plans).

(** What every plan of a run satisfies: a type and language of the
    settings, and a size between the two limits. *)
Definition within_settings (settings : ChaffSettings) (p : FileGenerationPlan)
  : Prop :=
  In (file_type p) (chaff_file_types settings) /\
  In (language p) (include_languages settings) /\
  min_file_size settings <= size_bytes p <= max_file_size settings.

(** The shape of a generated name. *)
Definition planned_name (file_type language name : string) : Prop :=
  exists base_name stamp suffix,
    name = (base_name ++ stamp ++ suffix ++ "." ++ file_type)%string /\
    In base_name (match dict_get base_names language with
                  | Some names => names
                  | None => en_names
                  end) /\
    In suffix suffixes /\
    (stamp = EmptyString \/
     exists timestamp, 20200101 <= timestamp <= 20241231 /\
                       stamp = ("_" ++ str_of_Z timestamp)%string).

Definition well_planned (settings : ChaffSettings) (p : FileGenerationPlan)
  : Prop :=
  within_settings settings p /\
  planned_name (file_type p) (language p) (filename p).

(** Settings for a run: 40 to 60 bytes a file. *)
Definition sample_settings (fill : bool) : ChaffSettings :=
  {| fill_drive := fill;
     min_file_size := 40;
     max_file_size := 60;
     minimum_remaining_disk_space := 100;
     min_file_count := 2;
     max_file_count := 5;
     chaff_file_types := ["txt"; "csv"];
     include_languages := ["en"; "de"] |}.

End Planner.

(** ** Written names ([src/main.py]) and the decoder utility
    ([src/tests/decode_chaff.py])

    The utility's file accesses are made explicit: the content read is an
    argument, the content written is the result, and the attempt to open a
    file as a zip archive is the flag [opens_as_zip]. *)

(** [get_actual_filename]: a file is written under its plan's name. *)
Definition get_actual_filename (encoded_file : EncodedFile) : string :=
  filename (original_plan encoded_file).

Definition detect_encoding_method (name : string) (opens_as_zip : bool)
  : option string :=
  if Py.endswith name ".b64" then Some "base64"
  else if Py.endswith name ".enc" then Some "encrypted_fernet"
  else if Py.endswith name ".zip" then Some "zip"
  else if Py.endswith name ".dat" then Some "unknown"
  else if opens_as_zip then Some "zip"
  else None.

Definition encoding_extensions : list string := [".b64"; ".enc"; ".zip"; ".dat"].

(** The loop of [get_original_filename]: the first ending that matches is
    cut off. *)
Fixpoint strip_first (extensions : list string) (encoded_filename : string)
  : string :=
  match extensions with
  | [] => encoded_filename
  | ext :: rest =>
      if Py.endswith encoded_filename ext
      then String.substring 0 (String.length encoded_filename - String.length ext)
                            encoded_filename
      else strip_first rest encoded_filename
  end.

Definition get_original_filename (encoded_filename : string) : string :=
  strip_first encoding_extensions encoded_filename.

(** [decode_base64_file] on the content read; [None] when both attempts
    fail and nothing is written. *)
Definition decode_base64_file (encoded_content : bytes) : option bytes :=
  let encoded_content :=
    if existsb (Byte.eqb Base64.NL) encoded_content
    then filter (fun c => negb (Byte.eqb c Base64.NL)) encoded_content
    else encoded_content in
  match Base64.b64decode encoded_content with
  | Some decoded_content => Some decoded_content
  | None => Base64.urlsafe_b64decode encoded_content
  end.


(** ** What the encoding step leaves in a record *)

(** The record the encoding loop builds for a plan: the method the selector
    returned for the plan's type, the content the template generated for the
    plan, encoded by that method without a supplied password, and the
    credentials the encoder reported. *)
Definition freshly_encoded (ext : Externals) (f : EncodedFile) : Prop :=
  let plan := original_plan f in
  exists image_refs attachment_refs original_content md q0 q1 q2 q3 q4,
    _choose_encoding_method (file_type plan) q0 = Ok (encoding_method f) q1 /\
    template_generate ext (Py.lower (file_type plan)) (language plan)
                      image_refs attachment_refs
                      (size_bytes plan) (filename plan) q2
    = Ok original_content q3 /\
    encode_file ext original_content (encoding_method f) None q3
    = Ok (encoded_content f, md) q4 /\
    password f = dict_get md "password" /\
    key f = dict_get md "key" /\
    salt f = dict_get md "salt" /\
    references f = [].

(** The office plan set through the whole pipeline, run by a manager that
    already holds files. *)
Definition office_network (self : Manager) (tape : Rng)
  : list EncodedFile * Manager :=
  match create_file_network Reference.ext Reference.office_plans
          self tape with
  | Ok out _ => out
  | Raise _ => ([], new_manager)
  end.

(** ** The registry, file by file *)

(** What the registry holds under [name] once the files [files] are
    through the encoding loop: [self.passwords[plan.filename] =
    encoded_file.password] runs for every file with a non-empty password,
    so a later file of the same name replaces the entry of an earlier
    one. *)
Definition registered_password (name : string) (files : list EncodedFile)
  : option string :=
  fold_left (fun held encoded_file =>
               if String.eqb (filename (original_plan encoded_file)) name
                  && truthy (password encoded_file)
               then password encoded_file
               else held)
            files None.

(** Two plans of one name, as the planner may hand them over. *)
Definition same_name_twice : list FileGenerationPlan :=
  [Reference.plan "txt" "a.txt"; Reference.plan "txt" "a.txt"].

(** * Properties *)

Local Open Scope list_scope.
Local Open Scope nat_scope.

(** ** Exhaustive checks over bytes *)

Lemma all_bytes_complete : forall b : byte, In b all_bytes.
Proof.
  intro b.
  assert (H : existsb (Byte.eqb b) all_bytes = true)
    by (destruct b; vm_compute; reflexivity).
  apply existsb_exists in H. destruct H as [c [Hin Heq]].
  apply Byte.byte_dec_bl in Heq. now subst.
Qed.

Lemma forall_byte (P : byte -> bool) :
  forallb P all_bytes = true -> forall a, P a = true.
Proof.
  intros H a. rewrite forallb_forall in H. apply H, all_bytes_complete.
Qed.

Lemma forall_byte2 (P : byte -> byte -> bool) :
  forallb (fun a => forallb (P a) all_bytes) all_bytes = true ->
  forall a b, P a b = true.
Proof.
  intros H a b.
  apply (forall_byte (P a)).
  apply (forall_byte (fun a => forallb (P a) all_bytes) H).
Qed.

(** ** Lists three elements at a time *)

Lemma list_ind3 {A} (P : list A -> Prop) :
  P [] -> (forall a, P [a]) -> (forall a b, P [a; b]) ->
  (forall a b c rest, P rest -> P (a :: b :: c :: rest)) ->
  forall l, P l.
Proof.
  intros H0 H1 H2 H3.
  assert (H : forall l, P l /\ (forall a, P (a :: l)) /\ (forall a b, P (a :: b :: l))).
  { induction l as [| x l [IH0 [IH1 IH2]]].
    - repeat split; auto.
    - repeat split; auto. }
  intro l. apply H.
Qed.

Lemma firstn_plus {A} (a b : nat) (l : list A) :
  firstn (a + b) l = (firstn a l ++ firstn b (skipn a l))%list.
Proof.
  revert l. induction a as [| a IH]; intro l; simpl.
  - reflexivity.
  - destruct l as [| x l]; simpl.
    + now rewrite firstn_nil.
    + now rewrite IH.
Qed.

(** ** The selector's hard rules *)

(** C3. For a descriptor of kind pdf, jpg, png or eml the encoding selector
    returns [NONE] on every call, whatever the random source holds, and
    draws nothing from it. *)
Theorem hard_rule_kinds_resolve_to_none :
  forall r : Rng,
    _choose_encoding_method "pdf" r = Ok NONE r /\
    _choose_encoding_method "jpg" r = Ok NONE r /\
    _choose_encoding_method "png" r = Ok NONE r /\
    _choose_encoding_method "eml" r = Ok NONE r.
Proof.
  intro r. repeat split; reflexivity.
Qed.
(** ** base64 round trips *)

Module Base64Facts.
Import Base64.

Lemma table_roundtrip (i : N) :
  (i < 64)%N ->
  table_a2b (table_b2a i) = Some i /\ Byte.eqb (table_b2a i) PAD = false.
Proof.
  intro Hi.
  assert (H : forallb (fun k =>
              match table_a2b (table_b2a (N.of_nat k)) with
              | Some j => N.eqb j (N.of_nat k)
              | None => false
              end && negb (Byte.eqb (table_b2a (N.of_nat k)) PAD))
            (seq 0 64) = true) by (vm_compute; reflexivity).
  rewrite forallb_forall in H.
  specialize (H (N.to_nat i)).
  rewrite N2Nat.id in H.
  assert (Hin : In (N.to_nat i) (seq 0 64)) by (apply in_seq; lia).
  apply H in Hin. apply andb_true_iff in Hin. destruct Hin as [Ha Hb].
  split.
  - destruct (table_a2b (table_b2a i)) as [j |]; [| discriminate].
    apply N.eqb_eq in Ha. now subst.
  - now apply negb_true_iff in Hb.
Qed.

Lemma table_b2a_in (i : N) : In (table_b2a i) (PAD :: alphabet).
Proof.
  unfold table_b2a.
  destruct (Nat.lt_ge_cases (N.to_nat i) (List.length alphabet)) as [H | H].
  - right. now apply nth_In.
  - left. symmetry. now apply nth_overflow.
Qed.

Lemma idx_bounds (a b : byte) :
  (idx0 a < 64 /\ idx1 a b < 64 /\ idx2 a b < 64 /\ idx3 a < 64)%N.
Proof.
  assert (H := forall_byte2
    (fun a b => (idx0 a <? 64)%N && (idx1 a b <? 64)%N
                && (idx2 a b <? 64)%N && (idx3 a <? 64)%N)).
  specialize (H ltac:(vm_compute; reflexivity) a b). cbv beta in H.
  repeat (apply andb_true_iff in H; destruct H as [H ?]).
  repeat split; now apply N.ltb_lt.
Qed.

(** What the decoder rebuilds from the four indices of a group. *)
Lemma first_byte (a b : byte) :
  byte_of_N (N.lor (N.shiftl (idx0 a) 2) (N.shiftr (idx1 a b) 4)) = a
  /\ N.land (idx1 a b) 15 = N.shiftr (Byte.to_N b) 4.
Proof.
  assert (H := forall_byte2
    (fun a b =>
       Byte.eqb (byte_of_N (N.lor (N.shiftl (idx0 a) 2) (N.shiftr (idx1 a b) 4))) a
       && N.eqb (N.land (idx1 a b) 15) (N.shiftr (Byte.to_N b) 4))).
  specialize (H ltac:(vm_compute; reflexivity) a b). cbv beta in H.
  apply andb_true_iff in H. destruct H as [H1 H2].
  split; [now apply Byte.byte_dec_bl | now apply N.eqb_eq].
Qed.

Lemma second_byte (b c : byte) :
  byte_of_N (N.lor (N.shiftl (N.shiftr (Byte.to_N b) 4) 4)
                   (N.shiftr (idx2 b c) 2)) = b
  /\ N.land (idx2 b c) 3 = N.shiftr (Byte.to_N c) 6.
Proof.
  assert (H := forall_byte2
    (fun b c =>
       Byte.eqb (byte_of_N (N.lor (N.shiftl (N.shiftr (Byte.to_N b) 4) 4)
                                  (N.shiftr (idx2 b c) 2))) b
       && N.eqb (N.land (idx2 b c) 3) (N.shiftr (Byte.to_N c) 6))).
  specialize (H ltac:(vm_compute; reflexivity) b c). cbv beta in H.
  apply andb_true_iff in H. destruct H as [H1 H2].
  split; [now apply Byte.byte_dec_bl | now apply N.eqb_eq].
Qed.

Lemma third_byte (c : byte) :
  byte_of_N (N.lor (N.shiftl (N.shiftr (Byte.to_N c) 6) 6) (idx3 c)) = c.
Proof.
  assert (H := forall_byte
    (fun c => Byte.eqb (byte_of_N (N.lor (N.shiftl (N.shiftr (Byte.to_N c) 6) 6)
                                         (idx3 c))) c)).
  specialize (H ltac:(vm_compute; reflexivity) c).
  now apply Byte.byte_dec_bl.
Qed.

(** One step of the decoding loop. *)
Lemma a2b_loop_cons (ch : byte) (rest : bytes) (q : nat) (l : N) (p : nat) :
  a2b_loop (ch :: rest) q l p =
  if Byte.eqb ch PAD then
    if (2 <=? q)%nat then
      if (4 <=? q + S p)%nat then Some []
      else a2b_loop rest q l (S p)
    else a2b_loop rest q l p
  else
    match table_a2b ch with
    | None => a2b_loop rest q l p
    | Some v =>
        match q with
        | 0 => a2b_loop rest 1 v 0
        | 1 => option_map
                 (cons (byte_of_N (N.lor (N.shiftl l 2) (N.shiftr v 4))))
                 (a2b_loop rest 2 (N.land v 15) 0)
        | 2 => option_map
                 (cons (byte_of_N (N.lor (N.shiftl l 4) (N.shiftr v 2))))
                 (a2b_loop rest 3 (N.land v 3) 0)
        | _ => option_map
                 (cons (byte_of_N (N.lor (N.shiftl l 6) v)))
                 (a2b_loop rest 0 0%N 0)
        end
    end.
Proof. reflexivity. Qed.

Lemma a2b_loop_char (i : N) (rest : bytes) (q : nat) (l : N) (p : nat) :
  (i < 64)%N ->
  a2b_loop (table_b2a i :: rest) q l p =
  match q with
  | 0 => a2b_loop rest 1 i 0
  | 1 => option_map
           (cons (byte_of_N (N.lor (N.shiftl l 2) (N.shiftr i 4))))
           (a2b_loop rest 2 (N.land i 15) 0)
  | 2 => option_map
           (cons (byte_of_N (N.lor (N.shiftl l 4) (N.shiftr i 2))))
           (a2b_loop rest 3 (N.land i 3) 0)
  | _ => option_map
           (cons (byte_of_N (N.lor (N.shiftl l 6) i)))
           (a2b_loop rest 0 0%N 0)
  end.
Proof.
  intro Hi. destruct (table_roundtrip i Hi) as [Ht Hp].
  rewrite a2b_loop_cons, Hp, Ht. reflexivity.
Qed.

Lemma a2b_loop_pad (rest : bytes) (q : nat) (l : N) (p : nat) :
  a2b_loop (PAD :: rest) q l p =
  if (2 <=? q)%nat then
    if (4 <=? q + S p)%nat then Some [] else a2b_loop rest q l (S p)
  else a2b_loop rest q l p.
Proof. rewrite a2b_loop_cons. reflexivity. Qed.

Lemma a2b_loop_encode (content : bytes) :
  forall l p, a2b_loop (b64encode content) 0 l p = Some content.
Proof.
  induction content as [| a | a b | a b c rest IH] using list_ind3; intros l p.
  - reflexivity.
  - cbn [b64encode].
    destruct (idx_bounds a x00) as [H0 [H1 _]].
    rewrite (a2b_loop_char _ _ _ _ _ H0), (a2b_loop_char _ _ _ _ _ H1).
    rewrite !a2b_loop_pad. cbn [Nat.leb Nat.add option_map].
    now rewrite (proj1 (first_byte a x00)).
  - cbn [b64encode].
    destruct (idx_bounds a b) as [H0 [H1 _]].
    destruct (idx_bounds b x00) as [_ [_ [H2 _]]].
    rewrite (a2b_loop_char _ _ _ _ _ H0), (a2b_loop_char _ _ _ _ _ H1),
      (a2b_loop_char _ _ _ _ _ H2).
    rewrite a2b_loop_pad. cbn [Nat.leb Nat.add option_map].
    destruct (first_byte a b) as [E1 E2]. rewrite E1, E2.
    now rewrite (proj1 (second_byte b x00)).
  - cbn [b64encode].
    destruct (idx_bounds a b) as [H0 [H1 _]].
    destruct (idx_bounds b c) as [_ [_ [H2 _]]].
    destruct (idx_bounds c c) as [_ [_ [_ H3]]].
    rewrite (a2b_loop_char _ _ _ _ _ H0), (a2b_loop_char _ _ _ _ _ H1),
      (a2b_loop_char _ _ _ _ _ H2), (a2b_loop_char _ _ _ _ _ H3).
    rewrite IH. cbn [option_map].
    destruct (first_byte a b) as [E1 E2]. rewrite E1, E2.
    destruct (second_byte b c) as [E3 E4]. rewrite E3, E4.
    now rewrite third_byte.
Qed.

Lemma b64decode_b64encode (content : bytes) :
  b64decode (b64encode content) = Some content.
Proof. apply a2b_loop_encode. Qed.


(** Decoding is insensitive to line breaks. *)
Lemma same_decoding_cons (c : byte) (s1 s2 : bytes) :
  same_decoding s1 s2 -> same_decoding (c :: s1) (c :: s2).
Proof.
  intros H q l p. rewrite !a2b_loop_cons.
  destruct (Byte.eqb c PAD).
  - destruct (2 <=? q)%nat; [destruct (4 <=? q + S p)%nat |]; now rewrite ?H.
  - destruct (table_a2b c) as [v |]; [| apply H].
    destruct q as [| [| [| q]]]; now rewrite H.
Qed.

Lemma same_decoding_app (x s1 s2 : bytes) :
  same_decoding s1 s2 -> same_decoding (x ++ s1) (x ++ s2).
Proof.
  intro H. induction x as [| c x IH]; [exact H |].
  cbn [app]. now apply same_decoding_cons.
Qed.

Lemma same_decoding_newline (s : bytes) : same_decoding (NL :: s) s.
Proof. intros q l p. reflexivity. Qed.

Lemma same_decoding_join (lines : list bytes) :
  same_decoding (join_bytes [NL] lines) (List.concat lines).
Proof.
  induction lines as [| x rest IH].
  - intros q l p. reflexivity.
  - destruct rest as [| y rest].
    + cbn [join_bytes List.concat]. rewrite app_nil_r. intros q l p. reflexivity.
    + change (join_bytes [NL] (x :: y :: rest))
        with (x ++ NL :: join_bytes [NL] (y :: rest))%list.
      change (List.concat (x :: y :: rest))
        with (x ++ List.concat (y :: rest))%list.
      apply same_decoding_app.
      intros q l p. rewrite same_decoding_newline. apply IH.
Qed.

(** Re-wrapping at a fixed width cuts the text into consecutive pieces. *)
Lemma wrapped_prefix {A} (l : list A) (w m : nat) :
  List.concat (map (fun i => slice l i (i + w)) (map (fun k => k * w) (seq 0 m)))
  = firstn (m * w) l.
Proof.
  induction m as [| m IH].
  - reflexivity.
  - rewrite seq_S, !map_app, concat_app, IH. cbn [map List.concat Nat.add].
    rewrite app_nil_r. unfold slice.
    replace (m * w + w - m * w) with w by lia.
    replace (S m * w) with (m * w + w) by lia.
    now rewrite firstn_plus.
Qed.

Lemma wrapped_concat {A} (l : list A) :
  List.concat (map (fun i => slice l i (i + 64)) (range_step (List.length l) 64))
  = l.
Proof.
  unfold range_step. rewrite wrapped_prefix. apply firstn_all2.
  pose proof (Nat.div_mod_eq (List.length l + 64 - 1) 64).
  pose proof (Nat.mod_upper_bound (List.length l + 64 - 1) 64).
  lia.
Qed.

Lemma wrapped_width {A} (l : list A) :
  Forall (fun line => List.length line <= 64)
         (map (fun i => slice l i (i + 64)) (range_step (List.length l) 64)).
Proof.
  apply Forall_forall. intros line Hin. apply in_map_iff in Hin.
  destruct Hin as [i [<- _]]. unfold slice.
  rewrite length_firstn. lia.
Qed.

(** The url-safe alphabet is a renaming of two characters. *)
Lemma b64encode_chars (content : bytes) :
  Forall (fun c => In c (PAD :: alphabet)) (b64encode content).
Proof.
  induction content as [| a | a b | a b c rest IH] using list_ind3;
    cbn [b64encode];
    repeat (apply Forall_cons; [first [apply table_b2a_in | now left] |]);
    first [apply Forall_nil | assumption].
Qed.

Lemma translation_inverse (c : byte) :
  In c (PAD :: alphabet) ->
  urlsafe_decode_translation (urlsafe_encode_translation c) = c.
Proof.
  intro Hin.
  assert (H : forallb (fun c =>
              Byte.eqb (urlsafe_decode_translation (urlsafe_encode_translation c)) c)
            (PAD :: alphabet) = true) by (vm_compute; reflexivity).
  rewrite forallb_forall in H. now apply Byte.byte_dec_bl, H.
Qed.

Lemma urlsafe_b64decode_b64encode (content : bytes) :
  urlsafe_b64decode (urlsafe_b64encode content) = Some content.
Proof.
  unfold urlsafe_b64decode, urlsafe_b64encode.
  rewrite map_map.
  rewrite (map_ext_in _ (fun c => c)).
  - rewrite map_id. apply b64decode_b64encode.
  - intros c Hin. apply translation_inverse.
    pose proof (b64encode_chars content) as Hall.
    rewrite Forall_forall in Hall. now apply Hall.
Qed.

End Base64Facts.

(** C6. Decoding the output of the base64, base64-multiline or
    base64-urlsafe encoding with the matching standard decoder gives the
    original bytes back; the multiline output is the standard base64 text
    cut into consecutive lines of at most 64 characters joined by newlines.
    None of the three reads the random source or the password. *)
Theorem base64_variants_round_trip :
  forall (ext : Externals) (content : bytes) (supplied : option string) (r : Rng),
    (exists encoded md,
        encode_file ext content BASE64 supplied r = Ok (encoded, md) r /\
        Base64.b64decode encoded = Some content) /\
    (exists encoded md lines,
        encode_file ext content BASE64_MULTILINE supplied r = Ok (encoded, md) r /\
        Base64.b64decode encoded = Some content /\
        encoded = join_bytes [Base64.NL] lines /\
        List.concat lines = Base64.b64encode content /\
        Forall (fun line => List.length line <= 64) lines) /\
    (exists encoded md,
        encode_file ext content BASE64_URL_SAFE supplied r = Ok (encoded, md) r /\
        Base64.urlsafe_b64decode encoded = Some content).
Proof.
  intros ext content supplied r. split; [| split].
  - eexists. eexists. split; [reflexivity |].
    apply Base64Facts.b64decode_b64encode.
  - eexists. eexists. eexists. split; [reflexivity |].
    split; [| split; [reflexivity | split]].
    + unfold Base64.b64decode. rewrite Base64Facts.same_decoding_join.
      rewrite Base64Facts.wrapped_concat. apply Base64Facts.b64decode_b64encode.
    + apply Base64Facts.wrapped_concat.
    + apply Base64Facts.wrapped_width.
  - eexists. eexists. split; [reflexivity |].
    apply Base64Facts.urlsafe_b64decode_b64encode.
Qed.

(** ** The monad and the random primitives *)

Lemma bind_ok {A B} (c : M A) (k : A -> M B) {r r' : Rng} {a : A} :
  c r = Ok a r' -> bind c k r = k a r'.
Proof. intro H. unfold bind. now rewrite H. Qed.

Lemma bind_inv {A B} (c : M A) (k : A -> M B) (r r'' : Rng) (b : B) :
  bind c k r = Ok b r'' -> exists a r', c r = Ok a r' /\ k a r' = Ok b r''.
Proof.
  unfold bind. destruct (c r) as [a r' | e]; [| discriminate].
  intro H. now exists a, r'.
Qed.

Lemma ret_inv {A} (a b : A) (r r' : Rng) : ret a r = Ok b r' -> a = b /\ r = r'.
Proof. unfold ret. intro H. now inversion H. Qed.

Lemma draw_total (r : Rng) : exists x r', draw r = Ok x r'.
Proof. destruct r as [| n t]; simpl; eauto. Qed.

Lemma randbelow_spec (n : nat) (r : Rng) :
  exists x r', randbelow n r = Ok (x mod n) r'.
Proof.
  unfold randbelow. destruct (draw_total r) as [x [r' H]].
  exists x, r'. now rewrite (bind_ok _ _ H).
Qed.

Lemma random_choice_total {A} (l : list A) (r : Rng) :
  l <> [] -> exists a r', random_choice l r = Ok a r' /\ In a l.
Proof.
  destruct l as [| d l]; [congruence | intros _].
  unfold random_choice.
  destruct (randbelow_spec (List.length (d :: l)) r) as [x [r' H]].
  rewrite (bind_ok _ _ H). eexists. eexists. split; [reflexivity |].
  apply nth_In. apply Nat.mod_upper_bound. discriminate.
Qed.

Lemma random_choice_inv {A} (l : list A) (r r' : Rng) (a : A) :
  random_choice l r = Ok a r' -> In a l.
Proof.
  destruct l as [| d l]; [discriminate |].
  intro H. destruct (@random_choice_total A (d :: l) r ltac:(discriminate))
    as [a' [r'' [H' Hin]]].
  rewrite H in H'. now inversion H'; subst.
Qed.

Lemma randint_total (a b : nat) (r : Rng) :
  a <= b -> exists k r', randint a b r = Ok k r' /\ a <= k <= b.
Proof.
  intro Hab. unfold randint.
  destruct (Nat.ltb_spec b a) as [Hlt | _]; [lia |].
  destruct (randbelow_spec (b - a + 1) r) as [x [r' H]].
  rewrite (bind_ok _ _ H). eexists. eexists. split; [reflexivity |].
  pose proof (Nat.mod_upper_bound x (b - a + 1)). lia.
Qed.

Lemma randint_inv (a b : nat) (r r' : Rng) (k : nat) :
  randint a b r = Ok k r' -> a <= k <= b.
Proof.
  unfold randint. destruct (Nat.ltb_spec b a) as [Hlt | Hle]; [discriminate |].
  intro H. destruct (randint_total a b r Hle) as [k' [r'' [H' Hk]]].
  unfold randint in H'. destruct (Nat.ltb_spec b a); [lia |].
  rewrite H in H'. now inversion H'; subst.
Qed.

Lemma urandom_total (n : nat) (r : Rng) :
  exists bs r', urandom n r = Ok bs r' /\ List.length bs = n.
Proof.
  revert r. induction n as [| n IH]; intro r.
  - exists [], r. now split.
  - cbn [urandom]. destruct (draw_total r) as [x [r1 H1]].
    rewrite (bind_ok _ _ H1).
    destruct (IH r1) as [bs [r2 [H2 Hlen]]].
    rewrite (bind_ok _ _ H2).
    eexists. eexists. split; [reflexivity |]. simpl. now rewrite Hlen.
Qed.

Lemma firstn_padded (k : nat) :
  forall (t : Rng) (m : nat),
    k <= m -> firstn k (t ++ repeat 0 m) = firstn k (t ++ repeat 0 k).
Proof.
  induction k as [| k IH]; intros t m Hm; [reflexivity |].
  destruct t as [| y t].
  - destruct m as [| m]; [lia |]. cbn [app repeat firstn]. f_equal.
    apply (IH [] m). lia.
  - cbn [app firstn]. f_equal.
    rewrite (IH t m) by lia. symmetry. apply (IH t (S k)). lia.
Qed.

(** [os.urandom(n)] is the next [n] draws of the source. *)
Lemma urandom_drawn (n : nat) :
  forall r : Rng, urandom n r = Ok (drawn_bytes n r) (skipn n r).
Proof.
  induction n as [| n IH]; intro r; [reflexivity |].
  cbn [urandom]. destruct r as [| x t].
  - assert (Hd : draw [] = Ok 0 []) by reflexivity.
    rewrite (bind_ok _ _ Hd), (bind_ok _ _ (IH [])). unfold ret.
    rewrite skipn_nil. reflexivity.
  - assert (Hd : draw (x :: t) = Ok x t) by reflexivity.
    rewrite (bind_ok _ _ Hd), (bind_ok _ _ (IH t)). unfold ret, drawn_bytes.
    cbn [app firstn map skipn]. rewrite (firstn_padded n t (S n)) by lia.
    reflexivity.
Qed.

Lemma length_drawn_bytes (n : nat) (r : Rng) : List.length (drawn_bytes n r) = n.
Proof.
  unfold drawn_bytes. rewrite length_map, length_firstn, length_app, repeat_length.
  lia.
Qed.

(** Every byte string is what some source yields. *)
Lemma drawn_bytes_onto (salt : bytes) :
  drawn_bytes (List.length salt) (map (fun b => N.to_nat (Byte.to_N b)) salt) = salt.
Proof.
  unfold drawn_bytes.
  rewrite firstn_app, length_map, Nat.sub_diag. cbn [firstn].
  rewrite app_nil_r, firstn_all2 by (rewrite length_map; lia).
  rewrite map_map.
  rewrite <- (map_id salt) at 2. apply map_ext. intro b.
  rewrite N2Nat.id.
  apply Byte.byte_dec_bl.
  apply (forall_byte (fun b => Byte.eqb (byte_of_N (Byte.to_N b)) b)).
  vm_compute. reflexivity.
Qed.

(** ** Passwords are never empty *)

Lemma append_nonempty_r (s t : string) : t <> EmptyString -> (s ++ t)%string <> EmptyString.
Proof.
  intros Ht H. destruct s; simpl in H; [contradiction | discriminate].
Qed.

Lemma str_of_nat_aux_nonempty (fuel n : nat) (acc : string) :
  Py.str_of_nat_aux fuel n acc <> EmptyString.
Proof.
  revert n acc. induction fuel as [| f IH]; intros n acc; cbn [Py.str_of_nat_aux].
  - discriminate.
  - destruct (n / 10 =? 0)%nat; [discriminate | apply IH].
Qed.

Lemma str_of_nat_nonempty (n : nat) : Py.str_of_nat n <> EmptyString.
Proof. apply str_of_nat_aux_nonempty. Qed.

Lemma random_string_total (chars : list ascii) (n : nat) (r : Rng) :
  chars <> [] -> exists s r', random_string chars n r = Ok s r'.
Proof.
  intro Hne. revert r. induction n as [| n IH]; intro r.
  - exists EmptyString, r. reflexivity.
  - cbn [random_string].
    destruct (random_choice_total chars r Hne) as [c [r1 [H1 _]]].
    rewrite (bind_ok _ _ H1).
    destruct (IH r1) as [s [r2 H2]]. rewrite (bind_ok _ _ H2).
    eexists. eexists. reflexivity.
Qed.

Lemma random_string_nonempty (chars : list ascii) (n : nat) (r r' : Rng) (s : string) :
  random_string chars (S n) r = Ok s r' -> s <> EmptyString.
Proof.
  cbn [random_string]. intro H.
  apply bind_inv in H. destruct H as [c [r1 [_ H]]].
  apply bind_inv in H. destruct H as [rest [r2 [_ H]]].
  apply ret_inv in H. destruct H as [<- _]. discriminate.
Qed.

Section PasswordFacts.

Variable ext : Externals.

Lemma generate_password_nonempty (strength : string) (r r' : Rng) (p : string) :
  generate_password ext strength r = Ok p r' -> p <> EmptyString.
Proof.
  unfold generate_password.
  destruct (String.eqb strength "weak").
  - intro H. apply random_choice_inv in H.
    unfold weak_passwords in H. simpl in H.
    intuition (subst; discriminate).
  - destruct (String.eqb strength "medium").
    + intro H.
      do 8 (apply bind_inv in H; destruct H as [? [? [_ H]]]).
      apply random_choice_inv in H.
      destruct H as [<- | [<- | [<- | [<- | []]]]].
      * apply append_nonempty_r, append_nonempty_r. discriminate.
      * apply append_nonempty_r, str_of_nat_nonempty.
      * apply append_nonempty_r, str_of_nat_nonempty.
      * apply append_nonempty_r, str_of_nat_nonempty.
    + apply random_string_nonempty.
Qed.

Hypothesis sound : ExternalsSound ext.

Lemma generate_password_total (strength : string) (r : Rng) :
  exists p r', generate_password ext strength r = Ok p r'.
Proof.
  unfold generate_password.
  destruct (String.eqb strength "weak").
  - destruct (@random_choice_total _ weak_passwords r ltac:(discriminate))
      as [p [r' [H _]]]. eauto.
  - destruct (String.eqb strength "medium").
    + destruct (fake_total ext sound "word" r) as [w [r1 H1]].
      rewrite (bind_ok _ _ H1).
      destruct (randint_total 10 99 r1 ltac:(lia)) as [n0 [r2 [H2 _]]].
      rewrite (bind_ok _ _ H2).
      destruct (fake_total ext sound "first_name" r2) as [f [r3 H3]].
      rewrite (bind_ok _ _ H3).
      destruct (randint_total 1980 2024 r3 ltac:(lia)) as [n1 [r4 [H4 _]]].
      rewrite (bind_ok _ _ H4).
      destruct (fake_total ext sound "company" r4) as [c [r5 H5]].
      rewrite (bind_ok _ _ H5).
      destruct (randint_total 1 99 r5 ltac:(lia)) as [n2 [r6 [H6 _]]].
      rewrite (bind_ok _ _ H6).
      destruct (fake_total ext sound "city" r6) as [ci [r7 H7]].
      rewrite (bind_ok _ _ H7).
      destruct (randint_total 10 999 r7 ltac:(lia)) as [n3 [r8 [H8 _]]].
      rewrite (bind_ok _ _ H8).
      match goal with
      | |- exists p r', random_choice ?l r8 = _ =>
          destruct (@random_choice_total _ l r8 ltac:(discriminate))
            as [p [r' [H _]]]
      end.
      eauto.
    + apply random_string_total. discriminate.
Qed.

(** The password an encoding call ends up with: the caller's when it is
    non-empty, a generated one otherwise. *)
Lemma chosen_password_total (supplied : option string) (strength : string) (r : Rng) :
  exists p r',
    (if truthy supplied
     then ret (match supplied with Some p => p | None => EmptyString end)
     else generate_password ext strength) r = Ok p r'
    /\ p <> EmptyString
    /\ (truthy supplied = true -> supplied = Some p /\ r' = r).
Proof.
  destruct supplied as [[| c s] |]; cbn [truthy].
  - destruct (generate_password_total strength r) as [p [r' H]].
    exists p, r'. split; [exact H | split; [| discriminate]].
    eapply generate_password_nonempty; eauto.
  - exists (String c s), r. repeat split; discriminate.
  - destruct (generate_password_total strength r) as [p [r' H]].
    exists p, r'. split; [exact H | split; [| discriminate]].
    eapply generate_password_nonempty; eauto.
Qed.

End PasswordFacts.

(** ** The reference instance meets the library laws *)

Module ReferenceFacts.
Import Reference.

Lemma get_unary_unary (n : nat) (rest : bytes) :
  get_unary (unary n ++ rest) = Some (n, rest).
Proof.
  unfold unary. induction n as [| n IH]; cbn.
  - reflexivity.
  - cbn in IH. now rewrite IH.
Qed.

Lemma get_bytes_put_bytes (b rest : bytes) :
  get_bytes (put_bytes b ++ rest) = Some (b, rest).
Proof.
  unfold get_bytes, put_bytes. rewrite <- app_assoc, get_unary_unary.
  rewrite length_app.
  destruct (Nat.leb_spec (List.length b) (List.length b + List.length rest));
    [| lia].
  rewrite firstn_app, Nat.sub_diag, firstn_all, skipn_app, Nat.sub_diag, skipn_all.
  cbn. now rewrite app_nil_r.
Qed.

Lemma get_entries_put (entries : archive) :
  get_entries (List.length entries) (List.concat (map put_entry entries))
  = Some entries.
Proof.
  induction entries as [| [name data] entries IH].
  - reflexivity.
  - cbn [List.length map List.concat get_entries]. unfold put_entry at 1.
    cbn [fst snd]. rewrite <- app_assoc, get_bytes_put_bytes, get_bytes_put_bytes.
    rewrite IH. now rewrite string_of_list_byte_of_string.
Qed.

Lemma get_archive_put_archive (entries : archive) :
  get_archive (put_archive entries) = Some entries.
Proof.
  unfold get_archive, put_archive. rewrite get_unary_unary.
  apply get_entries_put.
Qed.

Lemma bytes_eqb_refl (b : bytes) : bytes_eqb b b = true.
Proof. unfold bytes_eqb. destruct (list_eq_dec Byte.byte_eq_dec b b); congruence. Qed.

Lemma sound : ExternalsSound ext.
Proof.
  constructor.
  - intros provider r. eexists. eexists. reflexivity.
  - intros n salt iterations material. cbn.
    rewrite length_firstn, !length_app, repeat_length. lia.
  - intros k data r _. exists (rev data), r. split; [reflexivity |].
    cbn. now rewrite rev_involutive.
  - intros c pwd entries r _. eexists. eexists. split; [reflexivity |].
    cbn [aes_zip_read ext]. rewrite get_bytes_put_bytes, bytes_eqb_refl.
    apply get_archive_put_archive.
Qed.

End ReferenceFacts.

(** ** The encoder *)

Section EncoderFacts.

Variable ext : Externals.
Hypothesis sound : ExternalsSound ext.

Lemma Fernet_derived_key (password : string) (salt_bytes : bytes) (r : Rng) :
  Fernet (derive_key ext password salt_bytes) r
  = Ok (pbkdf2_hmac_sha256 ext 32 salt_bytes 100000%N (encode_utf8 password)) r.
Proof.
  unfold Fernet, derive_key.
  rewrite Base64Facts.urlsafe_b64decode_b64encode.
  rewrite (pbkdf2_length ext sound). reflexivity.
Qed.

Lemma split_at_length_l {A} (l1 l2 : list A) :
  firstn (List.length l1) (l1 ++ l2) = l1.
Proof.
  rewrite firstn_app, Nat.sub_diag, firstn_all. cbn. apply app_nil_r.
Qed.

Lemma split_at_length_r {A} (l1 l2 : list A) :
  skipn (List.length l1) (l1 ++ l2) = l2.
Proof.
  rewrite skipn_app, Nat.sub_diag, skipn_all. reflexivity.
Qed.

Lemma encode_utf8_nonempty (s : string) : s <> EmptyString -> encode_utf8 s <> [].
Proof. destruct s; [congruence | discriminate]. Qed.

End EncoderFacts.

(** C4. Whatever the content and the random source, the symmetric-encrypted
    method returns a 16-byte salt followed by the Fernet token of the content
    under the key PBKDF2-HMAC-SHA256 (32 bytes, 100000 iterations, that salt)
    derives from the password, which is the caller's when it is non-empty and
    a generated one otherwise. The salt is random: it is the next sixteen
    draws of the random source once the password is settled, and with a
    supplied password every 16-byte string is the salt of some run. The
    metadata reports the password and the base64 text of the salt, and
    decrypting with the key derived again from the two, as the decoder
    utility does from the first 16 bytes, gives the content back. *)
Theorem symmetric_encryption_round_trip :
  forall (ext : Externals) (sound : ExternalsSound ext)
         (content : bytes) (supplied : option string) (r : Rng),
  (exists password salt_bytes token md r0 r1 r',
    encode_file ext content ENCRYPTED_FERNET supplied r
      = Ok (salt_bytes ++ token, md) r' /\
    (if truthy supplied
     then ret (match supplied with Some p => p | None => EmptyString end)
     else generate_password ext "medium") r = Ok password r0 /\
    salt_bytes = drawn_bytes 16 r0 /\
    r1 = skipn 16 r0 /\
    List.length salt_bytes = 16 /\
    (truthy supplied = true -> supplied = Some password) /\
    fernet_encrypt ext
      (pbkdf2_hmac_sha256 ext 32 salt_bytes 100000%N (encode_utf8 password))
      content r1 = Ok token r' /\
    dict_get md "password" = Some password /\
    (exists salt_text,
        dict_get md "salt" = Some salt_text /\
        Base64.b64decode (encode_utf8 salt_text) = Some salt_bytes) /\
    fernet_decrypt ext
      (pbkdf2_hmac_sha256 ext 32 salt_bytes 100000%N (encode_utf8 password))
      token = Some content /\
    decode_encrypted_file ext (salt_bytes ++ token) password = Some content) /\
  (forall salt : bytes,
      List.length salt = 16 -> truthy supplied = true ->
      exists tape token md r',
        encode_file ext content ENCRYPTED_FERNET supplied tape
        = Ok (salt ++ token, md) r').
Proof.
  intros ext sound content supplied r.
  assert (Hrun : forall tape,
            exists password token r0 r',
              (if truthy supplied
               then ret (match supplied with Some p => p | None => EmptyString end)
               else generate_password ext "medium") tape = Ok password r0 /\
              (truthy supplied = true -> supplied = Some password /\ r0 = tape) /\
              fernet_encrypt ext
                (pbkdf2_hmac_sha256 ext 32 (drawn_bytes 16 r0) 100000%N
                                    (encode_utf8 password))
                content (skipn 16 r0) = Ok token r' /\
              fernet_decrypt ext
                (pbkdf2_hmac_sha256 ext 32 (drawn_bytes 16 r0) 100000%N
                                    (encode_utf8 password))
                token = Some content /\
              encode_file ext content ENCRYPTED_FERNET supplied tape
              = Ok (drawn_bytes 16 r0 ++ token,
                    [("encryption", "fernet"); ("password", password);
                     ("salt", string_of_list_byte
                                (Base64.b64encode (drawn_bytes 16 r0)))]%string)
                   r').
  { intro tape.
    destruct (chosen_password_total ext sound supplied "medium" tape)
      as [password [r0 [Hpw [_ Hsup]]]].
    destruct (fernet_roundtrip ext sound
                (pbkdf2_hmac_sha256 ext 32 (drawn_bytes 16 r0) 100000%N
                                    (encode_utf8 password))
                content (skipn 16 r0) (pbkdf2_length ext sound _ _ _ _))
      as [token [r' [Henc Hdec]]].
    exists password, token, r0, r'.
    split; [exact Hpw | split; [exact Hsup | split; [exact Henc |
      split; [exact Hdec |]]]].
    cbn [encode_file].
    rewrite (bind_ok _ _ Hpw), (bind_ok _ _ (urandom_drawn 16 r0)).
    rewrite (bind_ok _ _ (Fernet_derived_key ext sound password _ _)).
    rewrite (bind_ok _ _ Henc). reflexivity. }
  split.
  - destruct (Hrun r) as [password [token [r0 [r' [Hpw [Hsup [Henc [Hdec Hfile]]]]]]]].
    exists password, (drawn_bytes 16 r0), token.
    eexists. exists r0, (skipn 16 r0), r'.
    split; [exact Hfile |]. split; [exact Hpw |].
    split; [reflexivity |]. split; [reflexivity |].
    split; [apply length_drawn_bytes |].
    split; [intro Ht; apply (Hsup Ht) |].
    split; [exact Henc |]. split; [reflexivity |].
    split; [| split; [exact Hdec |]].
    + eexists. split; [reflexivity |].
      unfold encode_utf8. rewrite list_byte_of_string_of_list_byte.
      apply Base64Facts.b64decode_b64encode.
    + pose proof (length_drawn_bytes 16 r0) as Hlen.
      set (salt_bytes := drawn_bytes 16 r0) in *.
      unfold decode_encrypted_file.
      rewrite <- Hlen, split_at_length_l, split_at_length_r.
      rewrite (Fernet_derived_key ext sound). exact Hdec.
  - intros salt Hlen Ht.
    destruct (Hrun (map (fun b => N.to_nat (Byte.to_N b)) salt))
      as [password [token [r0 [r' [_ [Hsup [_ [_ Hfile]]]]]]]].
    destruct (Hsup Ht) as [_ ->].
    rewrite <- Hlen, drawn_bytes_onto in Hfile.
    eexists. eexists. eexists. eexists. exact Hfile.
Qed.

Lemma symmetric_encryption_round_trip_witness :
  (exists password salt_bytes token md r0 r1 r',
    encode_file Reference.ext (list_byte_of_string "quarterly figures")
                ENCRYPTED_FERNET (Some "Harbor42!"%string) [7; 300; 12]
      = Ok (salt_bytes ++ token, md) r' /\
    (if truthy (Some "Harbor42!"%string)
     then ret (match Some "Harbor42!"%string with
               | Some p => p
               | None => EmptyString
               end)
     else generate_password Reference.ext "medium") [7; 300; 12]
    = Ok password r0 /\
    salt_bytes = drawn_bytes 16 r0 /\
    r1 = skipn 16 r0 /\
    List.length salt_bytes = 16 /\
    (truthy (Some "Harbor42!"%string) = true ->
     Some "Harbor42!"%string = Some password) /\
    fernet_encrypt Reference.ext
      (pbkdf2_hmac_sha256 Reference.ext 32 salt_bytes 100000%N (encode_utf8 password))
      (list_byte_of_string "quarterly figures") r1 = Ok token r' /\
    dict_get md "password" = Some password /\
    (exists salt_text,
        dict_get md "salt" = Some salt_text /\
        Base64.b64decode (encode_utf8 salt_text) = Some salt_bytes) /\
    fernet_decrypt Reference.ext
      (pbkdf2_hmac_sha256 Reference.ext 32 salt_bytes 100000%N (encode_utf8 password))
      token = Some (list_byte_of_string "quarterly figures") /\
    decode_encrypted_file Reference.ext (salt_bytes ++ token) password
      = Some (list_byte_of_string "quarterly figures")) /\
  (forall salt : bytes,
      List.length salt = 16 -> truthy (Some "Harbor42!"%string) = true ->
      exists tape token md r',
        encode_file Reference.ext (list_byte_of_string "quarterly figures")
                    ENCRYPTED_FERNET (Some "Harbor42!"%string) tape
        = Ok (salt ++ token, md) r').
Proof.
  exact (symmetric_encryption_round_trip Reference.ext ReferenceFacts.sound
           (list_byte_of_string "quarterly figures") (Some "Harbor42!"%string)
           [7; 300; 12]).
Defined.

(** C5. The password-zip-multi method writes an archive that, opened with
    the reported password, holds for an input of more than 100 bytes the
    first [n / 2] bytes as its first entry, the remaining bytes as its second
    and the fixed decoy checksum as its third, the first two concatenating to
    the input; for an input of at most 100 bytes it holds the whole input as
    one entry followed by the checksum. *)
Theorem zip_multi_entries :
  forall (ext : Externals) (sound : ExternalsSound ext)
         (content : bytes) (supplied : option string) (r : Rng),
  exists password z md r',
    encode_file ext content ZIP_ENCRYPTED supplied r = Ok (z, md) r' /\
    dict_get md "password" = Some password /\
    let n := List.length content in
    (100 < n ->
       aes_zip_read ext (encode_utf8 password) z
       = Some [("document.dat", firstn (n / 2) content);
               ("metadata.txt", skipn (n / 2) content);
               ("checksum.md5", checksum_decoy)]
       /\ firstn (n / 2) content ++ skipn (n / 2) content = content) /\
    (n <= 100 ->
       aes_zip_read ext (encode_utf8 password) z
       = Some [("document.dat", content); ("checksum.md5", checksum_decoy)]).
Proof.
  intros ext sound content supplied r.
  destruct (chosen_password_total ext sound supplied "strong" r)
    as [password [r0 [Hpw [Hne _]]]].
  match goal with
  | |- context [encode_file _ _ ZIP_ENCRYPTED _ _] =>
      cbn [encode_file]; rewrite (bind_ok _ _ Hpw)
  end.
  match goal with
  | |- context [aes_zip_write ext ?c ?p ?es] =>
      destruct (aes_zip_roundtrip ext sound c p es r0
                  (encode_utf8_nonempty password Hne)) as [z [r' [Hw Hr]]];
      rewrite (bind_ok _ _ Hw)
  end.
  exists password, z. eexists. exists r'.
  split; [reflexivity | split; [reflexivity |]].
  cbv zeta. split.
  - intro Hn. apply Nat.ltb_lt in Hn. rewrite Hn in Hr.
    split; [exact Hr | apply firstn_skipn].
  - intro Hn. destruct (Nat.ltb_spec 100 (List.length content)) as [Hlt | _];
      [lia |]. exact Hr.
Qed.

Lemma zip_multi_entries_witness :
  exists password z md r',
    encode_file Reference.ext (repeat "a"%byte 102) ZIP_ENCRYPTED None [3; 5]
      = Ok (z, md) r' /\
    dict_get md "password" = Some password /\
    let n := List.length (repeat "a"%byte 102) in
    (100 < n ->
       aes_zip_read Reference.ext (encode_utf8 password) z
       = Some [("document.dat", firstn (n / 2) (repeat "a"%byte 102));
               ("metadata.txt", skipn (n / 2) (repeat "a"%byte 102));
               ("checksum.md5", checksum_decoy)]
       /\ firstn (n / 2) (repeat "a"%byte 102)
          ++ skipn (n / 2) (repeat "a"%byte 102) = repeat "a"%byte 102) /\
    (n <= 100 ->
       aes_zip_read Reference.ext (encode_utf8 password) z
       = Some [("document.dat", repeat "a"%byte 102);
               ("checksum.md5", checksum_decoy)]).
Proof.
  exact (zip_multi_entries Reference.ext ReferenceFacts.sound
           (repeat "a"%byte 102) None [3; 5]).
Defined.

(** ** Substrings *)

Lemma prefix_append (sub rest : string) : String.prefix sub (sub ++ rest)%string = true.
Proof.
  induction sub as [| c sub IH]; cbn.
  - now destruct rest.
  - destruct (ascii_dec c c); [exact IH | congruence].
Qed.

Lemma contains_here (sub rest : string) : Py.contains sub (sub ++ rest)%string = true.
Proof.
  destruct (sub ++ rest)%string eqn:E; cbn [Py.contains];
    rewrite <- E, prefix_append; reflexivity.
Qed.

Lemma contains_self (sub : string) : Py.contains sub sub = true.
Proof.
  assert (E : (sub ++ "")%string = sub).
  { induction sub as [| c sub IH]; cbn; [reflexivity | now rewrite IH]. }
  pose proof (contains_here sub EmptyString) as H.
  now rewrite E in H.
Qed.

Lemma contains_append_l (sub before s : string) :
  Py.contains sub s = true -> Py.contains sub (before ++ s)%string = true.
Proof.
  intro H. induction before as [| c before IH]; cbn [String.append].
  - exact H.
  - cbn [Py.contains]. rewrite IH. apply orb_true_r.
Qed.

Lemma string_append_assoc (a b c : string) :
  ((a ++ b) ++ c)%string = (a ++ b ++ c)%string.
Proof. induction a as [| x a IH]; cbn; [reflexivity | now rewrite IH]. Qed.

Ltac find_substring :=
  repeat first [ apply contains_self | apply contains_here | apply contains_append_l ].

(** ** The spreadsheet pass *)

(** C8 (the code departs from it). With at least one spreadsheet and a target
    pool of exactly one file the spreadsheet pass does not complete: it asks
    for [randint 2 1] and raises [ValueError], whatever the state and the
    random source. *)
Theorem spreadsheet_pass_raises_on_single_target :
  forall (sheet : FileGenerationPlan) (sheets : list FileGenerationPlan)
         (target : FileGenerationPlan) (self : Manager) (r : Rng),
    _create_spreadsheet_references (sheet :: sheets) [target] self r
    = Raise ValueError.
Proof.
  intros sheet sheets target self r.
  cbn [_create_spreadsheet_references for_each]. unfold bind.
  (* the pool has one file, so the range asked for is [2, min 4 1] = [2, 1] *)
  change (Nat.min 4 (List.length [target])) with 1.
  unfold randint. cbn [Nat.ltb Nat.leb]. reflexivity.
Qed.

(** The same input through the whole pipeline: one spreadsheet and one
    document. *)
Example pipeline_raises_on_one_sheet_one_document :
  create_file_network Reference.ext
    [Reference.plan "csv" "c.csv"; Reference.plan "txt" "a.txt"]
    new_manager [1; 2; 3]
  = Raise ValueError.
Proof. vm_compute. reflexivity. Qed.

(** An empty pool, by contrast, is absorbed. *)
Lemma spreadsheet_pass_empty_pool (sheets : list FileGenerationPlan)
  (self : Manager) (r : Rng) :
  _create_spreadsheet_references sheets [] self r = Ok self r.
Proof.
  induction sheets as [| sheet sheets IH]; [reflexivity |].
  cbn [_create_spreadsheet_references for_each] in *.
  unfold bind, ret in *. exact IH.
Qed.

(** ** Rewriting encoded content *)

(** C1 (the code departs from it). Two text files, the first encoded as
    base64 and the second as a password archive: after the pipeline the
    base64 file's content is its base64 text followed by the plain
    REFERENCED FILES section and a password hint, so it is no longer what
    the encoder produced, and no longer valid base64 of the original. *)
Theorem rewriting_changes_encoded_text :
  exists fs m r' f,
    create_file_network Reference.ext
      [Reference.plan "txt" "a.txt"; Reference.plan "txt" "b.txt"]
      new_manager [350; 960] = Ok (fs, m) r' /\
    nth_error fs 0 = Some f /\
    encoding_method f = BASE64 /\
    encoded_content f =
      Base64.b64encode (list_byte_of_string "txt body of a.txt")
      ++ encode_utf8
           (nl ++ nl ++ "REFERENCED FILES:" ++ nl
            ++ "- See related document: b.txt" ++ nl
            ++ "- Password for b.txt: Sampleword10!" ++ nl
            ++ "- Project Alpha file: b.txt" ++ nl
            ++ "\n\nNote: Archive password for b.txt: Sampleword10!\n")%string /\
    encoded_content f
      <> Base64.b64encode (list_byte_of_string "txt body of a.txt").
Proof.
  eexists. eexists. eexists. eexists.
  split; [vm_compute; reflexivity |].
  split; [reflexivity |].
  split; [reflexivity |].
  split; [vm_compute; reflexivity |].
  vm_compute. discriminate.
Qed.

(** The step responsible: a text file with outgoing references is decoded,
    extended and encoded again without a look at its encoding method. *)
Lemma update_document_ignores_method (self : Manager) (f : EncodedFile)
  (ref : FileReference) (refs : list FileReference) :
  is_type "txt" f = true ->
  references_from self (filename (original_plan f)) = ref :: refs ->
  encoded_content (update_document self f)
  = encode_utf8 (Py.decode_utf8_ignore (encoded_content f)
                 ++ referenced_files_section (ref :: refs))%string.
Proof.
  intros Ht Hr. unfold update_document.
  assert (Hk : of_type ["txt"; "docx"] (original_plan f) = true).
  { unfold of_type, is_type in *. cbn. now rewrite Ht. }
  rewrite Hk, Hr, Ht. reflexivity.
Qed.

(** ** Sampling stays inside the population *)

Lemma randbelow_inv (n i : nat) (r r' : Rng) :
  randbelow n r = Ok i r' -> n <> 0 -> i < n.
Proof.
  intros H Hn. destruct (randbelow_spec n r) as [x [r1 Hx]].
  assert (E : i = x mod n) by congruence.
  rewrite E. now apply Nat.mod_upper_bound.
Qed.

Lemma remove_at_incl {A} (i : nat) (l : list A) : incl (remove_at i l) l.
Proof.
  revert i. induction l as [| x l IH]; intros i y Hy.
  - destruct i; exact Hy.
  - destruct i as [| i]; cbn in Hy.
    + now right.
    + destruct Hy as [-> | Hy]; [now left | right; eapply IH; eauto].
Qed.

Lemma sample_loop_incl {A} (k : nat) :
  forall (pool out : list A) (r r' : Rng),
    sample_loop pool k r = Ok out r' -> incl out pool.
Proof.
  induction k as [| k IH]; intros pool out r r' H.
  - apply ret_inv in H. destruct H as [<- _]. intros y [].
  - cbn [sample_loop] in H. destruct pool as [| d pool]; [discriminate |].
    apply bind_inv in H. destruct H as [i [r1 [Hi H]]].
    apply bind_inv in H. destruct H as [rest [r2 [Hrest H]]].
    apply ret_inv in H. destruct H as [<- _].
    apply randbelow_inv in Hi; [| discriminate].
    intros y [<- | Hy].
    + now apply nth_In.
    + eapply remove_at_incl, IH; eauto.
Qed.

Lemma random_sample_incl {A} (pool out : list A) (k : nat) (r r' : Rng) :
  random_sample pool k r = Ok out r' -> incl out pool.
Proof.
  unfold random_sample. destruct (List.length pool <? k); [discriminate |].
  apply sample_loop_incl.
Qed.

Lemma firstn_incl {A} (n : nat) (l : list A) : incl (firstn n l) l.
Proof.
  intros x Hx. rewrite <- (firstn_skipn n l). apply in_or_app. now left.
Qed.

(** ** Loops *)

Lemma for_each_invariant {A S} (P : S -> Prop) (body : A -> S -> M S) (xs : list A) :
  (forall x s r s' r', In x xs -> P s -> body x s r = Ok s' r' -> P s') ->
  forall s r s' r', P s -> for_each xs body s r = Ok s' r' -> P s'.
Proof.
  induction xs as [| x xs IH]; intros Hbody s r s' r' Hs H.
  - apply ret_inv in H. destruct H as [<- _]. exact Hs.
  - cbn [for_each] in H. apply bind_inv in H. destruct H as [s1 [r1 [H1 H]]].
    eapply IH; [| | exact H].
    + intros y t rt t' rt' Hy. apply Hbody. now right.
    + eapply Hbody; [now left | exact Hs | exact H1].
Qed.

(** ** Password hints *)

Lemma hint_contains_password (protected_filename pw hint : string) :
  In hint (hint_formats protected_filename pw) ->
  Py.contains pw hint = true /\
  (hint <> ("Decryption key: " ++ pw)%string ->
   Py.contains protected_filename hint = true).
Proof.
  intros [<- | [<- | [<- | [<- | [<- | []]]]]]; split; intros;
    try congruence; find_substring.
Qed.

Lemma nth_error_update_at {A} (l : list A) (i j : nat) (x : A) :
  nth_error (update_at i x l) j
  = if (i =? j)%nat then (if (j <? List.length l)%nat then Some x else None)
    else nth_error l j.
Proof.
  revert i j. induction l as [| y l IH]; intros i j.
  - cbn. destruct (i =? j)%nat; destruct i, j; reflexivity.
  - destruct i as [| i], j as [| j]; cbn [update_at nth_error Nat.eqb]; try reflexivity.
    rewrite IH. cbn [List.length].
    destruct (i =? j)%nat; [| reflexivity].
    destruct (Nat.ltb_spec j (List.length l)), (Nat.ltb_spec (S j) (S (List.length l)));
      try reflexivity; lia.
Qed.

Lemma length_update_at {A} (l : list A) (i : nat) (x : A) :
  List.length (update_at i x l) = List.length l.
Proof.
  revert i. induction l as [| y l IH]; intro i; destruct i; cbn; auto.
Qed.

Lemma positions_from (P : nat * EncodedFile -> bool) (files : list EncodedFile) (start : nat) :
  let ps := map fst (filter P (combine (seq start (List.length files)) files)) in
  NoDup ps /\ forall j, In j ps -> start <= j.
Proof.
  revert start. induction files as [| f files IH]; intro start; cbn.
  - split; [constructor | intros j []].
  - destruct (IH (S start)) as [Hnd Hge]. cbn zeta in Hnd, Hge.
    destruct (P (start, f)); cbn.
    + split.
      * constructor; [| exact Hnd]. intro Hin. apply Hge in Hin. lia.
      * intros j [<- | Hin]; [lia | apply Hge in Hin; lia].
    + split; [exact Hnd | intros j Hin; apply Hge in Hin; lia].
Qed.

Lemma text_file_positions_NoDup (files : list EncodedFile) :
  NoDup (text_file_positions files).
Proof. apply (positions_from _ files 0). Qed.

Section Distributor.

Variable files0 : list EncodedFile.
Variable registry : dict string.
Let text_files := text_file_positions files0.
Let distributed := distributed files0 registry.

Lemma distributed_weaken (k : nat) (s : Manager) :
  distributed k s -> distributed (S k) s.
Proof.
  intros [Hlen H]. split; [exact Hlen |].
  intros j f f' Hf Hf'. destruct (H j f f' Hf Hf') as [-> | [[i [Hi Hj]] Hh]].
  - now left.
  - right. split; [exists i; split; [lia | exact Hj] | exact Hh].
Qed.

Lemma distribute_step_distributed (k : nat) (entry : string * string)
  (s s' : Manager) (r r' : Rng) :
  In entry registry ->
  distributed k s ->
  distribute_step text_files (k, entry) s r = Ok s' r' ->
  distributed (S k) s'.
Proof.
  intros Hentry Hinv H. destruct entry as [fn pw].
  unfold distribute_step in H.
  destruct (nth_error text_files k) as [j |] eqn:Ej.
  2: { apply ret_inv in H. destruct H as [<- _]. now apply distributed_weaken. }
  destruct (nth_error (encoded_files s) j) as [target |] eqn:Et.
  2: { apply ret_inv in H. destruct H as [<- _]. now apply distributed_weaken. }
  apply bind_inv in H. destruct H as [hint [r1 [Hhint H]]].
  apply random_choice_inv in Hhint.
  destruct (is_type "txt" target) eqn:Etxt.
  2: { apply ret_inv in H. destruct H as [<- _]. now apply distributed_weaken. }
  apply ret_inv in H. destruct H as [<- _].
  destruct Hinv as [Hlen Hinv].
  split; [cbn; now rewrite length_update_at |].
  intros j' f f' Hf Hf'. cbn [encoded_files set_encoded_files] in Hf'.
  rewrite nth_error_update_at in Hf'.
  destruct (Nat.eqb_spec j j') as [<- | Hne].
  - (* the carrier of this entry: untouched so far, because positions are
       distinct *)
    assert (Hlt : j < List.length (encoded_files s))
      by (apply nth_error_Some; congruence).
    apply Nat.ltb_lt in Hlt. rewrite Hlt in Hf'. inversion Hf'; subst f'; clear Hf'.
    assert (Htarget : target = f).
    { destruct (Hinv j f target Hf Et) as [-> | [[i [Hi Hj]] _]]; [reflexivity |].
      exfalso.
      pose proof (text_file_positions_NoDup files0) as Hnd.
      assert (i = k); [| lia].
      unfold text_files in Ej.
      eapply (proj1 (NoDup_nth_error _) Hnd).
      - apply nth_error_Some. congruence.
      - congruence. }
    subst target. right. split.
    + exists k. split; [lia | exact Ej].
    + split; [exact Etxt |].
      destruct (hint_contains_password fn pw hint Hhint) as [Hp Hn].
      exists fn, pw, hint. repeat split; assumption.
  - destruct (Hinv j' f f' Hf Hf') as [-> | [[i [Hi Hj]] Hh]].
    + now left.
    + right. split; [exists i; split; [lia | exact Hj] | exact Hh].
Qed.

Lemma distribute_loop_distributed (chosen : list (string * string)) :
  forall (k : nat) (s s' : Manager) (r r' : Rng),
    incl chosen registry ->
    distributed k s ->
    for_each (combine (seq k (List.length chosen)) chosen)
             (distribute_step text_files) s r = Ok s' r' ->
    distributed (k + List.length chosen) s'.
Proof.
  induction chosen as [| entry chosen IH]; intros k s s' r r' Hincl Hinv H.
  - apply ret_inv in H. destruct H as [<- _]. cbn. now rewrite Nat.add_0_r.
  - cbn [List.length seq combine for_each] in H.
    apply bind_inv in H. destruct H as [s1 [r1 [H1 H]]].
    replace (k + List.length (entry :: chosen)) with (S k + List.length chosen)
      by (cbn; lia).
    eapply IH; [| | exact H].
    + intros e He. apply Hincl. now right.
    + eapply distribute_step_distributed; [| exact Hinv | exact H1].
      apply Hincl. now left.
Qed.

End Distributor.

(** C7, as the code has it. Whatever the distributor appends is one hint per
    carrier, built from an entry of the password registry by one of the five
    templates; it contains that entry's password verbatim, and it contains
    the protected file's name unless it is the template that reads
    [Decryption key: <password>]. Only carriers of type txt are changed, and
    no file is added or removed. *)
Theorem distributed_hints_carry_the_password :
  forall (self self' : Manager) (r r' : Rng),
    _distribute_password_hints self r = Ok self' r' ->
    List.length (encoded_files self') = List.length (encoded_files self) /\
    forall j before after,
      nth_error (encoded_files self) j = Some before ->
      nth_error (encoded_files self') j = Some after ->
      after = before \/ hinted (passwords self) before after.
Proof.
  intros self self' r r' H. unfold _distribute_password_hints in H.
  apply bind_inv in H. destruct H as [all_passwords [r1 [Hsh H]]].
  apply sample_loop_incl in Hsh.
  eapply (distribute_loop_distributed (encoded_files self) (passwords self)) in H.
  - destruct H as [Hlen H]. split; [exact Hlen |].
    intros j before after Hb Ha.
    destruct (H j before after Hb Ha) as [-> | [_ Hh]]; [now left | now right].
  - intros e He. apply Hsh. eapply firstn_incl, He.
  - split; [reflexivity |]. intros j f f' Hf Hf'. left. congruence.
Qed.

Lemma distributed_hints_carry_the_password_witness :
  List.length (encoded_files (Reference.after_hints [0; 1]))
  = List.length (encoded_files Reference.before_hints) /\
  forall j before after,
    nth_error (encoded_files Reference.before_hints) j = Some before ->
    nth_error (encoded_files (Reference.after_hints [0; 1])) j = Some after ->
    after = before \/ hinted (passwords Reference.before_hints) before after.
Proof.
  apply (distributed_hints_carry_the_password
           Reference.before_hints (Reference.after_hints [0; 1]) [0; 1] []).
  vm_compute. reflexivity.
Defined.

(** C7 as the specification words it fails: the registry entry of [a.txt]
    is hinted at inside [a.txt] itself, by the template that does not name
    the protected file. *)
Lemma hint_may_omit_the_protected_name :
  _distribute_password_hints Reference.before_hints [0; 2]
    = Ok (Reference.after_hints [0; 2]) [] /\
  dict_get (passwords Reference.before_hints) "a.txt" = Some "Harbor42!" /\
  nth_error (encoded_files (Reference.after_hints [0; 2])) 0
    = Some (append_hint Reference.archived_text "Decryption key: Harbor42!") /\
  filename (original_plan Reference.archived_text) = "a.txt" /\
  encoded_content (append_hint Reference.archived_text "Decryption key: Harbor42!")
    <> encoded_content Reference.archived_text /\
  In "Decryption key: Harbor42!" (hint_formats "a.txt" "Harbor42!") /\
  Py.contains "Harbor42!" "Decryption key: Harbor42!" = true /\
  Py.contains "a.txt" "Decryption key: Harbor42!" = false.
Proof.
  repeat split; try (vm_compute; reflexivity).
  - vm_compute. discriminate.
  - right. right. left. reflexivity.
Qed.

(** The same outcome from the whole pipeline on two text files. *)
Example pipeline_hint_omits_the_protected_name :
  match create_file_network Reference.ext
          [Reference.plan "txt" "a.txt"; Reference.plan "txt" "b.txt"]
          new_manager (960 :: repeat 0 25 ++ [2]) with
  | Ok (f :: _, m) _ =>
      filename (original_plan f) = "a.txt" /\
      encoding_method f = ZIP_PASSWORD /\
      passwords m = [("a.txt", "Sampleword10!")] /\
      Py.endswith (string_of_list_byte (encoded_content f))
                  "\n\nDecryption key: Sampleword10!\n" = true
  | _ => False
  end.
Proof. vm_compute. repeat split. Qed.

(** ** Dictionaries *)

Lemma dict_get_set {V} (d : dict V) (k k' : string) (v : V) :
  dict_get (dict_set d k v) k' = if String.eqb k' k then Some v else dict_get d k'.
Proof.
  induction d as [| [k0 v0] d IH]; cbn [dict_set dict_get].
  - reflexivity.
  - destruct (String.eqb_spec k k0) as [-> | Hk]; cbn [dict_get].
    + destruct (String.eqb_spec k' k0); reflexivity.
    + rewrite IH. destruct (String.eqb_spec k' k0) as [-> | Hk'].
      * destruct (String.eqb_spec k0 k); [congruence | reflexivity].
      * reflexivity.
Qed.

Lemma dict_get_In {V} (d : dict V) (k : string) (v : V) :
  dict_get d k = Some v -> In (k, v) d.
Proof.
  induction d as [| [k0 v0] d IH]; cbn [dict_get]; [discriminate |].
  destruct (String.eqb_spec k k0) as [-> | Hk].
  - intro H. inversion H. now left.
  - intro H. right. now apply IH.
Qed.

Lemma dict_list_append {V} (d : dict (list V)) (k k' : string) (v : V) :
  dict_list (dict_append d k v) k'
  = dict_list d k' ++ (if String.eqb k' k then [v] else []).
Proof.
  unfold dict_append, dict_list.
  destruct (dict_get d k) as [l |] eqn:E; rewrite dict_get_set;
    destruct (String.eqb_spec k' k) as [-> | Hk];
    rewrite ?E, ?app_nil_r; reflexivity.
Qed.

(** ** Loops that reach a goal *)

Lemma for_each_reaches {A S} (Q : S -> Prop) (body : A -> S -> M S)
  (xs : list A) (x0 : A) :
  In x0 xs ->
  (forall x s r s' r', In x xs -> Q s -> body x s r = Ok s' r' -> Q s') ->
  (forall s r s' r', body x0 s r = Ok s' r' -> Q s') ->
  forall s r s' r', for_each xs body s r = Ok s' r' -> Q s'.
Proof.
  intros Hin Hkeep Hmake. induction xs as [| x xs IH]; [destruct Hin |].
  intros s r s' r' H. cbn [for_each] in H.
  apply bind_inv in H. destruct H as [s1 [r1 [H1 H]]].
  destruct Hin as [-> | Hin].
  - eapply (for_each_invariant Q body xs); [| | exact H].
    + intros y t rt t' rt' Hy. apply Hkeep. now right.
    + eapply Hmake; exact H1.
  - eapply IH; [exact Hin | | exact H].
    intros y t rt t' rt' Hy. apply Hkeep. now right.
Qed.

Lemma for_each_total {A S} (body : A -> S -> M S) (xs : list A) :
  (forall x s r, In x xs -> exists s' r', body x s r = Ok s' r') ->
  forall s r, exists s' r', for_each xs body s r = Ok s' r'.
Proof.
  induction xs as [| x xs IH]; intros Hbody s r.
  - exists s, r. reflexivity.
  - cbn [for_each].
    destruct (Hbody x s r (or_introl eq_refl)) as [s1 [r1 H1]].
    rewrite (bind_ok _ _ H1). apply IH.
    intros y t rt Hy. apply Hbody. now right.
Qed.

(** ** Version grouping *)

Lemma group_by_base_name_lookup (files : list FileGenerationPlan) :
  forall (d : dict (list FileGenerationPlan)) (k : string),
    dict_list
      (fold_left (fun base_names file =>
                    dict_append base_names (base_name_of (filename file)) file)
                 files d) k
    = dict_list d k
      ++ filter (fun file => String.eqb k (base_name_of (filename file))) files.
Proof.
  induction files as [| file files IH]; intros d k; cbn [fold_left filter].
  - now rewrite app_nil_r.
  - rewrite IH, dict_list_append, <- app_assoc.
    destruct (String.eqb k (base_name_of (filename file))); reflexivity.
Qed.

(** Every file sits in the group of its base name, together with every
    file that shares it. *)
Lemma group_of_file (all_files : list FileGenerationPlan) (f : FileGenerationPlan) :
  In f all_files ->
  In (base_name_of (filename f),
      filter (fun file => String.eqb (base_name_of (filename f))
                                     (base_name_of (filename file))) all_files)
     (group_by_base_name all_files).
Proof.
  intro Hin. apply dict_get_In.
  pose proof (group_by_base_name_lookup all_files [] (base_name_of (filename f)))
    as H.
  fold (group_by_base_name all_files) in H. cbn [dict_list dict_get app] in H.
  unfold dict_list in H.
  destruct (dict_get (group_by_base_name all_files) (base_name_of (filename f)))
    as [l |]; [now rewrite H |].
  exfalso.
  assert (Hf : In f (filter (fun file => String.eqb (base_name_of (filename f))
                                           (base_name_of (filename file))) all_files)).
  { apply filter_In. split; [exact Hin | apply String.eqb_refl]. }
  rewrite <- H in Hf. destruct Hf.
Qed.

Lemma two_names_two_files (f g : FileGenerationPlan) (l : list FileGenerationPlan) :
  In f l -> In g l -> filename f <> filename g -> 1 < List.length l.
Proof.
  intros Hf Hg Hne. destruct l as [| x [| y l]]; cbn.
  - destruct Hf.
  - destruct Hf as [<- | []], Hg as [<- | []]. congruence.
  - lia.
Qed.

Lemma has_edge_append (kind a b : string) (s : Manager) (ref : FileReference) :
  has_edge kind a b s -> has_edge kind a b (append_reference s ref).
Proof.
  intros [x [Hin Hx]]. exists x. split; [| exact Hx].
  cbn. apply in_or_app. now left.
Qed.

Lemma has_edge_appended (s : Manager) (ref : FileReference) :
  has_edge (reference_type ref) (source_file ref) (target_file ref)
           (append_reference s ref).
Proof.
  exists ref. split; [| repeat split]. cbn. apply in_or_app. right. now left.
Qed.

Section VersionPass.

Variable all_files : list FileGenerationPlan.

Lemma version_pass_total (self : Manager) (r : Rng) :
  exists self' r', _create_version_references all_files self r = Ok self' r'.
Proof.
  unfold _create_version_references. apply for_each_total.
  intros [base_name files] s r0 _.
  destruct (1 <? List.length files); [| exists s, r0; reflexivity].
  apply for_each_total. intros file s1 r1 _.
  apply for_each_total. intros other_file s2 r2 _.
  destruct (random_choice_total (version_contexts other_file) r2 ltac:(discriminate))
    as [ctx [r3 [Hc _]]].
  rewrite (bind_ok _ _ Hc). eexists. eexists. reflexivity.
Qed.

Lemma version_pass_keeps_edges (kind a b : string) (self self' : Manager) (r r' : Rng) :
  _create_version_references all_files self r = Ok self' r' ->
  has_edge kind a b self -> has_edge kind a b self'.
Proof.
  unfold _create_version_references. intros H Hedge.
  eapply for_each_invariant; [| exact Hedge | exact H].
  intros [base_name files] s r0 s' r0' _ Hs Hb.
  destruct (1 <? List.length files);
    [| apply ret_inv in Hb; destruct Hb as [<- _]; exact Hs].
  eapply for_each_invariant; [| exact Hs | exact Hb].
  intros file s1 r1 s1' r1' _ Hs1 Hb1.
  eapply for_each_invariant; [| exact Hs1 | exact Hb1].
  intros other_file s2 r2 s2' r2' _ Hs2 Hb2.
  apply bind_inv in Hb2. destruct Hb2 as [ctx [r3 [_ Hb2]]].
  apply ret_inv in Hb2. destruct Hb2 as [<- _].
  now apply has_edge_append.
Qed.

Lemma version_edge_emitted (f g : FileGenerationPlan) (self self' : Manager) (r r' : Rng) :
  In f all_files -> In g all_files ->
  filename f <> filename g ->
  base_name_of (filename f) = base_name_of (filename g) ->
  _create_version_references all_files self r = Ok self' r' ->
  has_edge "version_reference" (filename f) (filename g) self'.
Proof.
  intros Hf Hg Hne Hbase H.
  set (group := filter (fun file => String.eqb (base_name_of (filename f))
                                              (base_name_of (filename file)))
                       all_files).
  assert (Hfg : In f group /\ In g group).
  { split; apply filter_In; split; auto.
    - apply String.eqb_refl.
    - rewrite Hbase. apply String.eqb_refl. }
  destruct Hfg as [Hfin Hgin].
  pose proof (group_of_file all_files f Hf) as Hgroup. fold group in Hgroup.
  (* edges, once present, stay *)
  assert (Hinner : forall file other_file s r0 s' r0',
             (ctx <- random_choice (version_contexts other_file) ;;
              ret (append_reference s
                     {| source_file := filename file;
                        target_file := filename other_file;
                        reference_type := "version_reference";
                        context := ctx |})) r0 = Ok s' r0' ->
             has_edge "version_reference" (filename f) (filename g) s ->
             has_edge "version_reference" (filename f) (filename g) s').
  { intros file other_file s r0 s' r0' Hb Hs.
    apply bind_inv in Hb. destruct Hb as [ctx [r1 [_ Hb]]].
    apply ret_inv in Hb. destruct Hb as [<- _]. now apply has_edge_append. }
  unfold _create_version_references in H.
  eapply (for_each_reaches _ _ _ _ Hgroup); [| | exact H].
  - intros [base_name files] s r0 s' r0' _ Hs Hb.
    destruct (1 <? List.length files);
      [| apply ret_inv in Hb; destruct Hb as [<- _]; exact Hs].
    eapply for_each_invariant; [| exact Hs | exact Hb].
    intros file s1 r1 s1' r1' _ Hs1 Hb1.
    eapply for_each_invariant; [| exact Hs1 | exact Hb1].
    intros other_file s2 r2 s2' r2' _ Hs2 Hb2. exact (Hinner _ _ _ _ _ _ Hb2 Hs2).
  - intros s r0 s' r0' Hb. cbv beta iota in Hb.
    pose proof (two_names_two_files f g group Hfin Hgin Hne) as Hlen.
    apply Nat.ltb_lt in Hlen. rewrite Hlen in Hb.
    eapply (for_each_reaches _ _ _ f Hfin); [| | exact Hb].
    + intros file s1 r1 s1' r1' _ Hs1 Hb1.
      eapply for_each_invariant; [| exact Hs1 | exact Hb1].
      intros other_file s2 r2 s2' r2' _ Hs2 Hb2. exact (Hinner _ _ _ _ _ _ Hb2 Hs2).
    + intros s1 r1 s1' r1' Hb1.
      assert (Hother : In g (filter (other_name f) group)).
      { apply filter_In. split; [exact Hgin |].
        unfold other_name. apply negb_true_iff, String.eqb_neq. congruence. }
      eapply (for_each_reaches _ _ _ g Hother); [| | exact Hb1].
      * intros other_file s2 r2 s2' r2' _ Hs2 Hb2. exact (Hinner _ _ _ _ _ _ Hb2 Hs2).
      * intros s2 r2 s2' r2' Hb2.
        apply bind_inv in Hb2. destruct Hb2 as [ctx [r3 [_ Hb2]]].
        apply ret_inv in Hb2. destruct Hb2 as [<- _].
        apply (has_edge_appended s2
                 {| source_file := filename f; target_file := filename g;
                    reference_type := "version_reference"; context := ctx |}).
Qed.

End VersionPass.

(** ** What the grouping key is *)

Section Stripping.

(** The characters of a pattern after its first one. *)
Let inner (old : string) : list ascii :=
  match old with
  | EmptyString => []
  | String _ t => list_ascii_of_string t
  end.

Let separator (c : ascii) : Prop := c = "_"%char \/ c = "."%char.

(** A tail the patterns cannot reach into: empty, or starting with an
    underscore or a dot. *)
Let boundary (tail : string) : Prop :=
  forall c t, tail = String c t -> separator c.

Lemma append_empty_r (s : string) : (s ++ "")%string = s.
Proof. induction s as [| c s IH]; cbn; [reflexivity | now rewrite IH]. Qed.

Lemma prefix_empty (s : string) : String.prefix "" s = true.
Proof. now destruct s. Qed.

(** A pattern that starts a text made of two parts lies in the first part
    or holds the first character of the second. *)
Lemma prefix_split (x : string) :
  forall (old : string) (c : ascii) (t : string),
    String.prefix old (x ++ String c t) = true ->
    String.prefix old x = true \/ In c (list_ascii_of_string old).
Proof.
  induction x as [| a x IH]; intros old c t H.
  - destruct old as [| b old]; [left; reflexivity |].
    cbn [String.append String.prefix] in H.
    destruct (ascii_dec b c) as [-> | Hne]; [| discriminate H].
    right. now left.
  - destruct old as [| b old]; [left; reflexivity |].
    cbn [String.append String.prefix] in H.
    destruct (ascii_dec b a) as [-> | Hne]; [| discriminate H].
    destruct (IH old c t H) as [Hin | Hc].
    + left. cbn [String.prefix]. destruct (ascii_dec a a); [exact Hin | congruence].
    + right. now right.
Qed.

Lemma prefix_inner (a : ascii) (x old : string) (c : ascii) (t : string) :
  String.prefix old (String a (x ++ String c t)) = true ->
  String.prefix old (String a x) = true \/ In c (inner old).
Proof.
  intro H. destruct old as [| b old]; [left; reflexivity |].
  cbn [String.prefix] in H.
  destruct (ascii_dec b a) as [-> | Hne]; [| discriminate H].
  destruct (prefix_split x old c t H) as [Hin | Hc].
  - left. cbn [String.prefix]. destruct (ascii_dec a a); [exact Hin | congruence].
  - right. exact Hc.
Qed.

(** Characters still to be skipped are dropped. *)
Lemma remove_skips (old part tail : string) :
  Py.remove_from old (part ++ tail) (String.length part)
  = Py.remove_from old tail 0.
Proof. induction part as [| a part IH]; [reflexivity | exact IH]. Qed.

(** An occurrence at the head is dropped. *)
Lemma remove_drops_head (old tail : string) :
  old <> EmptyString ->
  Py.remove_from old (old ++ tail) 0 = Py.remove_from old tail 0.
Proof.
  intro Hne. destruct old as [| b o]; [contradiction |].
  pose proof (prefix_append (String b o) tail) as Hp.
  cbn [String.append] in *. cbn [Py.remove_from]. rewrite Hp.
  cbn [String.length Nat.sub]. rewrite Nat.sub_0_r. apply remove_skips.
Qed.

Variable old : string.
Hypothesis inner_plain : forall c, In c (inner old) -> ~ separator c.

(** A part that holds no occurrence of the pattern is kept, whatever
    follows it behind a separator. *)
Lemma remove_keeps_part (part tail : string) :
  Py.contains old part = false -> boundary tail ->
  Py.remove_from old (part ++ tail) 0 = (part ++ Py.remove_from old tail 0)%string.
Proof.
  intros Hpart Htail. induction part as [| a part IH]; [reflexivity |].
  cbn [Py.contains] in Hpart. apply orb_false_iff in Hpart.
  destruct Hpart as [Hhere Hlater].
  cbn [String.append Py.remove_from].
  assert (Hno : String.prefix old (String a (part ++ tail)) = false).
  { destruct (String.prefix old (String a (part ++ tail))) eqn:E; [| reflexivity].
    exfalso. destruct tail as [| c t].
    - rewrite append_empty_r in E. congruence.
    - destruct (prefix_inner a part old c t E) as [Hin | Hc]; [congruence |].
      exact (inner_plain c Hc (Htail c t eq_refl)). }
  rewrite Hno. f_equal. exact (IH Hlater).
Qed.

End Stripping.

(** The seven indicators: each is an underscore followed by letters and
    digits, and none occurs inside another. *)
Lemma indicator_shape (indicator : string) :
  In indicator version_indicators ->
  (exists t, indicator = String "_" t) /\
  (forall c, In c match indicator with
                  | EmptyString => []
                  | String _ t => list_ascii_of_string t
                  end ->
             ~ (c = "_"%char \/ c = "."%char)).
Proof.
  unfold version_indicators. intro H.
  repeat (destruct H as [<- | H]); try destruct H;
    (split; [eexists; reflexivity |]);
    cbn; intros c Hc;
    repeat (destruct Hc as [<- | Hc]); try destruct Hc;
    intros [E | E]; discriminate E.
Qed.

Lemma indicators_apart (old indicator : string) :
  In old version_indicators -> In indicator version_indicators ->
  old <> indicator -> Py.contains old indicator = false.
Proof.
  unfold version_indicators. intros Ho Hi Hne.
  repeat (destruct Ho as [<- | Ho]); try destruct Ho;
    repeat (destruct Hi as [<- | Hi]); try destruct Hi;
    first [reflexivity | now contradiction Hne].
Qed.

(** One pass of the stripping over the indicators and the extension. *)
Lemma remove_from_indicators (old : string) (indicators : list string)
  (extension : string) :
  In old version_indicators ->
  Forall (fun indicator => In indicator version_indicators) indicators ->
  is_extension extension ->
  (forall c t, (joined indicators ++ extension)%string = String c t ->
               c = "_"%char \/ c = "."%char) /\
  exists extension',
    is_extension extension' /\
    Py.remove_from old (joined indicators ++ extension) 0
    = (joined (without old indicators) ++ extension')%string.
Proof.
  intros Hold Hall Hext.
  destruct (indicator_shape old Hold) as [[o Eo] Hinner].
  induction Hall as [| indicator indicators Hin _ IH].
  - cbn [joined fold_right String.append without filter]. split.
    + intros c t E. destruct Hext as [-> | [rest ->]]; [discriminate E |].
      cbn in E. injection E as <- _. now right.
    + destruct Hext as [-> | [rest ->]].
      * exists EmptyString. split; [now left | reflexivity].
      * exists ("." ++ Py.remove_from old rest 0)%string. split.
        -- right. now eexists.
        -- subst old. reflexivity.
  - destruct IH as [Hboundary [extension' [Hext' E]]].
    destruct (indicator_shape indicator Hin) as [[t Et] _].
    change (joined (indicator :: indicators))
      with (indicator ++ joined indicators)%string.
    rewrite string_append_assoc. split.
    + intros c u Ec. rewrite Et in Ec. cbn in Ec. injection Ec as <- _. now left.
    + exists extension'. split; [exact Hext' |].
      unfold without. cbn [filter].
      destruct (String.eqb_spec indicator old) as [-> | Hne]; cbn [negb].
      * rewrite remove_drops_head by (rewrite Eo; discriminate). exact E.
      * rewrite (remove_keeps_part old Hinner);
          [| apply indicators_apart; auto | exact Hboundary].
        rewrite E.
        change (joined (indicator
                        :: filter (fun i => negb (String.eqb i old)) indicators))
          with (indicator
                ++ joined (filter (fun i => negb (String.eqb i old)) indicators))%string.
        now rewrite string_append_assoc.
Qed.

(** One pass of the stripping over a whole name. *)
Lemma remove_all_versioned (old stem : string) (indicators : list string)
  (extension : string) :
  In old version_indicators -> plain_stem stem ->
  Forall (fun indicator => In indicator version_indicators) indicators ->
  is_extension extension ->
  exists extension',
    is_extension extension' /\
    Py.remove_all old (stem ++ joined indicators ++ extension)
    = (stem ++ joined (without old indicators) ++ extension')%string.
Proof.
  intros Hold [_ Hstem] Hall Hext.
  destruct (remove_from_indicators old indicators extension Hold Hall Hext)
    as [Hboundary [extension' [Hext' E]]].
  exists extension'. split; [exact Hext' |].
  unfold Py.remove_all.
  rewrite (remove_keeps_part old (proj2 (indicator_shape old Hold)));
    [| now apply Hstem | exact Hboundary].
  now rewrite E.
Qed.

Lemma without_keeps (old : string) (indicators : list string) :
  Forall (fun indicator => In indicator version_indicators) indicators ->
  Forall (fun indicator => In indicator version_indicators) (without old indicators).
Proof.
  intro H. apply Forall_forall. intros i Hi. apply filter_In in Hi.
  rewrite Forall_forall in H. now apply H.
Qed.

(** All passes, in the order of the list. *)
Lemma strip_all_versioned (stem : string) (olds : list string) :
  plain_stem stem ->
  (forall old, In old olds -> In old version_indicators) ->
  forall (indicators : list string) (extension : string),
    Forall (fun indicator => In indicator version_indicators) indicators ->
    is_extension extension ->
    exists extension',
      is_extension extension' /\
      fold_left (fun base_name indicator => Py.remove_all indicator base_name)
                olds (stem ++ joined indicators ++ extension)%string
      = (stem
         ++ joined (fold_left (fun left old => without old left) olds indicators)
         ++ extension')%string.
Proof.
  intros Hstem. induction olds as [| old olds IH]; intros Holds indicators extension Hall Hext.
  - exists extension. split; [exact Hext | reflexivity].
  - cbn [fold_left].
    destruct (remove_all_versioned old stem indicators extension
                (Holds old (or_introl eq_refl)) Hstem Hall Hext)
      as [extension1 [Hext1 E]].
    rewrite E. apply IH.
    + intros o Ho. apply Holds. now right.
    + now apply without_keeps.
    + exact Hext1.
Qed.

Lemma all_taken_out (olds : list string) :
  forall indicators : list string,
    (forall indicator, In indicator indicators -> In indicator olds) ->
    fold_left (fun left old => without old left) olds indicators = [].
Proof.
  induction olds as [| old olds IH]; intros indicators Hin.
  - destruct indicators as [| i rest]; [reflexivity |].
    destruct (Hin i (or_introl eq_refl)).
  - cbn [fold_left]. apply IH. intros i Hi.
    apply filter_In in Hi. destruct Hi as [Hi Hne].
    destruct (Hin i Hi) as [<- | Hold]; [| exact Hold].
    now rewrite String.eqb_refl in Hne.
Qed.

Lemma split_dot_head_stem (stem extension : string) :
  Py.contains "." stem = false -> is_extension extension ->
  Py.split_dot_head (stem ++ extension) = stem.
Proof.
  intros Hstem Hext. induction stem as [| c stem IH].
  - destruct Hext as [-> | [rest ->]]; reflexivity.
  - cbn [Py.contains String.prefix] in Hstem.
    apply orb_false_iff in Hstem. destruct Hstem as [Hc Hrest].
    cbn [String.append Py.split_dot_head].
    destruct (Ascii.eqb_spec c ".") as [-> | Hne].
    + cbn in Hc. now rewrite prefix_empty in Hc.
    + f_equal. now apply IH.
Qed.

(** The grouping key of a name is what stripping its version suffixes and
    its extension leaves. *)
Lemma base_name_of_stripped (name stem : string) :
  strips_to name stem -> base_name_of name = stem.
Proof.
  intros [Hstem [indicators [extension [Hall [Hext ->]]]]].
  unfold base_name_of.
  destruct (strip_all_versioned stem version_indicators Hstem (fun o H => H)
              indicators extension Hall Hext) as [extension' [Hext' E]].
  rewrite E, all_taken_out.
  - cbn [joined fold_right String.append].
    apply split_dot_head_stem; [exact (proj1 Hstem) | exact Hext'].
  - rewrite Forall_forall in Hall. exact Hall.
Qed.

(** Two plans with different names and one grouping key are linked in both
    directions. *)
Lemma equal_base_names_are_connected :
  forall (all_files : list FileGenerationPlan) (self : Manager) (r : Rng)
         (f g : FileGenerationPlan),
    In f all_files -> In g all_files ->
    filename f <> filename g ->
    base_name_of (filename f) = base_name_of (filename g) ->
    exists self' r',
      _create_version_references all_files self r = Ok self' r' /\
      has_edge "version_reference" (filename f) (filename g) self' /\
      has_edge "version_reference" (filename g) (filename f) self'.
Proof.
  intros all_files self r f g Hf Hg Hne Hbase.
  destruct (version_pass_total all_files self r) as [self' [r' H]].
  exists self', r'. split; [exact H | split].
  - eapply version_edge_emitted; eauto.
  - eapply version_edge_emitted; eauto.
Qed.



(** ** Every emitted edge is well formed *)

Lemma extends_refl (plans : list FileGenerationPlan) (s : Manager) :
  extends_with_edges plans s s.
Proof.
  split; [| repeat split]. exists []. split; [now rewrite app_nil_r | constructor].
Qed.

Lemma extends_trans (plans : list FileGenerationPlan) (s1 s2 s3 : Manager) :
  extends_with_edges plans s1 s2 -> extends_with_edges plans s2 s3 ->
  extends_with_edges plans s1 s3.
Proof.
  intros [[n1 [E1 F1]] [A1 [B1 C1]]] [[n2 [E2 F2]] [A2 [B2 C2]]].
  split; [| repeat split; congruence].
  exists (n1 ++ n2). split.
  - now rewrite E2, E1, app_assoc.
  - apply Forall_app. now split.
Qed.

Lemma extends_append (plans : list FileGenerationPlan) (s0 s : Manager)
  (ref : FileReference) :
  extends_with_edges plans s0 s -> well_formed_reference plans ref ->
  extends_with_edges plans s0 (append_reference s ref).
Proof.
  intros H Href. eapply extends_trans; [exact H |].
  split; [| repeat split]. exists [ref]. split; [reflexivity |].
  constructor; [exact Href | constructor].
Qed.

Lemma kinds_apart_spec (plans : list FileGenerationPlan) (p q : FileGenerationPlan) :
  kinds_apart plans = true -> In p plans -> In q plans ->
  file_type p <> file_type q -> filename p <> filename q.
Proof.
  unfold kinds_apart. intros H Hp Hq Ht.
  rewrite forallb_forall in H. specialize (H p Hp).
  rewrite forallb_forall in H. specialize (H q Hq).
  apply orb_true_iff in H. destruct H as [H | H].
  - apply String.eqb_eq in H. contradiction.
  - apply negb_true_iff, String.eqb_neq in H. exact H.
Qed.

Lemma unique_names_kinds_apart (plans : list FileGenerationPlan) :
  NoDup (map filename plans) -> kinds_apart plans = true.
Proof.
  intro Hnd. unfold kinds_apart.
  apply forallb_forall. intros p Hp. apply forallb_forall. intros q Hq.
  destruct (String.eqb_spec (file_type p) (file_type q)) as [_ | Ht]; [reflexivity |].
  cbn. apply negb_true_iff, String.eqb_neq. intro Hname.
  apply Ht. f_equal.
  apply In_nth_error in Hp, Hq. destruct Hp as [i Hi], Hq as [j Hj].
  assert (i = j); [| congruence].
  eapply (proj1 (NoDup_nth_error _) Hnd).
  - apply nth_error_Some. rewrite nth_error_map, Hi. discriminate.
  - rewrite !nth_error_map, Hi, Hj. cbn. now rewrite Hname.
Qed.

Lemma mem_In (x : string) (xs : list string) : Py.mem x xs = true <-> In x xs.
Proof.
  unfold Py.mem. rewrite existsb_exists. split.
  - intros [y [Hy E]]. apply String.eqb_eq in E. now subst.
  - intro H. exists x. split; [exact H | apply String.eqb_refl].
Qed.

Lemma in_kind (kinds : list string) (plans : list FileGenerationPlan)
  (p : FileGenerationPlan) :
  In p (filter (of_type kinds) plans) -> In p plans /\ In (file_type p) kinds.
Proof.
  intro H. apply filter_In in H. destruct H as [Hp Hk].
  split; [exact Hp | now apply mem_In].
Qed.

Section Passes.

Variable plans : list FileGenerationPlan.
Hypothesis apart : kinds_apart plans = true.

Let good := well_formed_reference plans.
Let extends := extends_with_edges plans.

(** Two plans of the plan set whose kinds come from disjoint lists. *)
Lemma cross_kind_edge (k1 k2 : list string) (p q : FileGenerationPlan)
  (kind ctx : string) :
  (forall t, In t k1 -> In t k2 -> False) ->
  In p (filter (of_type k1) plans) -> In q (filter (of_type k2) plans) ->
  good {| source_file := filename p; target_file := filename q;
          reference_type := kind; context := ctx |} /\
  good {| source_file := filename q; target_file := filename p;
          reference_type := kind; context := ctx |}.
Proof.
  intros Hdis Hp Hq.
  apply in_kind in Hp, Hq. destruct Hp as [Hp Hkp], Hq as [Hq Hkq].
  assert (Hne : filename p <> filename q).
  { apply (kinds_apart_spec plans p q apart Hp Hq).
    intro E. rewrite E in Hkp. exact (Hdis _ Hkp Hkq). }
  split; (split; [cbn; congruence | split; cbn; now apply in_map]).
Qed.

Lemma same_pool_edge (pool : list FileGenerationPlan) (p q : FileGenerationPlan)
  (kind ctx : string) :
  incl pool plans -> In p pool -> In q (filter (other_name p) pool) ->
  good {| source_file := filename p; target_file := filename q;
          reference_type := kind; context := ctx |}.
Proof.
  intros Hpool Hp Hq. apply filter_In in Hq. destruct Hq as [Hq Hne].
  unfold other_name in Hne. apply negb_true_iff, String.eqb_neq in Hne.
  split; [cbn; congruence | split; cbn; apply in_map; auto].
Qed.

Lemma filter_incl_plans (P : FileGenerationPlan -> bool) : incl (filter P plans) plans.
Proof. intros x Hx. now apply filter_In in Hx. Qed.

Lemma attachments_kind (q : FileGenerationPlan) :
  In q (documents_of plans ++ spreadsheets_of plans ++ images_of plans) ->
  In q (filter (of_type ["pdf"; "docx"; "txt"; "xlsx"; "csv"; "jpg"; "png"]) plans).
Proof.
  intro H. apply filter_In.
  repeat (apply in_app_or in H; destruct H as [H | H]);
    apply in_kind in H; destruct H as [Hq Hk]; (split; [exact Hq |]);
    apply mem_In; cbn in Hk |- *; intuition.
Qed.

Lemma documents_or_images_kind (q : FileGenerationPlan) :
  In q (documents_of plans ++ images_of plans) ->
  In q (filter (of_type ["pdf"; "docx"; "txt"; "jpg"; "png"]) plans).
Proof.
  intro H. apply filter_In.
  apply in_app_or in H; destruct H as [H | H];
    apply in_kind in H; destruct H as [Hq Hk]; (split; [exact Hq |]);
    apply mem_In; cbn in Hk |- *; intuition.
Qed.

Ltac disjoint_kinds :=
  let t := fresh "t" in
  intros t; cbn; intuition (subst; discriminate).

Lemma email_attachments_extend (self self' : Manager) (r r' : Rng) :
  _create_email_attachments (emails_of plans)
    (documents_of plans ++ spreadsheets_of plans ++ images_of plans) self r
  = Ok self' r' ->
  extends self self'.
Proof.
  unfold _create_email_attachments. intro H.
  eapply for_each_invariant; [| apply extends_refl | exact H].
  intros email s r0 s' r0' Hemail Hs Hb.
  destruct (0 <? _); [| apply ret_inv in Hb; destruct Hb as [<- _]; exact Hs].
  apply bind_inv in Hb. destruct Hb as [num [r1 [_ Hb]]].
  apply bind_inv in Hb. destruct Hb as [attachments [r2 [Hsample Hb]]].
  apply random_sample_incl in Hsample.
  eapply for_each_invariant; [| exact Hs | exact Hb].
  intros attachment s1 r3 s1' r3' Hatt Hs1 Hb1.
  apply Hsample, attachments_kind in Hatt.
  apply bind_inv in Hb1. destruct Hb1 as [ctx [r4 [_ Hb1]]].
  apply bind_inv in Hb1. destruct Hb1 as [x [r5 [_ Hb1]]].
  pose proof (cross_kind_edge ["eml"]
                ["pdf"; "docx"; "txt"; "xlsx"; "csv"; "jpg"; "png"]
                email attachment) as Hedge.
  destruct (x <? 300); apply ret_inv in Hb1; destruct Hb1 as [<- _].
  - apply extends_append; [apply extends_append; [exact Hs1 |] |].
    + eapply (proj1 (Hedge "attachment" ctx ltac:(disjoint_kinds) Hemail Hatt)).
    + eapply (proj2 (Hedge "email_source" _ ltac:(disjoint_kinds) Hemail Hatt)).
  - apply extends_append; [exact Hs1 |].
    eapply (proj1 (Hedge "attachment" ctx ltac:(disjoint_kinds) Hemail Hatt)).
Qed.

Lemma image_embeddings_extend (self self' : Manager) (r r' : Rng) :
  _create_document_image_embeddings (documents_of plans) (images_of plans) self r
  = Ok self' r' ->
  extends self self'.
Proof.
  unfold _create_document_image_embeddings. intro H.
  eapply for_each_invariant; [| apply extends_refl | exact H].
  intros document s r0 s' r0' Hdoc Hs Hb.
  apply bind_inv in Hb. destruct Hb as [x [r1 [_ Hb]]].
  destruct (_ && _); [| apply ret_inv in Hb; destruct Hb as [<- _]; exact Hs].
  apply bind_inv in Hb. destruct Hb as [num [r2 [_ Hb]]].
  apply bind_inv in Hb. destruct Hb as [embedded [r3 [Hsample Hb]]].
  apply random_sample_incl in Hsample.
  eapply for_each_invariant; [| exact Hs | exact Hb].
  intros image s1 r4 s1' r4' Himg Hs1 Hb1.
  apply ret_inv in Hb1. destruct Hb1 as [<- _].
  apply extends_append; [exact Hs1 |].
  eapply (proj1 (cross_kind_edge ["pdf"; "docx"; "txt"] ["jpg"; "png"]
                   document image _ _ ltac:(disjoint_kinds) Hdoc (Hsample _ Himg))).
Qed.

Lemma document_references_extend (self self' : Manager) (r r' : Rng) :
  _create_document_references (documents_of plans) self r = Ok self' r' ->
  extends self self'.
Proof.
  unfold _create_document_references. intro H.
  eapply for_each_invariant; [| apply extends_refl | exact H].
  intros doc s r0 s' r0' Hdoc Hs Hb. cbv beta in Hb.
  destruct (filter (other_name doc) (documents_of plans)) as [| d others] eqn:E;
    [apply ret_inv in Hb; destruct Hb as [<- _]; exact Hs |].
  apply bind_inv in Hb. destruct Hb as [num [r1 [_ Hb]]].
  apply bind_inv in Hb. destruct Hb as [referenced [r2 [Hsample Hb]]].
  apply random_sample_incl in Hsample. rewrite <- E in Hsample.
  eapply for_each_invariant; [| exact Hs | exact Hb].
  intros ref_doc s1 r3 s1' r3' Href Hs1 Hb1.
  apply bind_inv in Hb1. destruct Hb1 as [ctx [r4 [_ Hb1]]].
  apply ret_inv in Hb1. destruct Hb1 as [<- _].
  apply extends_append; [exact Hs1 |].
  apply (same_pool_edge (documents_of plans));
    [apply filter_incl_plans | exact Hdoc | exact (Hsample _ Href)].
Qed.

Lemma spreadsheet_references_extend (self self' : Manager) (r r' : Rng) :
  _create_spreadsheet_references (spreadsheets_of plans)
    (documents_of plans ++ images_of plans) self r = Ok self' r' ->
  extends self self'.
Proof.
  unfold _create_spreadsheet_references. intro H.
  eapply for_each_invariant; [| apply extends_refl | exact H].
  intros sheet s r0 s' r0' Hsheet Hs Hb. cbv beta in Hb.
  destruct (documents_of plans ++ images_of plans) as [| d others] eqn:E;
    [apply ret_inv in Hb; destruct Hb as [<- _]; exact Hs |].
  apply bind_inv in Hb. destruct Hb as [num [r1 [_ Hb]]].
  apply bind_inv in Hb. destruct Hb as [referenced [r2 [Hsample Hb]]].
  apply random_sample_incl in Hsample. rewrite <- E in Hsample.
  eapply for_each_invariant; [| exact Hs | exact Hb].
  intros ref_file s1 r3 s1' r3' Href Hs1 Hb1.
  apply bind_inv in Hb1. destruct Hb1 as [ctx [r4 [_ Hb1]]].
  apply ret_inv in Hb1. destruct Hb1 as [<- _].
  apply extends_append; [exact Hs1 |].
  apply Hsample, documents_or_images_kind in Href.
  eapply (proj1 (cross_kind_edge ["xlsx"; "csv"]
                   ["pdf"; "docx"; "txt"; "jpg"; "png"] sheet ref_file _ _
                   ltac:(disjoint_kinds) Hsheet Href)).
Qed.

Lemma plan_eqb_filename (p q : FileGenerationPlan) :
  plan_eqb p q = true -> filename p = filename q.
Proof.
  unfold plan_eqb. intro H.
  apply andb_true_iff in H. destruct H as [_ H]. now apply String.eqb_eq.
Qed.

Lemma password_references_extend (self self' : Manager) (r r' : Rng) :
  _create_password_references plans self r = Ok self' r' ->
  extends self self'.
Proof.
  unfold _create_password_references. intro H.
  eapply for_each_invariant; [| apply extends_refl | exact H].
  intros protected_file s r0 s' r0' Hprot Hs Hb. cbv beta zeta in Hb.
  apply bind_inv in Hb. destruct Hb as [x [r1 [_ Hb]]].
  destruct (x <? 700); [| apply ret_inv in Hb; destruct Hb as [<- _]; exact Hs].
  match type of Hb with
  | context [filter ?P plans] => destruct (filter P plans) as [| c cs] eqn:E
  end; [apply ret_inv in Hb; destruct Hb as [<- _]; exact Hs |].
  apply bind_inv in Hb. destruct Hb as [container [r2 [Hc Hb]]].
  apply random_choice_inv in Hc. rewrite <- E in Hc.
  apply filter_In in Hc. destruct Hc as [Hc Hcond].
  apply andb_true_iff in Hcond. destruct Hcond as [Hne _].
  apply negb_true_iff, String.eqb_neq in Hne.
  apply ret_inv in Hb. destruct Hb as [<- _].
  apply extends_append; [exact Hs |].
  apply filter_In in Hprot. destruct Hprot as [_ Hprot].
  apply andb_true_iff in Hprot. destruct Hprot as [_ Hprot].
  apply existsb_exists in Hprot. destruct Hprot as [q [Hq Heq]].
  apply plan_eqb_filename in Heq.
  split; [exact Hne | split; cbn].
  - now apply in_map.
  - rewrite Heq. now apply in_map.
Qed.

Lemma backup_references_extend (self self' : Manager) (r r' : Rng) :
  _create_backup_references (documents_of plans) (spreadsheets_of plans) self r
  = Ok self' r' ->
  extends self self'.
Proof.
  unfold _create_backup_references. intro H.
  eapply for_each_invariant; [| apply extends_refl | exact H].
  intros doc s r0 s' r0' Hdoc Hs Hb. cbv beta in Hb.
  apply firstn_incl in Hdoc.
  destruct (spreadsheets_of plans) as [| c cs] eqn:E;
    [apply ret_inv in Hb; destruct Hb as [<- _]; exact Hs |].
  apply bind_inv in Hb. destruct Hb as [backup [r1 [Hc Hb]]].
  apply random_choice_inv in Hc. rewrite <- E in Hc.
  apply ret_inv in Hb. destruct Hb as [<- _].
  apply extends_append; [exact Hs |].
  eapply (proj1 (cross_kind_edge ["pdf"; "docx"; "txt"] ["xlsx"; "csv"]
                   doc backup _ _ ltac:(disjoint_kinds) Hdoc Hc)).
Qed.

Lemma data_references_extend (self self' : Manager) (r r' : Rng) :
  _create_data_references (spreadsheets_of plans) (documents_of plans) self r
  = Ok self' r' ->
  extends self self'.
Proof.
  unfold _create_data_references. intro H.
  eapply for_each_invariant; [| apply extends_refl | exact H].
  intros sheet s r0 s' r0' Hsheet Hs Hb. cbv beta in Hb.
  apply firstn_incl in Hsheet.
  destruct (documents_of plans) as [| c cs] eqn:E;
    [apply ret_inv in Hb; destruct Hb as [<- _]; exact Hs |].
  apply bind_inv in Hb. destruct Hb as [source_doc [r1 [Hc Hb]]].
  apply random_choice_inv in Hc. rewrite <- E in Hc.
  apply ret_inv in Hb. destruct Hb as [<- _].
  apply extends_append; [exact Hs |].
  eapply (proj1 (cross_kind_edge ["xlsx"; "csv"] ["pdf"; "docx"; "txt"]
                   sheet source_doc _ _ ltac:(disjoint_kinds) Hsheet Hc)).
Qed.

Let members_in_plans := members_in plans.

Lemma dict_set_In {V} (d : dict V) (k0 k : string) (v l : V) :
  In (k, l) (dict_set d k0 v) -> l = v \/ In (k, l) d.
Proof.
  induction d as [| [k1 v1] d IH]; cbn [dict_set].
  - intros [E | []]. left. congruence.
  - destruct (String.eqb k0 k1).
    + intros [E | Hin]; [left; congruence | right; now right].
    + intros [E | Hin]; [right; now left |].
      destruct (IH Hin) as [-> | Hd]; [now left | right; now right].
Qed.

Lemma dict_append_members (d : dict (list FileGenerationPlan)) (k0 : string)
  (v : FileGenerationPlan) :
  members_in_plans d -> In v plans -> members_in_plans (dict_append d k0 v).
Proof.
  intros Hd Hv k l Hin. unfold dict_append in Hin.
  destruct (dict_get d k0) as [old |] eqn:E;
    apply dict_set_In in Hin; destruct Hin as [-> | Hin]; try (eapply Hd; eassumption).
  - apply dict_get_In in E. apply Hd in E.
    intros x Hx. apply in_app_or in Hx. destruct Hx as [Hx | [<- | []]]; auto.
  - intros x [<- | []]. exact Hv.
Qed.

Lemma assign_projects_members (d : dict (list FileGenerationPlan)) (r r' : Rng) :
  assign_projects plans r = Ok d r' -> members_in_plans d.
Proof.
  unfold assign_projects. intro H.
  eapply (for_each_invariant members_in_plans); [| | exact H].
  - intros file s r0 s' r0' Hfile Hs Hb. cbv beta in Hb.
    apply bind_inv in Hb. destruct Hb as [x [r1 [_ Hb]]].
    destruct (x <? 700); [| apply ret_inv in Hb; destruct Hb as [<- _]; exact Hs].
    apply bind_inv in Hb. destruct Hb as [project [r2 [_ Hb]]].
    apply ret_inv in Hb. destruct Hb as [<- _].
    now apply dict_append_members.
  - intros k l [].
Qed.

Lemma group_by_base_name_members : members_in_plans (group_by_base_name plans).
Proof.
  unfold group_by_base_name.
  assert (H : forall files d, incl files plans -> members_in_plans d ->
              members_in_plans
                (fold_left (fun base_names file =>
                              dict_append base_names (base_name_of (filename file)) file)
                           files d)).
  { induction files as [| file files IH]; intros d Hfiles Hd; [exact Hd |].
    cbn [fold_left]. apply IH.
    - intros x Hx. apply Hfiles. now right.
    - apply dict_append_members; [exact Hd | apply Hfiles; now left]. }
  apply H; [apply incl_refl | intros k l []].
Qed.

Lemma project_references_extend (self self' : Manager) (r r' : Rng) :
  _create_project_references plans self r = Ok self' r' ->
  extends self self'.
Proof.
  unfold _create_project_references. intro H.
  apply bind_inv in H. destruct H as [project_files [r1 [Hassign H]]].
  apply assign_projects_members in Hassign.
  eapply for_each_invariant; [| apply extends_refl | exact H].
  intros [project files] s r0 s' r0' Hgroup Hs Hb. cbv beta iota in Hb.
  apply Hassign in Hgroup.
  destruct (1 <? _); [| apply ret_inv in Hb; destruct Hb as [<- _]; exact Hs].
  eapply for_each_invariant; [| exact Hs | exact Hb].
  intros file s1 r2 s1' r2' Hfile Hs1 Hb1. cbv beta in Hb1.
  destruct (filter (other_name file) files) as [| c cs] eqn:E;
    [apply ret_inv in Hb1; destruct Hb1 as [<- _]; exact Hs1 |].
  apply bind_inv in Hb1. destruct Hb1 as [num [r3 [_ Hb1]]].
  apply bind_inv in Hb1. destruct Hb1 as [referenced [r4 [Hsample Hb1]]].
  apply random_sample_incl in Hsample. rewrite <- E in Hsample.
  eapply for_each_invariant; [| exact Hs1 | exact Hb1].
  intros ref_file s2 r5 s2' r5' Href Hs2 Hb2.
  apply ret_inv in Hb2. destruct Hb2 as [<- _].
  apply extends_append; [exact Hs2 |].
  apply (same_pool_edge files); [exact Hgroup | exact Hfile | exact (Hsample _ Href)].
Qed.

Lemma version_references_extend (self self' : Manager) (r r' : Rng) :
  _create_version_references plans self r = Ok self' r' ->
  extends self self'.
Proof.
  unfold _create_version_references. intro H.
  eapply for_each_invariant; [| apply extends_refl | exact H].
  intros [base_name files] s r0 s' r0' Hgroup Hs Hb. cbv beta iota in Hb.
  apply group_by_base_name_members in Hgroup.
  destruct (1 <? _); [| apply ret_inv in Hb; destruct Hb as [<- _]; exact Hs].
  eapply for_each_invariant; [| exact Hs | exact Hb].
  intros file s1 r2 s1' r2' Hfile Hs1 Hb1. cbv beta in Hb1.
  eapply for_each_invariant; [| exact Hs1 | exact Hb1].
  intros other_file s2 r5 s2' r5' Hother Hs2 Hb2.
  apply bind_inv in Hb2. destruct Hb2 as [ctx [r6 [_ Hb2]]].
  apply ret_inv in Hb2. destruct Hb2 as [<- _].
  apply extends_append; [exact Hs2 |].
  apply (same_pool_edge files); [exact Hgroup | exact Hfile | exact Hother].
Qed.

Lemma cross_references_extend (self self' : Manager) (r r' : Rng) :
  create_cross_references plans self r = Ok self' r' ->
  extends self self'.
Proof.
  unfold create_cross_references. intro H.
  apply bind_inv in H. destruct H as [s1 [r1 [H1 H]]].
  apply bind_inv in H. destruct H as [s2 [r2 [H2 H]]].
  apply bind_inv in H. destruct H as [s3 [r3 [H3 H]]].
  apply bind_inv in H. destruct H as [s4 [r4 [H4 H]]].
  apply bind_inv in H. destruct H as [s5 [r5 [H5 H]]].
  apply bind_inv in H. destruct H as [s6 [r6 [H6 H]]].
  apply bind_inv in H. destruct H as [s7 [r7 [H7 H]]].
  apply bind_inv in H. destruct H as [s8 [r8 [H8 H]]].
  apply email_attachments_extend in H1.
  apply image_embeddings_extend in H2.
  apply document_references_extend in H3.
  apply spreadsheet_references_extend in H4.
  apply password_references_extend in H5.
  apply backup_references_extend in H6.
  apply data_references_extend in H7.
  apply project_references_extend in H8.
  apply version_references_extend in H.
  repeat (eapply extends_trans; [eassumption |]). apply extends_refl.
Qed.

End Passes.

(** C2. In a plan set where plans of different kinds have different names
    (which unique names give, see [unique_names_kinds_apart]), every edge the
    nine relation passes append has a source different from its target, and
    both are file names of the plan set; the passes change nothing else. *)
Theorem emitted_references_are_well_formed :
  forall (plans : list FileGenerationPlan) (self self' : Manager) (r r' : Rng),
    kinds_apart plans = true ->
    create_cross_references plans self r = Ok self' r' ->
    exists new,
      file_references self' = file_references self ++ new /\
      Forall (fun ref =>
                source_file ref <> target_file ref /\
                In (source_file ref) (map filename plans) /\
                In (target_file ref) (map filename plans)) new.
Proof.
  intros plans self self' r r' Hapart H.
  destruct (cross_references_extend plans Hapart self self' r r' H) as [Hnew _].
  exact Hnew.
Qed.

Lemma emitted_references_are_well_formed_witness :
  exists new,
    file_references (Reference.linked [1; 2; 3])
    = file_references new_manager ++ new /\
    Forall (fun ref =>
              source_file ref <> target_file ref /\
              In (source_file ref) (map filename Reference.office_plans) /\
              In (target_file ref) (map filename Reference.office_plans)) new.
Proof.
  apply (emitted_references_are_well_formed
           Reference.office_plans new_manager (Reference.linked [1; 2; 3])
           [1; 2; 3] []).
  - vm_compute. reflexivity.
  - vm_compute. reflexivity.
Defined.

(** ** Passwords, salts and the registry *)

Section Credentials.

Variable ext : Externals.

Lemma encode_file_metadata (content : bytes) (method : EncodingMethod)
  (r r' : Rng) (encoded : bytes) (md : metadata) :
  encode_file ext content method None r = Ok (encoded, md) r' ->
  dict_get md "key" = None /\
  (dict_get md "salt" <> None <-> method = ENCRYPTED_FERNET) /\
  ((uses_password method = false /\ dict_get md "password" = None) \/
   (uses_password method = true /\
    exists pw, dict_get md "password" = Some pw /\ pw <> EmptyString)).
Proof.
  destruct method; cbn [encode_file truthy]; intro H.
  - apply ret_inv in H. destruct H as [H _]. inversion H; subst.
    split; [reflexivity | split; [split; [now intros [] | discriminate] |]].
    left. now split.
  - apply ret_inv in H. destruct H as [H _]. inversion H; subst.
    split; [reflexivity | split; [split; [now intros [] | discriminate] |]].
    left. now split.
  - apply ret_inv in H. destruct H as [H _]. inversion H; subst.
    split; [reflexivity | split; [split; [now intros [] | discriminate] |]].
    left. now split.
  - apply ret_inv in H. destruct H as [H _]. inversion H; subst.
    split; [reflexivity | split; [split; [now intros [] | discriminate] |]].
    left. now split.
  - apply bind_inv in H. destruct H as [pw [r1 [Hpw H]]].
    apply bind_inv in H. destruct H as [salt_bytes [r2 [_ H]]].
    apply bind_inv in H. destruct H as [fernet [r3 [_ H]]].
    apply bind_inv in H. destruct H as [encrypted [r4 [_ H]]].
    apply ret_inv in H. destruct H as [H _]. inversion H; subst.
    apply generate_password_nonempty in Hpw.
    split; [reflexivity | split; [split; [reflexivity | discriminate] |]].
    right. split; [reflexivity |]. exists pw. now split.
  - apply bind_inv in H. destruct H as [pw [r1 [Hpw H]]].
    apply bind_inv in H. destruct H as [z [r2 [_ H]]].
    apply ret_inv in H. destruct H as [H _]. inversion H; subst.
    apply generate_password_nonempty in Hpw.
    split; [reflexivity | split; [split; [now intros [] | discriminate] |]].
    right. split; [reflexivity |]. exists pw. now split.
  - apply bind_inv in H. destruct H as [pw [r1 [Hpw H]]].
    apply bind_inv in H. destruct H as [z [r2 [_ H]]].
    apply ret_inv in H. destruct H as [H _]. inversion H; subst.
    apply generate_password_nonempty in Hpw.
    split; [reflexivity | split; [split; [now intros [] | discriminate] |]].
    right. split; [reflexivity |]. exists pw. now split.
Qed.

(** One turn of the encoding loop: one more encoded file, registered under
    the plan's name when it carries a password. *)
Lemma encode_plan_step (documents spreadsheets images : list FileGenerationPlan)
  (plan : FileGenerationPlan) (s s' : Manager) (r r' : Rng) :
  encode_plan ext documents spreadsheets images plan s r = Ok s' r' ->
  exists ef,
    encoded_files s' = encoded_files s ++ [ef] /\
    original_plan ef = plan /\
    credentials_consistent ef /\
    passwords s' = match password ef with
                   | Some pw => dict_set (passwords s) (filename plan) pw
                   | None => passwords s
                   end.
Proof.
  unfold encode_plan. intro H.
  apply bind_inv in H. destruct H as [method [r1 [_ H]]].
  apply bind_inv in H. destruct H as [u [r2 [_ H]]].
  apply bind_inv in H. destruct H as [[image_refs attachment_refs] [r3 [_ H]]].
  apply bind_inv in H. destruct H as [original_content [r4 [_ H]]].
  apply bind_inv in H. destruct H as [[encoded md] [r5 [Henc H]]].
  apply ret_inv in H. destruct H as [<- _].
  apply encode_file_metadata in Henc. destruct Henc as [Hkey [Hsalt Hpw]].
  eexists. split; [reflexivity |]. cbn [original_plan password passwords].
  split; [reflexivity |]. split.
  - split; cbn [encoding_method password salt]; assumption.
  - destruct Hpw as [[_ ->] | [_ [pw [-> Hne]]]]; [reflexivity |].
    destruct pw; [congruence | reflexivity].
Qed.

Lemma encoded_upto_step (done : list FileGenerationPlan) (plan : FileGenerationPlan)
  (s s' : Manager) (ef : EncodedFile) :
  ~ In (filename plan) (map filename done) ->
  encoded_upto done s ->
  encoded_files s' = encoded_files s ++ [ef] ->
  original_plan ef = plan ->
  credentials_consistent ef ->
  passwords s' = match password ef with
                 | Some pw => dict_set (passwords s) (filename plan) pw
                 | None => passwords s
                 end ->
  encoded_upto (done ++ [plan]) s'.
Proof.
  intros Hfresh [Hdone [Hall Hreg]] Hfiles Hplan Hcred Hpw.
  assert (Hold : forall f, In f (encoded_files s) ->
                           filename (original_plan f) <> filename plan).
  { intros f Hf E. apply Hfresh. rewrite <- Hdone, <- E, map_map.
    now apply (in_map (fun x => filename (original_plan x))). }
  split; [| split].
  - rewrite Hfiles, map_app, Hdone. cbn. now rewrite Hplan.
  - rewrite Hfiles. apply Forall_app. split; [exact Hall | now constructor].
  - intros name pw. rewrite Hfiles, Hpw. split.
    + intro Hget. destruct (password ef) as [pw0 |] eqn:Epw.
      * rewrite dict_get_set in Hget.
        destruct (String.eqb_spec name (filename plan)) as [-> | Hne].
        -- inversion Hget; subst. exists ef. split; [| now split].
           apply in_or_app. right. now left.
        -- apply Hreg in Hget. destruct Hget as [f [Hf Hrest]].
           exists f. split; [apply in_or_app; now left | exact Hrest].
      * apply Hreg in Hget. destruct Hget as [f [Hf Hrest]].
        exists f. split; [apply in_or_app; now left | exact Hrest].
    + intros [f [Hf [Hname Hpass]]]. apply in_app_or in Hf.
      destruct Hf as [Hf | [<- | []]].
      * assert (Hget : dict_get (passwords s) name = Some pw)
          by (apply Hreg; exists f; now repeat split).
        destruct (password ef); [| exact Hget].
        rewrite dict_get_set.
        destruct (String.eqb_spec name (filename plan)) as [E | _]; [| exact Hget].
        exfalso. apply (Hold f Hf). congruence.
      * rewrite Hpass, dict_get_set, Hplan in *. subst name.
        now rewrite String.eqb_refl.
Qed.

Lemma encode_loop (documents spreadsheets images : list FileGenerationPlan)
  (todo : list FileGenerationPlan) :
  forall (done : list FileGenerationPlan) (s s' : Manager) (r r' : Rng),
    NoDup (map filename (done ++ todo)) ->
    encoded_upto done s ->
    for_each todo (encode_plan ext documents spreadsheets images) s r = Ok s' r' ->
    encoded_upto (done ++ todo) s'.
Proof.
  induction todo as [| plan todo IH]; intros done s s' r r' Hnd Hinv H.
  - apply ret_inv in H. destruct H as [<- _]. now rewrite app_nil_r.
  - cbn [for_each] in H. apply bind_inv in H. destruct H as [s1 [r1 [H1 H]]].
    apply encode_plan_step in H1.
    destruct H1 as [ef [Hfiles [Hplan [Hcred Hpw]]]].
    replace (done ++ plan :: todo) with ((done ++ [plan]) ++ todo) in *
      by (now rewrite <- app_assoc).
    eapply IH; [exact Hnd | | exact H].
    eapply encoded_upto_step; eauto.
    rewrite !map_app in Hnd. apply NoDup_app_remove_r in Hnd.
    cbn in Hnd. apply NoDup_remove_2 in Hnd. now rewrite app_nil_r in Hnd.
Qed.

End Credentials.

(** ** The phases after encoding keep the credentials *)

Lemma credentials_consistent_transfer (f g : EncodedFile) :
  credentials f = credentials g ->
  credentials_consistent f -> credentials_consistent g.
Proof.
  unfold credentials, credentials_consistent. intro E.
  inversion E as [[E1 E2 E3 E4]]. now rewrite E2, E3, E4.
Qed.

Lemma credentials_set_content (f : EncodedFile) (c : bytes) :
  credentials (set_encoded_content f c) = credentials f.
Proof. reflexivity. Qed.

Lemma same_credentials_In (l l' : list EncodedFile) (f' : EncodedFile) :
  map credentials l' = map credentials l -> In f' l' ->
  exists f, In f l /\ credentials f = credentials f'.
Proof.
  intros E Hin. apply (in_map credentials) in Hin. rewrite E in Hin.
  apply in_map_iff in Hin. destruct Hin as [f [Hf Hin]]. now exists f.
Qed.

Lemma encoded_upto_transfer (done : list FileGenerationPlan) (s s' : Manager) :
  map credentials (encoded_files s') = map credentials (encoded_files s) ->
  passwords s' = passwords s ->
  encoded_upto done s -> encoded_upto done s'.
Proof.
  intros E Epw [Hdone [Hall Hreg]]. split; [| split].
  - rewrite <- Hdone.
    change original_plan with (fun f => fst (fst (fst (credentials f)))).
    rewrite <- !(map_map credentials (fun c => fst (fst (fst c)))).
    now rewrite E.
  - apply Forall_forall. intros f' Hf'.
    destruct (same_credentials_In _ _ f' E Hf') as [f [Hf Ec]].
    rewrite Forall_forall in Hall.
    exact (credentials_consistent_transfer f f' Ec (Hall f Hf)).
  - intros name pw. rewrite Epw, (Hreg name pw). split.
    + intros [f [Hf [Hn Hp]]].
      destruct (same_credentials_In _ _ f (eq_sym E) Hf) as [f' [Hf' Ec]].
      exists f'. split; [exact Hf' |].
      unfold credentials in Ec. inversion Ec as [[E1 E2 E3 E4]].
      split; congruence.
    + intros [f' [Hf' [Hn Hp]]].
      destruct (same_credentials_In _ _ f' E Hf') as [f [Hf Ec]].
      exists f. split; [exact Hf |].
      unfold credentials in Ec. inversion Ec as [[E1 E2 E3 E4]].
      split; congruence.
Qed.

Lemma map_M_credentials (body : EncodedFile -> M EncodedFile) (l : list EncodedFile) :
  (forall f r f' r', body f r = Ok f' r' -> credentials f' = credentials f) ->
  forall r l' r', map_M body l r = Ok l' r' ->
                  map credentials l' = map credentials l.
Proof.
  intro Hbody. induction l as [| f l IH]; intros r l' r' H.
  - apply ret_inv in H. destruct H as [<- _]. reflexivity.
  - cbn [map_M] in H.
    apply bind_inv in H. destruct H as [y [r1 [Hy H]]].
    apply bind_inv in H. destruct H as [ys [r2 [Hys H]]].
    apply ret_inv in H. destruct H as [<- _].
    cbn [map]. now rewrite (Hbody _ _ _ _ Hy), (IH _ _ _ Hys).
Qed.

Lemma update_email_credentials (ext : Externals) (s s' : Manager) (r r' : Rng) :
  _update_email_content_with_references ext s r = Ok s' r' ->
  map credentials (encoded_files s') = map credentials (encoded_files s)
  /\ passwords s' = passwords s.
Proof.
  unfold _update_email_content_with_references. intro H.
  apply bind_inv in H. destruct H as [files [r1 [Hfiles H]]].
  apply ret_inv in H. destruct H as [<- _].
  split; [| reflexivity]. cbn [encoded_files set_encoded_files].
  eapply map_M_credentials; [| exact Hfiles].
  intros f r0 f' r0' Hb. cbv beta in Hb.
  destruct (is_type "eml" f); [| apply ret_inv in Hb; now destruct Hb as [<- _]].
  destruct (references_from s (filename (original_plan f)));
    [apply ret_inv in Hb; now destruct Hb as [<- _] |].
  apply bind_inv in Hb. destruct Hb as [custom [r2 [_ Hb]]].
  apply ret_inv in Hb. now destruct Hb as [<- _].
Qed.

Lemma update_document_credentials (s : Manager) (f : EncodedFile) :
  credentials (update_document s f) = credentials f.
Proof.
  unfold update_document.
  destruct (of_type _ _); [| reflexivity].
  destruct (references_from _ _); [reflexivity |].
  destruct (is_type _ _); reflexivity.
Qed.

Lemma update_spreadsheet_credentials (s : Manager) (f : EncodedFile) :
  credentials (update_spreadsheet s f) = credentials f.
Proof.
  unfold update_spreadsheet.
  destruct (of_type _ _); [| reflexivity].
  destruct (references_from _ _); reflexivity.
Qed.

Lemma update_at_credentials (l : list EncodedFile) (j : nat) (f g : EncodedFile) :
  nth_error l j = Some f -> credentials g = credentials f ->
  map credentials (update_at j g l) = map credentials l.
Proof.
  revert j. induction l as [| x l IH]; intros j Hj E.
  - destruct j; discriminate.
  - destruct j as [| j]; cbn in Hj |- *.
    + inversion Hj; subst. now rewrite E.
    + now rewrite (IH j Hj E).
Qed.

Lemma distribute_hints_credentials (s s' : Manager) (r r' : Rng) :
  _distribute_password_hints s r = Ok s' r' ->
  map credentials (encoded_files s') = map credentials (encoded_files s)
  /\ passwords s' = passwords s.
Proof.
  unfold _distribute_password_hints. intro H.
  apply bind_inv in H. destruct H as [all_passwords [r1 [_ H]]].
  eapply (for_each_invariant
            (fun t => map credentials (encoded_files t)
                      = map credentials (encoded_files s)
                      /\ passwords t = passwords s));
    [| split; reflexivity | exact H].
  intros [i [fn pw]] t r0 t' r0' _ [Hc Hp] Hb. unfold distribute_step in Hb.
  destruct (nth_error _ i) as [j |];
    [| apply ret_inv in Hb; destruct Hb as [<- _]; now split].
  destruct (nth_error (encoded_files t) j) as [target |] eqn:Et;
    [| apply ret_inv in Hb; destruct Hb as [<- _]; now split].
  apply bind_inv in Hb. destruct Hb as [hint [r2 [_ Hb]]].
  destruct (is_type "txt" target);
    apply ret_inv in Hb; destruct Hb as [<- _]; [| now split].
  split; [| exact Hp]. cbn [encoded_files set_encoded_files].
  rewrite <- Hc. now apply (update_at_credentials _ _ target).
Qed.

(** With unique names in the plan set the registry maps a name to a
    password exactly when the file of that name carries that password. *)
Lemma credentials_with_unique_names :
  forall (ext : Externals) (plans : list FileGenerationPlan)
         (r r' : Rng) (fs : list EncodedFile) (m : Manager),
    NoDup (map filename plans) ->
    create_file_network ext plans new_manager r = Ok (fs, m) r' ->
    map original_plan fs = plans /\
    (forall f, In f fs ->
       (password f <> None <-> uses_password (encoding_method f) = true) /\
       (salt f <> None <-> encoding_method f = ENCRYPTED_FERNET)) /\
    (forall name pw,
       dict_get (passwords m) name = Some pw <->
       exists f, In f fs /\ filename (original_plan f) = name /\
                 password f = Some pw).
Proof.
  intros ext plans r r' fs m Hnd H. unfold create_file_network in H.
  apply bind_inv in H. destruct H as [s1 [r1 [H1 H]]].
  apply bind_inv in H. destruct H as [s2 [r2 [H2 H]]].
  apply bind_inv in H. destruct H as [s3 [r3 [H3 H]]].
  apply bind_inv in H. destruct H as [s6 [r6 [H6 H]]].
  apply ret_inv in H. destruct H as [H _]. inversion H; subst fs m; clear H.
  assert (Hinv : encoded_upto plans s1).
  { apply (encode_loop ext (documents_of plans) (spreadsheets_of plans)
             (images_of plans) plans [] new_manager s1 r r1);
      [exact Hnd | | exact H1].
    split; [reflexivity | split; [constructor |]].
    intros name pw. split; [discriminate | intros [f [[] _]]]. }
  apply (cross_references_extend plans (unique_names_kinds_apart plans Hnd)) in H2.
  destruct H2 as [_ [Hf2 [Hp2 _]]].
  apply update_email_credentials in H3. destruct H3 as [Hf3 Hp3].
  apply distribute_hints_credentials in H6. destruct H6 as [Hf6 Hp6].
  cbn [encoded_files passwords set_encoded_files
       _update_document_content_with_references
       _update_spreadsheet_content_with_references] in Hf6, Hp6.
  assert (Hfinal : encoded_upto plans s6).
  { apply (encoded_upto_transfer plans s1); [| congruence | exact Hinv].
    rewrite Hf6, !map_map.
    rewrite (map_ext _ credentials).
    - now rewrite Hf3, Hf2.
    - intro f. now rewrite update_spreadsheet_credentials, update_document_credentials. }
  destruct Hfinal as [Hplans [Hall Hreg]].
  split; [exact Hplans | split; [| exact Hreg]].
  intros f Hf. rewrite Forall_forall in Hall.
  destruct (Hall f Hf) as [Hpw Hsalt]. split; [| exact Hsalt].
  destruct Hpw as [[Hu Hp] | [Hu [pw [Hp _]]]]; rewrite Hu, Hp; split;
    congruence.
Qed.

(** ** Where the spreadsheet pass does complete *)

Lemma length_remove_at {A} (i : nat) (l : list A) :
  i < List.length l -> List.length (remove_at i l) = List.length l - 1.
Proof.
  revert i. induction l as [| x l IH]; intros i Hi; [cbn in Hi; lia |].
  destruct i as [| i]; cbn [remove_at List.length].
  - lia.
  - cbn [List.length] in Hi. rewrite IH by lia. lia.
Qed.

Lemma sample_loop_total {A} (k : nat) :
  forall (pool : list A) (r : Rng),
    k <= List.length pool -> exists out r', sample_loop pool k r = Ok out r'.
Proof.
  induction k as [| k IH]; intros pool r Hk.
  - exists [], r. reflexivity.
  - destruct pool as [| d pool]; [cbn in Hk; lia |].
    cbn [sample_loop].
    destruct (randbelow_spec (List.length (d :: pool)) r) as [x [r1 Hx]].
    rewrite (bind_ok _ _ Hx).
    assert (Hi : x mod List.length (d :: pool) < List.length (d :: pool))
      by (apply Nat.mod_upper_bound; discriminate).
    destruct (IH (remove_at (x mod List.length (d :: pool)) (d :: pool)) r1)
      as [rest [r2 Hrest]].
    { rewrite length_remove_at by exact Hi. cbn [List.length] in *. lia. }
    rewrite (bind_ok _ _ Hrest). eexists. eexists. reflexivity.
Qed.

Lemma random_sample_total {A} (pool : list A) (k : nat) (r : Rng) :
  k <= List.length pool -> exists out r', random_sample pool k r = Ok out r'.
Proof.
  intro Hk. unfold random_sample.
  destruct (Nat.ltb_spec (List.length pool) k); [lia |].
  now apply sample_loop_total.
Qed.

(** With an empty pool, or one of two files or more, the pass returns. *)
Lemma spreadsheet_pass_completes (spreadsheets other_files : list FileGenerationPlan)
  (self : Manager) (r : Rng) :
  List.length other_files <> 1 ->
  exists self' r',
    _create_spreadsheet_references spreadsheets other_files self r = Ok self' r'.
Proof.
  intro Hlen. unfold _create_spreadsheet_references. apply for_each_total.
  intros sheet s r0 _.
  destruct other_files as [| a [| b rest]] eqn:E;
    [exists s, r0; reflexivity | cbn in Hlen; lia |].
  rewrite <- E. assert (Hn : 2 <= List.length other_files) by (subst; cbn; lia).
  clear E Hlen.
  destruct (randint_total 2 (Nat.min 4 (List.length other_files)) r0 ltac:(lia))
    as [num [r1 [Hnum Hrange]]].
  destruct other_files as [| a' rest'] eqn:E; [cbn in Hn; lia |]. rewrite <- E in *.
  rewrite (bind_ok _ _ Hnum).
  destruct (random_sample_total other_files num r1 ltac:(lia))
    as [chosen [r2 Hchosen]].
  rewrite (bind_ok _ _ Hchosen).
  apply for_each_total. intros ref_file s1 r3 _.
  destruct (random_choice_total (spreadsheet_reference_contexts ref_file) r3
              ltac:(discriminate)) as [ctx [r4 [Hctx _]]].
  rewrite (bind_ok _ _ Hctx). eexists. eexists. reflexivity.
Qed.

(** * Further properties of the module *)

(** ** The single-entry archive *)

(** X1. The password-zip-single method wraps the whole content as the one
    entry [data.bin] of an archive that opens with the reported password;
    the password is the caller's when it is non-empty and a generated,
    non-empty one otherwise. *)
Theorem zip_single_entry :
  forall (ext : Externals) (sound : ExternalsSound ext)
         (content : bytes) (supplied : option string) (r : Rng),
  exists pw z md r',
    encode_file ext content ZIP_PASSWORD supplied r = Ok (z, md) r' /\
    dict_get md "password" = Some pw /\
    pw <> EmptyString /\
    (truthy supplied = true -> supplied = Some pw) /\
    aes_zip_read ext (encode_utf8 pw) z = Some [("data.bin", content)].
Proof.
  intros ext sound content supplied r.
  destruct (chosen_password_total ext sound supplied "medium" r)
    as [pw [r0 [Hpw [Hne Hsup]]]].
  destruct (aes_zip_roundtrip ext sound ZIP_LZMA (encode_utf8 pw)
              [("data.bin", content)] r0 (encode_utf8_nonempty pw Hne))
    as [z [r' [Hw Hr]]].
  exists pw, z. eexists. exists r'.
  split.
  { cbn [encode_file]. rewrite (bind_ok _ _ Hpw), (bind_ok _ _ Hw). reflexivity. }
  split; [reflexivity | split; [exact Hne | split; [| exact Hr]]].
  intro Ht. apply (Hsup Ht).
Qed.

Lemma zip_single_entry_witness :
  exists pw z md r',
    encode_file Reference.ext (list_byte_of_string "ledger") ZIP_PASSWORD
                (Some "") [5; 6; 7] = Ok (z, md) r' /\
    dict_get md "password" = Some pw /\
    pw <> EmptyString /\
    (truthy (Some "") = true -> Some EmptyString = Some pw) /\
    aes_zip_read Reference.ext (encode_utf8 pw) z
      = Some [("data.bin", list_byte_of_string "ledger")].
Proof.
  exact (zip_single_entry Reference.ext ReferenceFacts.sound
           (list_byte_of_string "ledger") (Some "") [5; 6; 7]).
Defined.

(** ** Generated secrets *)

Lemma random_string_shape (chars : list ascii) (n : nat) :
  forall (r r' : Rng) (s : string),
    random_string chars n r = Ok s r' ->
    String.length s = n /\ Forall (fun c => In c chars) (list_ascii_of_string s).
Proof.
  induction n as [| n IH]; intros r r' s H.
  - apply ret_inv in H. destruct H as [<- _]. split; [reflexivity | constructor].
  - cbn [random_string] in H.
    apply bind_inv in H. destruct H as [c [r1 [Hc H]]].
    apply bind_inv in H. destruct H as [rest [r2 [Hrest H]]].
    apply ret_inv in H. destruct H as [<- _].
    apply random_choice_inv in Hc. destruct (IH _ _ _ Hrest) as [Hlen Hall].
    split; [cbn; now rewrite Hlen | cbn; now constructor].
Qed.

(** X2. A weak password is one of the ten listed ones; any strength other
    than ["weak"] and ["medium"] gives a strong password, which always comes
    back and has exactly 16 characters, each a letter, a digit or one of
    [!@#$%^&*]. *)
Theorem password_strength_tiers :
  forall (ext : Externals) (strength : string) (r : Rng),
    strength <> "medium" ->
    exists p r',
      generate_password ext strength r = Ok p r' /\
      (strength = "weak" -> In p weak_passwords) /\
      (strength <> "weak" ->
       String.length p = 16 /\
       Forall (fun c => In c (list_ascii_of_string strong_chars))
              (list_ascii_of_string p)).
Proof.
  intros ext strength r Hmed. unfold generate_password.
  destruct (String.eqb_spec strength "weak") as [Hweak | Hweak].
  - destruct (random_choice_total weak_passwords r ltac:(discriminate))
      as [p [r' [H Hin]]].
    exists p, r'. split; [exact H | split; [now intros _ | contradiction]].
  - destruct (String.eqb_spec strength "medium") as [E | _]; [contradiction |].
    destruct (random_string_total (list_ascii_of_string strong_chars) 16 r
                ltac:(discriminate)) as [p [r' H]].
    exists p, r'. split; [exact H | split; [contradiction |]].
    intros _. exact (random_string_shape _ _ _ _ _ H).
Qed.

Lemma password_strength_tiers_witness :
  exists p r',
    generate_password Reference.ext "strong" [3; 60; 9] = Ok p r' /\
    ("strong" = "weak" -> In p weak_passwords) /\
    ("strong" <> "weak" ->
     String.length p = 16 /\
     Forall (fun c => In c (list_ascii_of_string strong_chars))
            (list_ascii_of_string p)).
Proof.
  apply (password_strength_tiers Reference.ext "strong" [3; 60; 9]).
  discriminate.
Defined.

(** X3. An API key always comes back: one of the five prefixes followed by
    exactly 32 letters or digits. *)
Theorem api_key_shape :
  forall r : Rng,
  exists prefix key_part r',
    generate_api_key r = Ok (prefix ++ key_part)%string r' /\
    In prefix api_key_prefixes /\
    String.length key_part = 32 /\
    Forall (fun c => In c (list_ascii_of_string (ascii_letters ++ digits)%string))
           (list_ascii_of_string key_part).
Proof.
  intro r. unfold generate_api_key.
  destruct (random_choice_total api_key_prefixes r ltac:(discriminate))
    as [prefix [r1 [Hp Hin]]].
  destruct (random_string_total
              (list_ascii_of_string (ascii_letters ++ digits)%string) 32 r1
              ltac:(discriminate)) as [key_part [r2 Hk]].
  exists prefix, key_part, r2.
  split; [| split; [exact Hin | exact (random_string_shape _ _ _ _ _ Hk)]].
  rewrite (bind_ok _ _ Hp), (bind_ok _ _ Hk). reflexivity.
Qed.

(** ** The selector on every kind *)

Lemma pick_weighted_total {A} (weights : list nat) :
  forall (population : list A) (x : nat),
    x < list_sum weights -> List.length weights <= List.length population ->
    exists a, pick_weighted population weights x = Some a /\ In a population.
Proof.
  induction weights as [| w ws IH]; intros population x Hx Hlen.
  - cbn in Hx. lia.
  - destruct population as [| a ps]; [cbn in Hlen; lia |].
    cbn [pick_weighted]. destruct (Nat.ltb_spec x w) as [Hlt | Hge].
    + exists a. split; [reflexivity | now left].
    + destruct (IH ps (x - w)) as [b [Hb Hin]].
      * change (list_sum (w :: ws)) with (w + list_sum ws) in Hx. lia.
      * cbn in Hlen. lia.
      * exists b. split; [exact Hb | now right].
Qed.

Lemma random_choices_total {A} (population : list A) (weights : list nat) (r : Rng) :
  list_sum weights <> 0 -> List.length weights <= List.length population ->
  exists a x r',
    random_choices population weights r = Ok a r' /\
    x < list_sum weights /\ pick_weighted population weights x = Some a.
Proof.
  intros Hsum Hlen. unfold random_choices.
  destruct (Nat.eqb_spec (list_sum weights) 0) as [E | _]; [contradiction |].
  destruct (randbelow_spec (list_sum weights) r) as [x [r' Hx]].
  rewrite (bind_ok _ _ Hx).
  assert (Hlt : x mod list_sum weights < list_sum weights)
    by (now apply Nat.mod_upper_bound).
  destruct (pick_weighted_total weights population _ Hlt Hlen) as [a [Ha _]].
  exists a, (x mod list_sum weights), r'. rewrite Ha. now repeat split.
Qed.

(** X4. The selector returns a method for every file type, known or not;
    for a type outside the eight the module names, the method is never one
    of the two password archives, whose weight there is zero. *)
Theorem selector_returns_and_spares_unknown_kinds :
  forall (ftype : string) (r : Rng),
  exists method r',
    _choose_encoding_method ftype r = Ok method r' /\
    (Py.mem ftype ["pdf"; "jpg"; "png"; "eml"; "docx"; "xlsx"; "csv"; "txt"] = false ->
     method <> ZIP_PASSWORD /\ method <> ZIP_ENCRYPTED).
Proof.
  intros ftype r. unfold _choose_encoding_method.
  assert (Hknown : forall k,
             In k ["pdf"; "jpg"; "png"; "eml"; "docx"; "xlsx"; "csv"; "txt"] ->
             String.eqb ftype k = true ->
             Py.mem ftype ["pdf"; "jpg"; "png"; "eml"; "docx"; "xlsx"; "csv"; "txt"]
             = false -> False).
  { intros k Hk E Hm. apply String.eqb_eq in E. subst ftype.
    assert (Hin : Py.mem k ["pdf"; "jpg"; "png"; "eml"; "docx"; "xlsx"; "csv"; "txt"]
                  = true) by (now apply mem_In).
    congruence. }
  remember (Py.mem ftype ["pdf"; "jpg"; "png"; "eml"; "docx"; "xlsx"; "csv"; "txt"])
    as known eqn:Eknown.
  clear Eknown.
  destruct (String.eqb ftype "pdf") eqn:Epdf.
  { exists NONE, r. split; [reflexivity | intro Hm; exfalso].
    apply (Hknown "pdf"); [cbn; auto 10 | exact Epdf | exact Hm]. }
  unfold Py.mem at 1. cbn [existsb].
  destruct (String.eqb ftype "jpg") eqn:Ejpg.
  { exists NONE, r. split; [reflexivity | intro Hm; exfalso].
    apply (Hknown "jpg"); [cbn; auto 10 | exact Ejpg | exact Hm]. }
  destruct (String.eqb ftype "png") eqn:Epng.
  { exists NONE, r. split; [reflexivity | intro Hm; exfalso].
    apply (Hknown "png"); [cbn; auto 10 | exact Epng | exact Hm]. }
  cbn [orb].
  destruct (String.eqb ftype "eml") eqn:Eeml.
  { exists NONE, r. split; [reflexivity | intro Hm; exfalso].
    apply (Hknown "eml"); [cbn; auto 10 | exact Eeml | exact Hm]. }
  destruct (String.eqb ftype "docx") eqn:Edocx.
  { destruct (random_choices_total all_methods [300; 200; 100; 100; 200; 50; 50] r
                ltac:(discriminate) ltac:(unfold all_methods; cbn; lia)) as [m [x [r' [H _]]]].
    exists m, r'. split; [exact H | intro Hm; exfalso].
    apply (Hknown "docx"); [cbn; auto 10 | exact Edocx | exact Hm]. }
  unfold Py.mem. cbn [existsb].
  destruct (String.eqb ftype "xlsx") eqn:Exlsx.
  { destruct (random_choices_total all_methods [200; 200; 100; 100; 100; 200; 100] r
                ltac:(discriminate) ltac:(unfold all_methods; cbn; lia)) as [m [x [r' [H _]]]].
    exists m, r'. split; [exact H | intro Hm; exfalso].
    apply (Hknown "xlsx"); [cbn; auto 10 | exact Exlsx | exact Hm]. }
  destruct (String.eqb ftype "csv") eqn:Ecsv.
  { destruct (random_choices_total all_methods [200; 200; 100; 100; 100; 200; 100] r
                ltac:(discriminate) ltac:(unfold all_methods; cbn; lia)) as [m [x [r' [H _]]]].
    exists m, r'. split; [exact H | intro Hm; exfalso].
    apply (Hknown "csv"); [cbn; auto 10 | exact Ecsv | exact Hm]. }
  cbn [orb].
  destruct (String.eqb ftype "txt") eqn:Etxt.
  { destruct (random_choices_total all_methods [300; 300; 200; 100; 50; 30; 20] r
                ltac:(discriminate) ltac:(unfold all_methods; cbn; lia)) as [m [x [r' [H _]]]].
    exists m, r'. split; [exact H | intro Hm; exfalso].
    apply (Hknown "txt"); [cbn; auto 10 | exact Etxt | exact Hm]. }
  destruct (random_choices_total all_methods [500; 200; 100; 100; 100; 0; 0] r
              ltac:(discriminate) ltac:(unfold all_methods; cbn; lia)) as [m [x [r' [H [Hx Hpick]]]]].
  exists m, r'. split; [exact H | intros _].
  cbn in Hx. unfold all_methods in Hpick.
  cbn [pick_weighted] in Hpick.
  repeat match type of Hpick with
         | context [?a <? ?b] => destruct (Nat.ltb_spec a b)
         end;
    try (inversion Hpick; subst m; split; discriminate); try lia; discriminate.
Qed.

(** X5. For the kinds the selector draws for (docx, xlsx, csv, txt) every
    one of the seven methods can come out: some draw selects it. *)
Theorem every_method_is_reachable :
  forall (ftype : string) (method : EncodingMethod),
    In ftype ["docx"; "xlsx"; "csv"; "txt"] ->
    exists x : nat, _choose_encoding_method ftype [x] = Ok method [].
Proof.
  intros ftype method Hin.
  destruct Hin as [<- | [<- | [<- | [<- | []]]]]; destruct method;
    first [ exists 0; reflexivity | exists 200; reflexivity
          | exists 300; reflexivity | exists 400; reflexivity
          | exists 500; reflexivity | exists 600; reflexivity
          | exists 700; reflexivity | exists 800; reflexivity
          | exists 900; reflexivity | exists 950; reflexivity
          | exists 980; reflexivity ].
Qed.

Lemma every_method_is_reachable_witness :
  exists x : nat, _choose_encoding_method "csv" [x] = Ok ZIP_ENCRYPTED [].
Proof.
  apply (every_method_is_reachable "csv" ZIP_ENCRYPTED).
  right. right. now left.
Defined.

(** ** Counting by key *)

Section Counting.

Context {A : Type}.
Variable key : A -> string.

Let tally (d : dict nat) (xs : list A) : dict nat :=
  fold_left (fun d x => count_one d (key x)) xs d.

Let occurrences (k : string) (xs : list A) : nat :=
  List.length (filter (fun x => String.eqb (key x) k) xs).

Lemma tally_get (xs : list A) :
  forall (d : dict nat) (k : string),
    dict_get (tally d xs) k
    = match dict_get d k with
      | Some n => Some (n + occurrences k xs)
      | None => if occurrences k xs =? 0 then None else Some (occurrences k xs)
      end.
Proof.
  unfold tally, occurrences.
  induction xs as [| x xs IH]; intros d k; cbn [fold_left filter].
  - cbn. destruct (dict_get d k); [now rewrite Nat.add_0_r | reflexivity].
  - rewrite IH. unfold count_one. rewrite dict_get_set.
    rewrite (String.eqb_sym k (key x)).
    destruct (String.eqb_spec (key x) k) as [-> | Hne]; cbn [List.length].
    + destruct (dict_get d k); cbn [Nat.eqb]; f_equal; lia.
    + reflexivity.
Qed.

Lemma sum_dict_set (d : dict nat) (k : string) :
  list_sum (map snd (count_one d k)) = list_sum (map snd d) + 1.
Proof.
  unfold count_one. induction d as [| [k0 n0] d IH]; cbn [dict_get dict_set].
  - reflexivity.
  - destruct (String.eqb k k0) eqn:E; cbn [map snd].
    + change (list_sum (?a :: ?l)) with (a + list_sum l). lia.
    + change (list_sum (?a :: ?l)) with (a + list_sum l).
      rewrite IH. lia.
Qed.

Lemma tally_sum (xs : list A) :
  forall d, list_sum (map snd (tally d xs)) = list_sum (map snd d) + List.length xs.
Proof.
  unfold tally. induction xs as [| x xs IH]; intro d; cbn [fold_left List.length].
  - lia.
  - rewrite IH, sum_dict_set. lia.
Qed.

End Counting.

Lemma method_value_eqb (a b : EncodingMethod) :
  String.eqb (method_value a) (method_value b) = method_eqb a b.
Proof. destruct a, b; reflexivity. Qed.

(** X6. The encoding summary lists, under each method's name, the number of
    encoded files that use it, has no entry for a method no file uses, and
    its counts add up to the number of encoded files. *)
Theorem encoding_summary_counts :
  forall (self : Manager) (method : EncodingMethod),
    dict_get (get_encoding_summary self) (method_value method)
    = (let n := List.length
                  (filter (fun f => method_eqb (encoding_method f) method)
                          (encoded_files self)) in
       if n =? 0 then None else Some n) /\
    list_sum (map snd (get_encoding_summary self))
    = List.length (encoded_files self).
Proof.
  intros self method. unfold get_encoding_summary. split.
  - rewrite (tally_get (fun f => method_value (encoding_method f))). cbn [dict_get].
    rewrite (filter_ext _ (fun f => method_eqb (encoding_method f) method));
      [reflexivity |].
    intro f. apply method_value_eqb.
  - now rewrite (tally_sum (fun f => method_value (encoding_method f))).
Qed.

(** ** When the graph builder returns *)

Lemma random_permille_total (r : Rng) : exists x r', random_permille r = Ok x r'.
Proof.
  destruct (randbelow_spec 1000 r) as [x [r' H]]. exists (x mod 1000), r'. exact H.
Qed.

Lemma sample_upto_total {A} (pool : list A) (most : nat) (r : Rng) :
  pool <> [] -> 1 <= most ->
  exists num r1 chosen r2,
    randint 1 (Nat.min most (List.length pool)) r = Ok num r1 /\
    random_sample pool num r1 = Ok chosen r2.
Proof.
  intros Hne Hmost.
  assert (Hlen : 1 <= List.length pool) by (destruct pool; [congruence | cbn; lia]).
  destruct (randint_total 1 (Nat.min most (List.length pool)) r ltac:(lia))
    as [num [r1 [Hn Hrange]]].
  destruct (random_sample_total pool num r1 ltac:(lia)) as [chosen [r2 Hs]].
  now exists num, r1, chosen, r2.
Qed.

Lemma email_attachments_total (emails other_files : list FileGenerationPlan)
  (self : Manager) (r : Rng) :
  exists self' r', _create_email_attachments emails other_files self r = Ok self' r'.
Proof.
  unfold _create_email_attachments. apply for_each_total. intros email s r0 _.
  destruct (0 <? List.length other_files) eqn:E; [| exists s, r0; reflexivity].
  apply Nat.ltb_lt in E.
  destruct (sample_upto_total other_files 6 r0) as [num [r1 [atts [r2 [Hn Hs]]]]];
    [destruct other_files; [cbn in E; lia | discriminate] | lia |].
  rewrite (bind_ok _ _ Hn), (bind_ok _ _ Hs).
  apply for_each_total. intros att s1 r3 _.
  destruct (random_choice_total (attachment_contexts att) r3 ltac:(discriminate))
    as [ctx [r4 [Hc _]]].
  rewrite (bind_ok _ _ Hc).
  destruct (random_permille_total r4) as [x [r5 Hx]]. rewrite (bind_ok _ _ Hx).
  destruct (x <? 300); eexists; eexists; reflexivity.
Qed.

Lemma image_embeddings_total (documents images : list FileGenerationPlan)
  (self : Manager) (r : Rng) :
  exists self' r',
    _create_document_image_embeddings documents images self r = Ok self' r'.
Proof.
  unfold _create_document_image_embeddings. apply for_each_total.
  intros document s r0 _.
  destruct (random_permille_total r0) as [x [r1 Hx]]. rewrite (bind_ok _ _ Hx).
  destruct ((x <? 600) && negb (List.length images =? 0)) eqn:E;
    [| exists s, r1; reflexivity].
  apply andb_true_iff in E. destruct E as [_ E].
  apply negb_true_iff, Nat.eqb_neq in E.
  destruct (sample_upto_total images 3 r1) as [num [r2 [chosen [r3 [Hn Hs]]]]];
    [destruct images; [cbn in E; lia | discriminate] | lia |].
  rewrite (bind_ok _ _ Hn), (bind_ok _ _ Hs).
  apply for_each_total. intros image s1 r4 _. eexists. eexists. reflexivity.
Qed.

Lemma document_references_total (documents : list FileGenerationPlan)
  (self : Manager) (r : Rng) :
  exists self' r', _create_document_references documents self r = Ok self' r'.
Proof.
  unfold _create_document_references. apply for_each_total. intros doc s r0 _.
  destruct (filter (other_name doc) documents) as [| d ds] eqn:E;
    [exists s, r0; reflexivity |].
  destruct (sample_upto_total (d :: ds) 3 r0) as [num [r1 [chosen [r2 [Hn Hs]]]]];
    [discriminate | lia |].
  rewrite (bind_ok _ _ Hn), (bind_ok _ _ Hs).
  apply for_each_total. intros ref_doc s1 r3 _.
  destruct (random_choice_total (document_reference_types ref_doc) r3
              ltac:(discriminate)) as [ctx [r4 [Hc _]]].
  rewrite (bind_ok _ _ Hc). eexists. eexists. reflexivity.
Qed.

Lemma password_references_total (files : list FileGenerationPlan)
  (self : Manager) (r : Rng) :
  exists self' r', _create_password_references files self r = Ok self' r'.
Proof.
  unfold _create_password_references. apply for_each_total.
  intros protected_file s r0 _. cbv beta zeta.
  destruct (random_permille_total r0) as [x [r1 Hx]]. rewrite (bind_ok _ _ Hx).
  destruct (x <? 700); [| exists s, r1; reflexivity].
  match goal with
  | |- context [filter ?P files] => destruct (filter P files) as [| c cs]
  end; [exists s, r1; reflexivity |].
  destruct (random_choice_total (c :: cs) r1 ltac:(discriminate))
    as [container [r2 [Hc _]]].
  rewrite (bind_ok _ _ Hc). eexists. eexists. reflexivity.
Qed.

Lemma backup_references_total (documents spreadsheets : list FileGenerationPlan)
  (self : Manager) (r : Rng) :
  exists self' r',
    _create_backup_references documents spreadsheets self r = Ok self' r'.
Proof.
  unfold _create_backup_references. apply for_each_total. intros doc s r0 _.
  destruct spreadsheets as [| c cs]; [exists s, r0; reflexivity |].
  destruct (random_choice_total (c :: cs) r0 ltac:(discriminate))
    as [backup [r1 [Hc _]]].
  rewrite (bind_ok _ _ Hc). eexists. eexists. reflexivity.
Qed.

Lemma data_references_total (spreadsheets documents : list FileGenerationPlan)
  (self : Manager) (r : Rng) :
  exists self' r',
    _create_data_references spreadsheets documents self r = Ok self' r'.
Proof.
  unfold _create_data_references. apply for_each_total. intros sheet s r0 _.
  destruct documents as [| c cs]; [exists s, r0; reflexivity |].
  destruct (random_choice_total (c :: cs) r0 ltac:(discriminate))
    as [source_doc [r1 [Hc _]]].
  rewrite (bind_ok _ _ Hc). eexists. eexists. reflexivity.
Qed.

Lemma assign_projects_total (all_files : list FileGenerationPlan) (r : Rng) :
  exists d r', assign_projects all_files r = Ok d r'.
Proof.
  unfold assign_projects. apply for_each_total. intros file d r0 _.
  destruct (random_permille_total r0) as [x [r1 Hx]]. rewrite (bind_ok _ _ Hx).
  destruct (x <? 700); [| exists d, r1; reflexivity].
  destruct (random_choice_total project_names r1 ltac:(discriminate))
    as [project [r2 [Hp _]]].
  rewrite (bind_ok _ _ Hp). eexists. eexists. reflexivity.
Qed.

Lemma project_references_total (all_files : list FileGenerationPlan)
  (self : Manager) (r : Rng) :
  exists self' r', _create_project_references all_files self r = Ok self' r'.
Proof.
  unfold _create_project_references.
  destruct (assign_projects_total all_files r) as [d [r1 Hd]].
  rewrite (bind_ok _ _ Hd).
  apply for_each_total. intros [project files] s r0 _.
  destruct (1 <? List.length files); [| exists s, r0; reflexivity].
  apply for_each_total. intros file s1 r2 _.
  destruct (filter (other_name file) files) as [| c cs];
    [exists s1, r2; reflexivity |].
  destruct (sample_upto_total (c :: cs) 2 r2) as [num [r3 [chosen [r4 [Hn Hs]]]]];
    [discriminate | lia |].
  rewrite (bind_ok _ _ Hn), (bind_ok _ _ Hs).
  apply for_each_total. intros ref_file s2 r5 _. eexists. eexists. reflexivity.
Qed.

(** X7. The nine relation passes, run in order, return exactly when the plan
    set has no spreadsheet or the pool of documents and images does not hold
    exactly one file; in the remaining case the spreadsheet pass raises and
    the builder with it. *)
Theorem graph_builder_returns_unless_single_target :
  forall (plans : list FileGenerationPlan) (self : Manager) (r : Rng),
    (exists self' r', create_cross_references plans self r = Ok self' r') <->
    (spreadsheets_of plans = [] \/
     List.length (documents_of plans ++ images_of plans) <> 1).
Proof.
  intros plans self r. unfold create_cross_references.
  destruct (email_attachments_total (emails_of plans)
              (documents_of plans ++ spreadsheets_of plans ++ images_of plans)
              self r) as [s1 [r1 H1]].
  destruct (image_embeddings_total (documents_of plans) (images_of plans) s1 r1)
    as [s2 [r2 H2]].
  destruct (document_references_total (documents_of plans) s2 r2) as [s3 [r3 H3]].
  rewrite (bind_ok _ _ H1), (bind_ok _ _ H2), (bind_ok _ _ H3).
  split.
  - intros [self' [r' H]].
    destruct (spreadsheets_of plans) as [| sheet sheets]; [now left |].
    right. intro Hlen.
    destruct (documents_of plans ++ images_of plans) as [| t [| t' ts]];
      [discriminate | | discriminate].
    discriminate H.
  - intro Hcond.
    assert (H4 : exists s4 r4,
               _create_spreadsheet_references (spreadsheets_of plans)
                 (documents_of plans ++ images_of plans) s3 r3 = Ok s4 r4).
    { destruct Hcond as [E | Hlen].
      - rewrite E. exists s3, r3. reflexivity.
      - now apply spreadsheet_pass_completes. }
    destruct H4 as [s4 [r4 H4]]. rewrite (bind_ok _ _ H4).
    destruct (password_references_total plans s4 r4) as [s5 [r5 H5]].
    rewrite (bind_ok _ _ H5).
    destruct (backup_references_total (documents_of plans) (spreadsheets_of plans)
                s5 r5) as [s6 [r6 H6]].
    rewrite (bind_ok _ _ H6).
    destruct (data_references_total (spreadsheets_of plans) (documents_of plans)
                s6 r6) as [s7 [r7 H7]].
    rewrite (bind_ok _ _ H7).
    destruct (project_references_total plans s7 r7) as [s8 [r8 H8]].
    rewrite (bind_ok _ _ H8).
    apply version_pass_total.
Qed.

(** ** What each pass appends *)

Lemma appends_refl (P : FileReference -> Prop) (s : Manager) : appends_edges P s s.
Proof. exists []. split; [now rewrite app_nil_r | constructor]. Qed.

Lemma appends_trans (P : FileReference -> Prop) (s1 s2 s3 : Manager) :
  appends_edges P s1 s2 -> appends_edges P s2 s3 -> appends_edges P s1 s3.
Proof.
  intros [n1 [E1 F1]] [n2 [E2 F2]]. exists (n1 ++ n2). split.
  - now rewrite E2, E1, app_assoc.
  - apply Forall_app. now split.
Qed.

Lemma appends_one (P : FileReference -> Prop) (s0 s : Manager) (ref : FileReference) :
  appends_edges P s0 s -> P ref -> appends_edges P s0 (append_reference s ref).
Proof.
  intros H Href. eapply appends_trans; [exact H |].
  exists [ref]. split; [reflexivity | now constructor].
Qed.

Lemma appends_weaken (P Q : FileReference -> Prop) (s s' : Manager) :
  (forall ref, P ref -> Q ref) -> appends_edges P s s' -> appends_edges Q s s'.
Proof.
  intros HPQ [new [E F]]. exists new. split; [exact E |].
  eapply Forall_impl; eauto.
Qed.

(** A loop whose every turn appends one edge, the [i]-th built from the
    [i]-th element. *)
Lemma for_each_one_edge {A} (P : A -> FileReference -> Prop)
  (body : A -> Manager -> M Manager) (xs : list A) :
  (forall x s r s' r', In x xs -> body x s r = Ok s' r' ->
     exists ref, s' = append_reference s ref /\ P x ref) ->
  forall s r s' r', for_each xs body s r = Ok s' r' ->
    exists new, file_references s' = file_references s ++ new /\
                Forall2 P xs new.
Proof.
  induction xs as [| x xs IH]; intros Hbody s r s' r' H.
  - apply ret_inv in H. destruct H as [<- _].
    exists []. split; [now rewrite app_nil_r | constructor].
  - cbn [for_each] in H. apply bind_inv in H. destruct H as [s1 [r1 [H1 H]]].
    destruct (Hbody x s r s1 r1 (or_introl eq_refl) H1) as [ref [-> Href]].
    destruct (IH (fun y t rt t' rt' Hy => Hbody y t rt t' rt' (or_intror Hy))
                 _ _ _ _ H) as [new [E F]].
    exists (ref :: new). split; [| now constructor].
    rewrite E. cbn. now rewrite <- app_assoc.
Qed.

Lemma for_each_unchanged {A S} (body : A -> S -> M S) (xs : list A) :
  (forall x s r s' r', In x xs -> body x s r = Ok s' r' -> s' = s) ->
  forall s r s' r', for_each xs body s r = Ok s' r' -> s' = s.
Proof.
  intros Hbody s r s' r' H.
  eapply (for_each_invariant (fun t => t = s)); [| reflexivity | exact H].
  intros x t rt t' rt' Hx -> Hb. eapply Hbody; eauto.
Qed.

(** X8. The backup pass always returns. With no spreadsheet it leaves the
    references as they are; otherwise it appends one [backup] edge for each
    of the first [len(documents) // 3] documents, in order, from that
    document to one of the spreadsheets, with the context
    [Backup data stored in: <spreadsheet>]. *)
Theorem backup_pass_edges :
  forall (documents spreadsheets : list FileGenerationPlan)
         (self : Manager) (r : Rng),
  exists self' r' new,
    _create_backup_references documents spreadsheets self r = Ok self' r' /\
    file_references self' = file_references self ++ new /\
    (spreadsheets = [] -> new = []) /\
    (spreadsheets <> [] ->
     Forall2 (fun doc ref =>
                source_file ref = filename doc /\
                reference_type ref = "backup" /\
                In (target_file ref) (map filename spreadsheets) /\
                context ref
                = ("Backup data stored in: " ++ target_file ref)%string)
             (firstn (List.length documents / 3) documents) new).
Proof.
  intros documents spreadsheets self r.
  destruct (backup_references_total documents spreadsheets self r)
    as [self' [r' H]].
  exists self', r'. unfold _create_backup_references in H.
  destruct spreadsheets as [| c cs].
  - exists []. split; [exact H |].
    apply for_each_unchanged in H;
      [| intros x s r0 s' r0' _ Hb; apply ret_inv in Hb; now destruct Hb].
    subst self'. rewrite app_nil_r. repeat split; congruence.
  - eapply for_each_one_edge in H as Hnew.
    + destruct Hnew as [new [E F]]. exists new.
      split; [exact H | split; [exact E | split; [discriminate | intros _; exact F]]].
    + intros doc s r0 s' r0' _ Hb. cbv beta in Hb.
      apply bind_inv in Hb. destruct Hb as [backup [r1 [Hc Hb]]].
      apply random_choice_inv in Hc.
      apply ret_inv in Hb. destruct Hb as [<- _].
      eexists. split; [reflexivity |].
      cbn [source_file reference_type target_file context].
      repeat split. exact (in_map filename _ _ Hc).
Qed.

(** X9. The data pass always returns. With no document it leaves the
    references as they are; otherwise it appends one [data] edge for each of
    the first [len(spreadsheets) // 2] spreadsheets, in order, from that
    spreadsheet to one of the documents, with the context
    [Data source: <document>]. *)
Theorem data_pass_edges :
  forall (spreadsheets documents : list FileGenerationPlan)
         (self : Manager) (r : Rng),
  exists self' r' new,
    _create_data_references spreadsheets documents self r = Ok self' r' /\
    file_references self' = file_references self ++ new /\
    (documents = [] -> new = []) /\
    (documents <> [] ->
     Forall2 (fun sheet ref =>
                source_file ref = filename sheet /\
                reference_type ref = "data" /\
                In (target_file ref) (map filename documents) /\
                context ref = ("Data source: " ++ target_file ref)%string)
             (firstn (List.length spreadsheets / 2) spreadsheets) new).
Proof.
  intros spreadsheets documents self r.
  destruct (data_references_total spreadsheets documents self r)
    as [self' [r' H]].
  exists self', r'. unfold _create_data_references in H.
  destruct documents as [| c cs].
  - exists []. split; [exact H |].
    apply for_each_unchanged in H;
      [| intros x s r0 s' r0' _ Hb; apply ret_inv in Hb; now destruct Hb].
    subst self'. rewrite app_nil_r. repeat split; congruence.
  - eapply for_each_one_edge in H as Hnew.
    + destruct Hnew as [new [E F]]. exists new.
      split; [exact H | split; [exact E | split; [discriminate | intros _; exact F]]].
    + intros sheet s r0 s' r0' _ Hb. cbv beta in Hb.
      apply bind_inv in Hb. destruct Hb as [source_doc [r1 [Hc Hb]]].
      apply random_choice_inv in Hc.
      apply ret_inv in Hb. destruct Hb as [<- _].
      eexists. split; [reflexivity |].
      cbn [source_file reference_type target_file context].
      repeat split. exact (in_map filename _ _ Hc).
Qed.

(** ** Version edges link versions only *)

Lemma dict_set_In_key {V} (d : dict V) (k0 k : string) (v l : V) :
  In (k, l) (dict_set d k0 v) -> (k = k0 /\ l = v) \/ In (k, l) d.
Proof.
  induction d as [| [k1 v1] d IH]; cbn [dict_set].
  - intros [E | []]. left. inversion E. now split.
  - destruct (String.eqb_spec k0 k1) as [-> | Hne].
    + intros [E | Hin]; [left; inversion E; now split | right; now right].
    + intros [E | Hin]; [right; now left |].
      destruct (IH Hin) as [Hk | Hd]; [now left | right; now right].
Qed.

Section VersionSoundness.

Variable all_files : list FileGenerationPlan.

Let keyed (d : dict (list FileGenerationPlan)) : Prop :=
  forall k l, In (k, l) d ->
  forall f, In f l -> In f all_files /\ base_name_of (filename f) = k.

Lemma group_by_base_name_keyed : keyed (group_by_base_name all_files).
Proof.
  unfold group_by_base_name.
  assert (H : forall files d, incl files all_files -> keyed d ->
              keyed (fold_left (fun base_names file =>
                                  dict_append base_names
                                    (base_name_of (filename file)) file)
                               files d)).
  { induction files as [| file files IH]; intros d Hfiles Hd; [exact Hd |].
    cbn [fold_left]. apply IH; [intros x Hx; apply Hfiles; now right |].
    intros k l Hin f Hf. unfold dict_append in Hin.
    assert (Hfile : In file all_files) by (apply Hfiles; now left).
    destruct (dict_get d (base_name_of (filename file))) as [old |] eqn:E;
      apply dict_set_In_key in Hin; destruct Hin as [[-> ->] | Hin];
      try (eapply Hd; eassumption).
    - apply in_app_or in Hf. destruct Hf as [Hf | [<- | []]].
      + apply dict_get_In in E. eapply Hd; eassumption.
      + now split.
    - destruct Hf as [<- | []]. now split. }
  apply H; [apply incl_refl | intros k l []].
Qed.

Lemma version_references_sound (self self' : Manager) (r r' : Rng) :
  _create_version_references all_files self r = Ok self' r' ->
  appends_edges (version_edge all_files) self self'.
Proof.
  unfold _create_version_references. intro H.
  eapply for_each_invariant; [| apply appends_refl | exact H].
  intros [base_name files] s r0 s' r0' Hgroup Hs Hb. cbv beta iota in Hb.
  pose proof (group_by_base_name_keyed _ _ Hgroup) as Hkey.
  destruct (1 <? _); [| apply ret_inv in Hb; destruct Hb as [<- _]; exact Hs].
  eapply for_each_invariant; [| exact Hs | exact Hb].
  intros file s1 r2 s1' r2' Hfile Hs1 Hb1. cbv beta in Hb1.
  eapply for_each_invariant; [| exact Hs1 | exact Hb1].
  intros other_file s2 r5 s2' r5' Hother Hs2 Hb2.
  apply bind_inv in Hb2. destruct Hb2 as [ctx [r6 [_ Hb2]]].
  apply ret_inv in Hb2. destruct Hb2 as [<- _].
  apply appends_one; [exact Hs2 |].
  apply filter_In in Hother. destruct Hother as [Hother Hne].
  unfold other_name in Hne. apply negb_true_iff, String.eqb_neq in Hne.
  destruct (Hkey file Hfile) as [Hf Hbf], (Hkey other_file Hother) as [Hg Hbg].
  split; [reflexivity |]. exists file, other_file.
  cbn [source_file target_file].
  split; [exact Hf | split; [exact Hg | split; [reflexivity | split;
    [reflexivity | split; [congruence | congruence]]]]].
Qed.

End VersionSoundness.

(** X10. Whatever the version pass appends is a [version_reference] edge
    between two files of the plan set that have different names and the same
    base name; in particular a plan set whose base names are all different
    gets no version edge. *)
Theorem version_edges_link_versions_only :
  forall (all_files : list FileGenerationPlan) (self self' : Manager) (r r' : Rng),
    _create_version_references all_files self r = Ok self' r' ->
    exists new,
      file_references self' = file_references self ++ new /\
      Forall (version_edge all_files) new /\
      (NoDup (map (fun f => base_name_of (filename f)) all_files) -> new = []).
Proof.
  intros all_files self self' r r' H.
  destruct (version_references_sound all_files self self' r r' H) as [new [E F]].
  exists new. split; [exact E | split; [exact F |]].
  intro Hnd. destruct new as [| ref new]; [reflexivity | exfalso].
  inversion F as [| ? ? [_ [f [g [Hf [Hg [_ [_ [Hne Hbase]]]]]]]] _]; subst.
  apply In_nth_error in Hf, Hg. destruct Hf as [i Hi], Hg as [j Hj].
  assert (i = j); [| congruence].
  eapply (proj1 (NoDup_nth_error _) Hnd).
  - apply nth_error_Some. rewrite nth_error_map, Hi. discriminate.
  - rewrite !nth_error_map, Hi, Hj. cbn [option_map]. now rewrite Hbase.
Qed.

Lemma version_edges_link_versions_only_witness :
  exists new,
    file_references
      (match _create_version_references Reference.office_plans new_manager [2] with
       | Ok m _ => m
       | Raise _ => new_manager
       end)
    = file_references new_manager ++ new /\
    Forall (version_edge Reference.office_plans) new /\
    (NoDup (map (fun f => base_name_of (filename f)) Reference.office_plans) ->
     new = []).
Proof.
  apply (version_edges_link_versions_only Reference.office_plans new_manager
           _ [2] []).
  vm_compute. reflexivity.
Defined.

(** ** Password edges carry the password *)

(** X11. Whatever the password pass appends is a [password] edge whose
    target is a file of the manager that has a non-empty password, whose
    context sentence is ["Password for <target>: <that password>"], and whose
    source is a differently named plan of kind eml, txt or docx. *)
Theorem password_edges_spell_the_password :
  forall (files : list FileGenerationPlan) (self self' : Manager) (r r' : Rng),
    _create_password_references files self r = Ok self' r' ->
    exists new,
      file_references self' = file_references self ++ new /\
      Forall (password_edge files self) new /\
      Forall (fun ref =>
                exists pw, Py.contains pw (context ref) = true /\
                           In (target_file ref, pw)
                              (map (fun f => (filename (original_plan f),
                                              password_text (password f)))
                                   (encoded_files self))) new.
Proof.
  intros files self self' r r' H.
  assert (Happ : appends_edges (password_edge files self) self self').
  { unfold _create_password_references in H.
    eapply for_each_invariant; [| apply appends_refl | exact H].
    intros protected_file s r0 s' r0' Hprot Hs Hb. cbv beta zeta in Hb.
    apply bind_inv in Hb. destruct Hb as [x [r1 [_ Hb]]].
    destruct (x <? 700); [| apply ret_inv in Hb; destruct Hb as [<- _]; exact Hs].
    match type of Hb with
    | context [filter ?P files] => destruct (filter P files) as [| c cs] eqn:E
    end; [apply ret_inv in Hb; destruct Hb as [<- _]; exact Hs |].
    apply bind_inv in Hb. destruct Hb as [container [r2 [Hc Hb]]].
    apply random_choice_inv in Hc. rewrite <- E in Hc.
    apply filter_In in Hc. destruct Hc as [Hc Hcond].
    apply andb_true_iff in Hcond. destruct Hcond as [Hne Hkind].
    apply negb_true_iff, String.eqb_neq in Hne.
    apply mem_In in Hkind.
    apply ret_inv in Hb. destruct Hb as [<- _].
    apply appends_one; [exact Hs |].
    apply filter_In in Hprot. destruct Hprot as [Hin Hprot].
    apply andb_true_iff in Hprot. destruct Hprot as [Htruthy _].
    destruct (password protected_file) as [[| ch pw] |] eqn:Epw; try discriminate.
    split; [reflexivity |].
    exists protected_file, (String ch pw), container. cbn.
    repeat split; auto; discriminate. }
  destruct Happ as [new [E F]]. exists new.
  split; [exact E | split; [exact F |]].
  eapply Forall_impl; [| exact F].
  intros ref [_ [pf [pw [c [Hin [Hpw [_ [Ht [Hctx _]]]]]]]]].
  exists pw. split.
  - rewrite Hctx. find_substring.
  - apply in_map_iff. exists pf. split; [| exact Hin].
    now rewrite Hpw, Ht.
Qed.

Lemma password_edges_spell_the_password_witness :
  exists new,
    file_references
      (match _create_password_references Reference.two_texts
               Reference.before_hints [0; 1] with
       | Ok m _ => m
       | Raise _ => Reference.before_hints
       end)
    = file_references Reference.before_hints ++ new /\
    Forall (password_edge Reference.two_texts Reference.before_hints) new /\
    Forall (fun ref =>
              exists pw, Py.contains pw (context ref) = true /\
                         In (target_file ref, pw)
                            (map (fun f => (filename (original_plan f),
                                            password_text (password f)))
                                 (encoded_files Reference.before_hints))) new.
Proof.
  apply (password_edges_spell_the_password Reference.two_texts
           Reference.before_hints _ [0; 1] []).
  vm_compute. reflexivity.
Defined.

(** ** Every relation connects the kinds it is meant for *)

Section TypedEdges.

Variable plans : list FileGenerationPlan.

Let typed := typed_edge plans.

Lemma make_edge (source_kind target_kind : string -> Prop)
  (kind ctx : string) (p q : FileGenerationPlan) :
  In p plans -> In q plans ->
  source_kind (file_type p) -> target_kind (file_type q) ->
  edge_between plans source_kind target_kind kind
    {| source_file := filename p; target_file := filename q;
       reference_type := kind; context := ctx |}.
Proof.
  intros Hp Hq Hs Ht. split; [reflexivity |]. exists p, q. now repeat split.
Qed.

Lemma email_kind (p : FileGenerationPlan) :
  In p (emails_of plans) -> In p plans /\ is_email (file_type p).
Proof.
  intro H. apply in_kind in H. destruct H as [Hp [E | []]]. now split.
Qed.

Lemma attachment_kind (q : FileGenerationPlan) :
  In q (documents_of plans ++ spreadsheets_of plans ++ images_of plans) ->
  In q plans /\
  (is_document (file_type q) \/ is_spreadsheet (file_type q) \/ is_image (file_type q)).
Proof.
  intro H. repeat (apply in_app_or in H; destruct H as [H | H]);
    apply in_kind in H; destruct H as [Hq Hk]; (split; [exact Hq |]);
    [left | right; left | right; right]; exact Hk.
Qed.

Lemma email_attachments_typed (self self' : Manager) (r r' : Rng) :
  _create_email_attachments (emails_of plans)
    (documents_of plans ++ spreadsheets_of plans ++ images_of plans) self r
  = Ok self' r' ->
  appends_edges typed self self'.
Proof.
  unfold _create_email_attachments. intro H.
  eapply for_each_invariant; [| apply appends_refl | exact H].
  intros email s r0 s' r0' Hemail Hs Hb.
  apply email_kind in Hemail. destruct Hemail as [Hp Hpk].
  destruct (0 <? _); [| apply ret_inv in Hb; destruct Hb as [<- _]; exact Hs].
  apply bind_inv in Hb. destruct Hb as [num [r1 [_ Hb]]].
  apply bind_inv in Hb. destruct Hb as [attachments [r2 [Hsample Hb]]].
  apply random_sample_incl in Hsample.
  eapply for_each_invariant; [| exact Hs | exact Hb].
  intros attachment s1 r3 s1' r3' Hatt Hs1 Hb1.
  apply Hsample, attachment_kind in Hatt. destruct Hatt as [Hq Hqk].
  apply bind_inv in Hb1. destruct Hb1 as [ctx [r4 [_ Hb1]]].
  apply bind_inv in Hb1. destruct Hb1 as [x [r5 [_ Hb1]]].
  assert (Hforward : typed {| source_file := filename email;
                              target_file := filename attachment;
                              reference_type := "attachment";
                              context := ctx |})
    by (left; now apply make_edge).
  destruct (x <? 300); apply ret_inv in Hb1; destruct Hb1 as [<- _].
  - apply appends_one; [now apply appends_one |].
    right. left. now apply make_edge.
  - now apply appends_one.
Qed.

Lemma image_embeddings_typed (self self' : Manager) (r r' : Rng) :
  _create_document_image_embeddings (documents_of plans) (images_of plans) self r
  = Ok self' r' ->
  appends_edges typed self self'.
Proof.
  unfold _create_document_image_embeddings. intro H.
  eapply for_each_invariant; [| apply appends_refl | exact H].
  intros document s r0 s' r0' Hdoc Hs Hb.
  apply in_kind in Hdoc. destruct Hdoc as [Hp Hpk].
  apply bind_inv in Hb. destruct Hb as [x [r1 [_ Hb]]].
  destruct (_ && _); [| apply ret_inv in Hb; destruct Hb as [<- _]; exact Hs].
  apply bind_inv in Hb. destruct Hb as [num [r2 [_ Hb]]].
  apply bind_inv in Hb. destruct Hb as [embedded [r3 [Hsample Hb]]].
  apply random_sample_incl in Hsample.
  eapply for_each_invariant; [| exact Hs | exact Hb].
  intros image s1 r4 s1' r4' Himg Hs1 Hb1.
  apply Hsample, in_kind in Himg. destruct Himg as [Hq Hqk].
  apply ret_inv in Hb1. destruct Hb1 as [<- _].
  apply appends_one; [exact Hs1 |].
  do 2 right. left. now apply make_edge.
Qed.

Lemma document_references_typed (self self' : Manager) (r r' : Rng) :
  _create_document_references (documents_of plans) self r = Ok self' r' ->
  appends_edges typed self self'.
Proof.
  unfold _create_document_references. intro H.
  eapply for_each_invariant; [| apply appends_refl | exact H].
  intros doc s r0 s' r0' Hdoc Hs Hb. cbv beta in Hb.
  apply in_kind in Hdoc. destruct Hdoc as [Hp Hpk].
  destruct (filter (other_name doc) (documents_of plans)) as [| d others] eqn:E;
    [apply ret_inv in Hb; destruct Hb as [<- _]; exact Hs |].
  apply bind_inv in Hb. destruct Hb as [num [r1 [_ Hb]]].
  apply bind_inv in Hb. destruct Hb as [referenced [r2 [Hsample Hb]]].
  apply random_sample_incl in Hsample. rewrite <- E in Hsample.
  eapply for_each_invariant; [| exact Hs | exact Hb].
  intros ref_doc s1 r3 s1' r3' Href Hs1 Hb1.
  apply Hsample, filter_In in Href. destruct Href as [Href _].
  apply in_kind in Href. destruct Href as [Hq Hqk].
  apply bind_inv in Hb1. destruct Hb1 as [ctx [r4 [_ Hb1]]].
  apply ret_inv in Hb1. destruct Hb1 as [<- _].
  apply appends_one; [exact Hs1 |].
  do 3 right. left. now apply make_edge.
Qed.

Lemma spreadsheet_references_typed (self self' : Manager) (r r' : Rng) :
  _create_spreadsheet_references (spreadsheets_of plans)
    (documents_of plans ++ images_of plans) self r = Ok self' r' ->
  appends_edges typed self self'.
Proof.
  unfold _create_spreadsheet_references. intro H.
  eapply for_each_invariant; [| apply appends_refl | exact H].
  intros sheet s r0 s' r0' Hsheet Hs Hb. cbv beta in Hb.
  apply in_kind in Hsheet. destruct Hsheet as [Hp Hpk].
  destruct (documents_of plans ++ images_of plans) as [| d others] eqn:E;
    [apply ret_inv in Hb; destruct Hb as [<- _]; exact Hs |].
  apply bind_inv in Hb. destruct Hb as [num [r1 [_ Hb]]].
  apply bind_inv in Hb. destruct Hb as [referenced [r2 [Hsample Hb]]].
  apply random_sample_incl in Hsample. rewrite <- E in Hsample.
  eapply for_each_invariant; [| exact Hs | exact Hb].
  intros ref_file s1 r3 s1' r3' Href Hs1 Hb1.
  apply Hsample in Href.
  assert (Hq : In ref_file plans /\
               (is_document (file_type ref_file) \/ is_image (file_type ref_file))).
  { apply in_app_or in Href. destruct Href as [Href | Href];
      apply in_kind in Href; destruct Href as [Hq Hk]; (split; [exact Hq |]);
      [left | right]; exact Hk. }
  destruct Hq as [Hq Hqk].
  apply bind_inv in Hb1. destruct Hb1 as [ctx [r4 [_ Hb1]]].
  apply ret_inv in Hb1. destruct Hb1 as [<- _].
  apply appends_one; [exact Hs1 |].
  do 4 right. left. now apply make_edge.
Qed.

Lemma password_references_typed (self self' : Manager) (r r' : Rng) :
  _create_password_references plans self r = Ok self' r' ->
  appends_edges typed self self'.
Proof.
  unfold _create_password_references. intro H.
  eapply for_each_invariant; [| apply appends_refl | exact H].
  intros protected_file s r0 s' r0' Hprot Hs Hb. cbv beta zeta in Hb.
  apply bind_inv in Hb. destruct Hb as [x [r1 [_ Hb]]].
  destruct (x <? 700); [| apply ret_inv in Hb; destruct Hb as [<- _]; exact Hs].
  match type of Hb with
  | context [filter ?P plans] => destruct (filter P plans) as [| c cs] eqn:E
  end; [apply ret_inv in Hb; destruct Hb as [<- _]; exact Hs |].
  apply bind_inv in Hb. destruct Hb as [container [r2 [Hc Hb]]].
  apply random_choice_inv in Hc. rewrite <- E in Hc.
  apply filter_In in Hc. destruct Hc as [Hc Hcond].
  apply andb_true_iff in Hcond. destruct Hcond as [_ Hkind].
  apply mem_In in Hkind.
  apply ret_inv in Hb. destruct Hb as [<- _].
  apply appends_one; [exact Hs |].
  apply filter_In in Hprot. destruct Hprot as [_ Hprot].
  apply andb_true_iff in Hprot. destruct Hprot as [_ Hprot].
  apply existsb_exists in Hprot. destruct Hprot as [q [Hq Heq]].
  apply plan_eqb_filename in Heq.
  do 5 right. left. split; [reflexivity |].
  exists container, q. cbn [source_file target_file].
  repeat split; auto.
Qed.

Lemma backup_references_typed (self self' : Manager) (r r' : Rng) :
  _create_backup_references (documents_of plans) (spreadsheets_of plans) self r
  = Ok self' r' ->
  appends_edges typed self self'.
Proof.
  unfold _create_backup_references. intro H.
  eapply for_each_invariant; [| apply appends_refl | exact H].
  intros doc s r0 s' r0' Hdoc Hs Hb. cbv beta in Hb.
  apply firstn_incl, in_kind in Hdoc. destruct Hdoc as [Hp Hpk].
  destruct (spreadsheets_of plans) as [| c cs] eqn:E;
    [apply ret_inv in Hb; destruct Hb as [<- _]; exact Hs |].
  apply bind_inv in Hb. destruct Hb as [backup [r1 [Hc Hb]]].
  apply random_choice_inv in Hc. rewrite <- E in Hc.
  apply in_kind in Hc. destruct Hc as [Hq Hqk].
  apply ret_inv in Hb. destruct Hb as [<- _].
  apply appends_one; [exact Hs |].
  do 6 right. left. now apply make_edge.
Qed.

Lemma data_references_typed (self self' : Manager) (r r' : Rng) :
  _create_data_references (spreadsheets_of plans) (documents_of plans) self r
  = Ok self' r' ->
  appends_edges typed self self'.
Proof.
  unfold _create_data_references. intro H.
  eapply for_each_invariant; [| apply appends_refl | exact H].
  intros sheet s r0 s' r0' Hsheet Hs Hb. cbv beta in Hb.
  apply firstn_incl, in_kind in Hsheet. destruct Hsheet as [Hp Hpk].
  destruct (documents_of plans) as [| c cs] eqn:E;
    [apply ret_inv in Hb; destruct Hb as [<- _]; exact Hs |].
  apply bind_inv in Hb. destruct Hb as [source_doc [r1 [Hc Hb]]].
  apply random_choice_inv in Hc. rewrite <- E in Hc.
  apply in_kind in Hc. destruct Hc as [Hq Hqk].
  apply ret_inv in Hb. destruct Hb as [<- _].
  apply appends_one; [exact Hs |].
  do 7 right. left. now apply make_edge.
Qed.

Lemma project_references_typed (self self' : Manager) (r r' : Rng) :
  _create_project_references plans self r = Ok self' r' ->
  appends_edges typed self self'.
Proof.
  unfold _create_project_references. intro H.
  apply bind_inv in H. destruct H as [project_files [r1 [Hassign H]]].
  apply assign_projects_members in Hassign.
  eapply for_each_invariant; [| apply appends_refl | exact H].
  intros [project files] s r0 s' r0' Hgroup Hs Hb. cbv beta iota in Hb.
  apply Hassign in Hgroup.
  destruct (1 <? _); [| apply ret_inv in Hb; destruct Hb as [<- _]; exact Hs].
  eapply for_each_invariant; [| exact Hs | exact Hb].
  intros file s1 r2 s1' r2' Hfile Hs1 Hb1. cbv beta in Hb1.
  destruct (filter (other_name file) files) as [| c cs] eqn:E;
    [apply ret_inv in Hb1; destruct Hb1 as [<- _]; exact Hs1 |].
  apply bind_inv in Hb1. destruct Hb1 as [num [r3 [_ Hb1]]].
  apply bind_inv in Hb1. destruct Hb1 as [referenced [r4 [Hsample Hb1]]].
  apply random_sample_incl in Hsample. rewrite <- E in Hsample.
  eapply for_each_invariant; [| exact Hs1 | exact Hb1].
  intros ref_file s2 r5 s2' r5' Href Hs2 Hb2.
  apply Hsample, filter_In in Href. destruct Href as [Href _].
  apply ret_inv in Hb2. destruct Hb2 as [<- _].
  apply appends_one; [exact Hs2 |].
  do 8 right. left. apply make_edge; auto; exact I.
Qed.

Lemma version_references_typed (self self' : Manager) (r r' : Rng) :
  _create_version_references plans self r = Ok self' r' ->
  appends_edges typed self self'.
Proof.
  intro H. apply version_references_sound in H.
  eapply appends_weaken; [| exact H].
  intros ref [Hkind [f [g [Hf [Hg [Hs [Ht _]]]]]]].
  do 9 right. split; [exact Hkind |]. exists f, g. repeat split; auto.
Qed.

Lemma cross_references_typed (self self' : Manager) (r r' : Rng) :
  create_cross_references plans self r = Ok self' r' ->
  appends_edges typed self self'.
Proof.
  unfold create_cross_references. intro H.
  apply bind_inv in H. destruct H as [s1 [r1 [H1 H]]].
  apply bind_inv in H. destruct H as [s2 [r2 [H2 H]]].
  apply bind_inv in H. destruct H as [s3 [r3 [H3 H]]].
  apply bind_inv in H. destruct H as [s4 [r4 [H4 H]]].
  apply bind_inv in H. destruct H as [s5 [r5 [H5 H]]].
  apply bind_inv in H. destruct H as [s6 [r6 [H6 H]]].
  apply bind_inv in H. destruct H as [s7 [r7 [H7 H]]].
  apply bind_inv in H. destruct H as [s8 [r8 [H8 H]]].
  apply email_attachments_typed in H1.
  apply image_embeddings_typed in H2.
  apply document_references_typed in H3.
  apply spreadsheet_references_typed in H4.
  apply password_references_typed in H5.
  apply backup_references_typed in H6.
  apply data_references_typed in H7.
  apply project_references_typed in H8.
  apply version_references_typed in H.
  repeat (eapply appends_trans; [eassumption |]). apply appends_refl.
Qed.

End TypedEdges.

(** X12. Every edge the nine passes append is of one of the ten relation
    kinds and joins two plans of the kinds that relation is about: an
    attachment goes from an email to a document, spreadsheet or image and an
    [email_source] edge the other way, an embedded image from a document to
    an image, a document reference between documents, a data source from a
    spreadsheet to a document or image, a password edge out of an eml, txt
    or docx file, a backup from a document to a spreadsheet, and a [data]
    edge from a spreadsheet to a document. *)
Theorem edges_connect_the_right_kinds :
  forall (plans : list FileGenerationPlan) (self self' : Manager) (r r' : Rng),
    create_cross_references plans self r = Ok self' r' ->
    exists new,
      file_references self' = file_references self ++ new /\
      Forall (typed_edge plans) new.
Proof.
  intros plans self self' r r' H.
  exact (cross_references_typed plans self self' r r' H).
Qed.

Lemma edges_connect_the_right_kinds_witness :
  exists new,
    file_references (Reference.linked [1; 2; 3])
    = file_references new_manager ++ new /\
    Forall (typed_edge Reference.office_plans) new.
Proof.
  apply (edges_connect_the_right_kinds Reference.office_plans new_manager
           (Reference.linked [1; 2; 3]) [1; 2; 3] []).
  vm_compute. reflexivity.
Defined.

(** X13. A relation whose pool is missing leaves no trace: without images in
    the plan set no [embedded_image] edge is appended, without emails no
    [attachment] or [email_source] edge, and without spreadsheets no
    [data_source], [backup] or [data] edge. *)
Theorem missing_pools_leave_no_edges :
  forall (plans : list FileGenerationPlan) (self self' : Manager) (r r' : Rng),
    create_cross_references plans self r = Ok self' r' ->
    exists new,
      file_references self' = file_references self ++ new /\
      (images_of plans = [] ->
       Forall (fun ref => reference_type ref <> "embedded_image") new) /\
      (emails_of plans = [] ->
       Forall (fun ref => reference_type ref <> "attachment" /\
                          reference_type ref <> "email_source") new) /\
      (spreadsheets_of plans = [] ->
       Forall (fun ref => reference_type ref <> "data_source" /\
                          reference_type ref <> "backup" /\
                          reference_type ref <> "data") new).
Proof.
  intros plans self self' r r' H.
  destruct (cross_references_typed plans self self' r r' H) as [new [E F]].
  exists new. split; [exact E |].
  assert (Hpool : forall kinds p, In p plans -> In (file_type p) kinds ->
                                  filter (of_type kinds) plans = [] -> False).
  { intros kinds p Hp Hk Hempty.
    assert (Hin : In p (filter (of_type kinds) plans))
      by (apply filter_In; split; [exact Hp | now apply mem_In]).
    rewrite Hempty in Hin. destruct Hin. }
  repeat split; intro Hempty; (eapply Forall_impl; [| exact F]);
    intros ref Href; repeat split; intro Hkind;
    repeat (destruct Href as [Href | Href]);
    destruct Href as [Hk [p [q [Hp [Hq [_ [_ [Hpk Hqk]]]]]]]];
    rewrite Hkind in Hk; try discriminate Hk;
    unfold is_email, is_image, is_spreadsheet in *.
  - exact (Hpool _ q Hq Hqk Hempty).
  - apply (Hpool ["eml"] p Hp); [left; now symmetry | exact Hempty].
  - apply (Hpool ["eml"] q Hq); [left; now symmetry | exact Hempty].
  - exact (Hpool _ p Hp Hpk Hempty).
  - exact (Hpool _ q Hq Hqk Hempty).
  - exact (Hpool _ p Hp Hpk Hempty).
Qed.

Lemma missing_pools_leave_no_edges_witness :
  exists new,
    file_references
      (match create_cross_references Reference.two_texts new_manager [7; 8] with
       | Ok m _ => m
       | Raise _ => new_manager
       end)
    = file_references new_manager ++ new /\
    (images_of Reference.two_texts = [] ->
     Forall (fun ref => reference_type ref <> "embedded_image") new) /\
    (emails_of Reference.two_texts = [] ->
     Forall (fun ref => reference_type ref <> "attachment" /\
                        reference_type ref <> "email_source") new) /\
    (spreadsheets_of Reference.two_texts = [] ->
     Forall (fun ref => reference_type ref <> "data_source" /\
                        reference_type ref <> "backup" /\
                        reference_type ref <> "data") new).
Proof.
  apply (missing_pools_leave_no_edges Reference.two_texts new_manager _ [7; 8] []).
  vm_compute. reflexivity.
Defined.

(** ** The rewriting steps leave everything but text content alone *)

Lemma rewritten_refl (kinds : list string) (f : EncodedFile) : rewritten kinds f f.
Proof. now left. Qed.

Lemma rewritten_trans (kinds : list string) (f g h : EncodedFile) :
  rewritten kinds f g -> rewritten kinds g h -> rewritten kinds f h.
Proof.
  intros [-> | [Hk [c ->]]] [-> | [Hk' [c' ->]]].
  - now left.
  - right. split; [exact Hk' | now exists c'].
  - right. split; [exact Hk | now exists c].
  - right. split; [exact Hk | exists c'; now destruct f].
Qed.

Lemma rewritten_more (kinds kinds' : list string) (f g : EncodedFile) :
  incl kinds kinds' -> rewritten kinds f g -> rewritten kinds' f g.
Proof.
  intros Hincl [-> | [Hk Hc]]; [now left | right; split; [now apply Hincl | exact Hc]].
Qed.

Lemma Forall2_rewritten_trans (kinds : list string) (l1 l2 l3 : list EncodedFile) :
  Forall2 (rewritten kinds) l1 l2 -> Forall2 (rewritten kinds) l2 l3 ->
  Forall2 (rewritten kinds) l1 l3.
Proof.
  intro H. revert l3. induction H as [| f g l1 l2 Hfg _ IH]; intros l3 H23.
  - inversion H23. constructor.
  - inversion H23 as [| g' h l2' l3' Hgh Hrest]; subst.
    constructor; [eapply rewritten_trans; eauto | now apply IH].
Qed.

Lemma Forall2_rewritten_more (kinds kinds' : list string) (l l' : list EncodedFile) :
  incl kinds kinds' -> Forall2 (rewritten kinds) l l' ->
  Forall2 (rewritten kinds') l l'.
Proof.
  intros Hincl H. induction H; constructor; eauto using rewritten_more.
Qed.

Lemma map_M_Forall2 {A B} (R : A -> B -> Prop) (body : A -> M B) (l : list A) :
  (forall x r y r', In x l -> body x r = Ok y r' -> R x y) ->
  forall r l' r', map_M body l r = Ok l' r' -> Forall2 R l l'.
Proof.
  induction l as [| x l IH]; intros Hbody r l' r' H.
  - apply ret_inv in H. destruct H as [<- _]. constructor.
  - cbn [map_M] in H.
    apply bind_inv in H. destruct H as [y [r1 [Hy H]]].
    apply bind_inv in H. destruct H as [ys [r2 [Hys H]]].
    apply ret_inv in H. destruct H as [<- _].
    constructor.
    + eapply Hbody; [now left | exact Hy].
    + eapply IH; [| exact Hys]. intros z rz w rw Hz. apply Hbody. now right.
Qed.

Lemma Forall2_map_r {A} (R : A -> A -> Prop) (f : A -> A) (l : list A) :
  (forall x, R x (f x)) -> Forall2 R l (map f l).
Proof. intro H. induction l; cbn; constructor; auto. Qed.

Lemma Forall2_of_nth_error {A} (R : A -> A -> Prop) (l l' : list A) :
  List.length l' = List.length l ->
  (forall j x y, nth_error l j = Some x -> nth_error l' j = Some y -> R x y) ->
  Forall2 R l l'.
Proof.
  revert l'. induction l as [| x l IH]; intros [| y l'] Hlen H;
    try discriminate Hlen; constructor.
  - apply (H 0); reflexivity.
  - apply IH; [now injection Hlen |].
    intros j a b Ha Hb. apply (H (S j)); assumption.
Qed.

Lemma is_type_In (kind : string) (f : EncodedFile) (kinds : list string) :
  is_type kind f = true -> In kind kinds -> In (file_type (original_plan f)) kinds.
Proof. unfold is_type. intros E Hin. apply String.eqb_eq in E. now rewrite E. Qed.

Lemma update_email_rewritten (ext : Externals) (s s' : Manager) (r r' : Rng) :
  _update_email_content_with_references ext s r = Ok s' r' ->
  file_references s' = file_references s /\ passwords s' = passwords s /\
  keys s' = keys s /\
  Forall2 (rewritten ["eml"]) (encoded_files s) (encoded_files s').
Proof.
  unfold _update_email_content_with_references. intro H.
  apply bind_inv in H. destruct H as [files [r1 [Hfiles H]]].
  apply ret_inv in H. destruct H as [<- _].
  repeat split; try reflexivity. cbn [encoded_files set_encoded_files].
  eapply map_M_Forall2; [| exact Hfiles].
  intros f rf g rg _ Hb. cbv beta zeta in Hb.
  destruct (is_type "eml" f) eqn:Et;
    [| apply ret_inv in Hb; destruct Hb as [<- _]; now left].
  destruct (references_from s (filename (original_plan f)));
    [apply ret_inv in Hb; destruct Hb as [<- _]; now left |].
  apply bind_inv in Hb. destruct Hb as [custom [r2 [_ Hb]]].
  apply ret_inv in Hb. destruct Hb as [<- _].
  right. split; [eapply is_type_In; [exact Et | now left] | eexists; reflexivity].
Qed.

Lemma update_document_rewritten (s : Manager) (f : EncodedFile) :
  rewritten ["txt"] f (update_document s f).
Proof.
  unfold update_document.
  destruct (of_type ["txt"; "docx"] (original_plan f)); [| now left].
  destruct (references_from s (filename (original_plan f))); [now left |].
  destruct (is_type "txt" f) eqn:Et; [| now left].
  right. split; [eapply is_type_In; [exact Et | now left] | eexists; reflexivity].
Qed.

Lemma update_spreadsheet_rewritten (s : Manager) (f : EncodedFile) :
  rewritten ["csv"] f (update_spreadsheet s f).
Proof.
  unfold update_spreadsheet.
  destruct (of_type ["csv"] (original_plan f)) eqn:Et; [| now left].
  destruct (references_from s (filename (original_plan f))); [now left |].
  right. split; [now apply mem_In in Et | eexists; reflexivity].
Qed.

Lemma sample_loop_length {A} (k : nat) :
  forall (pool out : list A) (r r' : Rng),
    sample_loop pool k r = Ok out r' -> List.length out = k.
Proof.
  induction k as [| k IH]; intros pool out r r' H.
  - apply ret_inv in H. destruct H as [<- _]. reflexivity.
  - cbn [sample_loop] in H. destruct pool as [| d pool]; [discriminate H |].
    apply bind_inv in H. destruct H as [i [r1 [_ H]]].
    apply bind_inv in H. destruct H as [rest [r2 [Hrest H]]].
    apply ret_inv in H. destruct H as [<- _].
    cbn [List.length]. f_equal. eapply IH, Hrest.
Qed.

Lemma distribute_step_total (text_files : list nat)
  (entry : nat * (string * string)) (s : Manager) (r : Rng) :
  exists s' r', distribute_step text_files entry s r = Ok s' r'.
Proof.
  destruct entry as [i [fn pw]]. unfold distribute_step.
  destruct (nth_error text_files i) as [j |]; [| exists s, r; reflexivity].
  destruct (nth_error (encoded_files s) j) as [target |]; [| exists s, r; reflexivity].
  destruct (random_choice_total (hint_formats fn pw) r ltac:(discriminate))
    as [hint [r1 [Hh _]]].
  rewrite (bind_ok _ _ Hh).
  destruct (is_type "txt" target); eexists; eexists; reflexivity.
Qed.

Lemma distribute_hints_frame (s s' : Manager) (r r' : Rng) :
  _distribute_password_hints s r = Ok s' r' ->
  file_references s' = file_references s /\ passwords s' = passwords s /\
  keys s' = keys s.
Proof.
  unfold _distribute_password_hints. intro H.
  apply bind_inv in H. destruct H as [all_passwords [r1 [_ H]]].
  eapply (for_each_invariant
            (fun t => file_references t = file_references s /\
                      passwords t = passwords s /\ keys t = keys s));
    [| repeat split | exact H].
  intros [i [fn pw]] t rt t' rt' _ Ht Hb. unfold distribute_step in Hb.
  destruct (nth_error _ i) as [j |];
    [| apply ret_inv in Hb; destruct Hb as [<- _]; exact Ht].
  destruct (nth_error (encoded_files t) j) as [target |];
    [| apply ret_inv in Hb; destruct Hb as [<- _]; exact Ht].
  apply bind_inv in Hb. destruct Hb as [hint [r2 [_ Hb]]].
  destruct (is_type "txt" target); apply ret_inv in Hb; destruct Hb as [<- _];
    exact Ht.
Qed.

(** The distributor: where a hint can land. *)
Lemma distribute_hints_positions (s s' : Manager) (r r' : Rng) :
  _distribute_password_hints s r = Ok s' r' ->
  distributed (encoded_files s) (passwords s)
    (Nat.min (List.length (text_file_positions (encoded_files s)) / 2)
             (List.length (passwords s))) s'.
Proof.
  unfold _distribute_password_hints. intro H.
  apply bind_inv in H. destruct H as [all_passwords [r1 [Hsh H]]].
  pose proof (sample_loop_length _ _ _ _ _ Hsh) as Hlen.
  apply sample_loop_incl in Hsh.
  eapply (distribute_loop_distributed (encoded_files s) (passwords s)) in H.
  - rewrite length_firstn, Hlen in H. exact H.
  - intros e He. apply Hsh. eapply firstn_incl, He.
  - split; [reflexivity |]. intros j f f' Hf Hf'. left. congruence.
Qed.

Lemma distribute_hints_rewritten (s s' : Manager) (r r' : Rng) :
  _distribute_password_hints s r = Ok s' r' ->
  Forall2 (rewritten ["txt"]) (encoded_files s) (encoded_files s').
Proof.
  intro H. apply distribute_hints_positions in H. destruct H as [Hlen H].
  apply Forall2_of_nth_error; [exact Hlen |].
  intros j f f' Hf Hf'.
  destruct (H j f f' Hf Hf') as [-> | [_ [Et [fn [pw [hint [_ [_ [_ [_ ->]]]]]]]]]].
  - now left.
  - right. split; [eapply is_type_In; [exact Et | now left] |].
    eexists. reflexivity.
Qed.

(** X14. The four steps that run after the graph is built (email
    regeneration, the document and spreadsheet rewriters and the hint
    distributor) keep the edges, the password registry and the key registry
    as they are, add and remove no file, and change nothing of a file but
    its content, and that only for files of type eml, txt or csv: a pdf,
    docx, xlsx, jpg or png file keeps the bytes the encoder produced. *)
Theorem rewriting_touches_text_kinds_only :
  forall (ext : Externals) (self emailed final : Manager) (r r1 r2 : Rng),
    _update_email_content_with_references ext self r = Ok emailed r1 ->
    _distribute_password_hints
      (_update_spreadsheet_content_with_references
         (_update_document_content_with_references emailed)) r1
    = Ok final r2 ->
    file_references final = file_references self /\
    passwords final = passwords self /\
    keys final = keys self /\
    Forall2 (rewritten ["eml"; "txt"; "csv"])
            (encoded_files self) (encoded_files final).
Proof.
  intros ext self emailed final r r1 r2 Hemail Hhints.
  apply update_email_rewritten in Hemail.
  destruct Hemail as [Hrefs [Hpw [Hkeys Hfiles]]].
  pose proof (distribute_hints_frame _ _ _ _ Hhints) as [Hrefs' [Hpw' Hkeys']].
  apply distribute_hints_rewritten in Hhints.
  cbn [file_references passwords keys encoded_files set_encoded_files
       _update_document_content_with_references
       _update_spreadsheet_content_with_references] in *.
  repeat split; try congruence.
  eapply Forall2_rewritten_trans;
    [eapply Forall2_rewritten_more; [| exact Hfiles] |].
  { intros k [<- | []]. now left. }
  eapply Forall2_rewritten_trans;
    [| eapply Forall2_rewritten_more; [| exact Hhints]].
  2: { intros k [<- | []]. right. now left. }
  eapply Forall2_rewritten_trans.
  - eapply Forall2_rewritten_more; [| apply Forall2_map_r].
    2: { intro f. apply (update_document_rewritten emailed). }
    intros k [<- | []]. right. now left.
  - eapply Forall2_rewritten_more; [| apply Forall2_map_r].
    2: { intro f. apply update_spreadsheet_rewritten. }
    intros k [<- | []]. right. right. now left.
Qed.

Lemma rewriting_touches_text_kinds_only_witness :
  file_references (Reference.after_hints [0; 1])
  = file_references Reference.before_hints /\
  passwords (Reference.after_hints [0; 1]) = passwords Reference.before_hints /\
  keys (Reference.after_hints [0; 1]) = keys Reference.before_hints /\
  Forall2 (rewritten ["eml"; "txt"; "csv"])
          (encoded_files Reference.before_hints)
          (encoded_files (Reference.after_hints [0; 1])).
Proof.
  apply (rewriting_touches_text_kinds_only Reference.ext
           Reference.before_hints Reference.before_hints
           (Reference.after_hints [0; 1]) [0; 1] [0; 1] []);
    vm_compute; reflexivity.
Defined.

(** X15. The hint distributor always returns. A file it changed is a txt
    file among the first [n // 2] of the [n] txt and docx files, in list
    order, and among the first as many as there are registered passwords:
    with fewer than two such files, or no password, nothing changes. *)
Theorem hints_go_to_the_leading_carriers :
  forall (self : Manager) (r : Rng),
  exists self' r',
    _distribute_password_hints self r = Ok self' r' /\
    List.length (encoded_files self') = List.length (encoded_files self) /\
    (forall j before after,
       nth_error (encoded_files self) j = Some before ->
       nth_error (encoded_files self') j = Some after ->
       after <> before ->
       is_type "txt" before = true /\
       exists i,
         i < List.length (text_file_positions (encoded_files self)) / 2 /\
         i < List.length (passwords self) /\
         nth_error (text_file_positions (encoded_files self)) i = Some j) /\
    (List.length (text_file_positions (encoded_files self)) < 2 \/
     passwords self = [] ->
     self' = self).
Proof.
  intros self r.
  assert (Htotal : exists self' r', _distribute_password_hints self r = Ok self' r').
  { unfold _distribute_password_hints.
    destruct (sample_loop_total (List.length (passwords self)) (passwords self) r
                (le_n _)) as [all_passwords [r1 Hsh]].
    unfold random_shuffle. rewrite (bind_ok _ _ Hsh).
    apply for_each_total. intros entry s r0 _. apply distribute_step_total. }
  destruct Htotal as [self' [r' H]]. exists self', r'.
  split; [exact H |].
  pose proof (distribute_hints_positions _ _ _ _ H) as [Hlen Hpos].
  split; [exact Hlen |]. split.
  - intros j before after Hb Ha Hne.
    destruct (Hpos j before after Hb Ha) as [-> | [[i [Hi Hj]] [Et _]]];
      [contradiction |].
    split; [exact Et |]. exists i. repeat split; [lia | lia | exact Hj].
  - intro Hfew.
    assert (Hnone : Nat.min (List.length (text_file_positions (encoded_files self)) / 2)
                            (List.length (passwords self)) = 0).
    { destruct Hfew as [Hfew | Hfew].
      - rewrite Nat.div_small by exact Hfew. reflexivity.
      - rewrite Hfew. cbn [List.length]. apply Nat.min_0_r. }
    rewrite Hnone in Hpos.
    assert (Hfiles : encoded_files self' = encoded_files self).
    { apply nth_error_ext. intro j.
      destruct (nth_error (encoded_files self) j) as [f |] eqn:Ef.
      - destruct (nth_error (encoded_files self') j) as [f' |] eqn:Ef'.
        + destruct (Hpos j f f' Ef Ef') as [-> | [[i [Hi _]] _]]; [reflexivity | lia].
        + apply nth_error_None in Ef'.
          assert (j < List.length (encoded_files self))
            by (apply nth_error_Some; congruence).
          lia.
      - apply nth_error_None in Ef. apply nth_error_None. lia. }
    destruct (distribute_hints_frame _ _ _ _ H) as [Hr [Hp Hk]].
    destruct self, self'. cbn in *. congruence.
Qed.

(** ** What the document and spreadsheet rewriters write *)

Lemma encode_utf8_app (a b : string) :
  encode_utf8 (a ++ b)%string = encode_utf8 a ++ encode_utf8 b.
Proof.
  unfold encode_utf8. induction a as [| c a IH]; [reflexivity |].
  change (list_byte_of_string (String c a ++ b)%string)
    with (byte_of_ascii c :: list_byte_of_string (a ++ b)%string).
  now rewrite IH.
Qed.

Lemma encode_decode_utf8 (b : bytes) :
  encode_utf8 (Py.decode_utf8_ignore b) = Py.utf8_wellformed_part b.
Proof.
  unfold encode_utf8, Py.decode_utf8_ignore.
  apply list_byte_of_string_of_list_byte.
Qed.

Lemma utf8_ascii (b : bytes) :
  ascii_only b = true -> Py.utf8_wellformed_part b = b.
Proof.
  induction b as [| c b IH]; [reflexivity |].
  cbn [ascii_only forallb]. intro H. apply andb_true_iff in H.
  destruct H as [Hc Hb]. cbn [Py.utf8_wellformed_part].
  rewrite Hc. f_equal. now apply IH.
Qed.

Lemma fold_section (refs : list FileReference) (acc : string) :
  encode_utf8
    (fold_left (fun additional_content ref =>
                  (additional_content ++ "- " ++ context ref ++ nl)%string)
               refs acc)
  = encode_utf8 acc
    ++ List.concat (map (fun ref => encode_utf8 ("- " ++ context ref ++ nl)%string) refs).
Proof.
  revert acc. induction refs as [| ref refs IH]; intro acc.
  - cbn. now rewrite app_nil_r.
  - cbn [fold_left map List.concat]. rewrite IH, encode_utf8_app.
    now rewrite <- app_assoc.
Qed.

Lemma split_on_nonempty (sep : ascii) (s : string) : split_on sep s <> [].
Proof.
  destruct s as [| c t]; cbn [split_on]; [discriminate |].
  destruct (Ascii.eqb c sep); [discriminate |].
  destruct (split_on sep t); discriminate.
Qed.

Lemma join_cons (sep x : string) (rest : list string) :
  rest <> [] -> Py.join sep (x :: rest) = (x ++ sep ++ Py.join sep rest)%string.
Proof. destruct rest; [contradiction | reflexivity]. Qed.

Lemma join_split_on (s : string) :
  Py.join nl (split_on (ascii_of_nat 10) s) = s.
Proof.
  induction s as [| c t IH]; [reflexivity |].
  cbn [split_on]. destruct (Ascii.eqb_spec c (ascii_of_nat 10)) as [-> | Hne].
  - rewrite join_cons by apply split_on_nonempty. now rewrite IH.
  - pose proof (split_on_nonempty (ascii_of_nat 10) t) as Hnon.
    destruct (split_on (ascii_of_nat 10) t) as [| h r]; [contradiction |].
    destruct r as [| h' r].
    + cbn [Py.join] in *. now rewrite IH.
    + rewrite join_cons by discriminate.
      rewrite join_cons in IH by discriminate.
      cbn [String.append]. now rewrite IH.
Qed.

Lemma join_app (sep : string) (xs ys : list string) :
  ys <> [] ->
  encode_utf8 (Py.join sep (xs ++ ys))
  = List.concat (map (fun x => encode_utf8 (x ++ sep)%string) xs)
    ++ encode_utf8 (Py.join sep ys).
Proof.
  intro Hys. induction xs as [| x xs IH]; [reflexivity |].
  cbn [app map List.concat]. rewrite join_cons.
  - rewrite <- app_assoc, <- IH.
    now rewrite !encode_utf8_app, <- app_assoc.
  - destruct xs; [exact Hys | discriminate].
Qed.

(** X16. The document rewriter leaves a file as it is unless it is a txt
    file with at least one outgoing edge; for a docx file the section is
    built and dropped. A txt file with outgoing edges gets, as new content,
    the well-formed UTF-8 part of its old bytes followed by the REFERENCED
    FILES heading and one line per outgoing edge, in edge order; bytes that
    are not valid UTF-8 are lost, and content of ASCII bytes only is kept
    whole. *)
Theorem document_rewrite_appends_the_section :
  forall (self : Manager) (f : EncodedFile),
    let refs := references_from self (filename (original_plan f)) in
    (is_type "txt" f = false \/ refs = [] -> update_document self f = f) /\
    (is_type "txt" f = true -> refs <> [] ->
     update_document self f
     = set_encoded_content f
         (Py.utf8_wellformed_part (encoded_content f) ++ section_bytes refs) /\
     (ascii_only (encoded_content f) = true ->
      encoded_content (update_document self f)
      = encoded_content f ++ section_bytes refs)).
Proof.
  intros self f refs. subst refs. unfold update_document. split.
  - intros [Ht | Hr].
    + destruct (of_type ["txt"; "docx"] (original_plan f)); [| reflexivity].
      destruct (references_from self (filename (original_plan f)));
        [reflexivity | now rewrite Ht].
    + rewrite Hr. now destruct (of_type ["txt"; "docx"] (original_plan f)).
  - intros Ht Hr.
    assert (Hk : of_type ["txt"; "docx"] (original_plan f) = true).
    { unfold of_type, is_type in *. cbn. now rewrite Ht. }
    rewrite Hk, Ht.
    destruct (references_from self (filename (original_plan f))) as [| ref refs];
      [contradiction |].
    assert (E : encode_utf8
                  (Py.decode_utf8_ignore (encoded_content f)
                   ++ referenced_files_section (ref :: refs))%string
                = Py.utf8_wellformed_part (encoded_content f)
                  ++ section_bytes (ref :: refs)).
    { rewrite encode_utf8_app, encode_decode_utf8. f_equal.
      unfold referenced_files_section, section_bytes. apply fold_section. }
    rewrite E. split; [reflexivity |].
    intro Hascii. cbn [encoded_content set_encoded_content].
    now rewrite (utf8_ascii _ Hascii).
Qed.

(** X17. The spreadsheet rewriter leaves a file as it is unless it is a csv
    file with at least one outgoing edge. Such a file gets, as new content,
    a comment header (the heading, one [# ...] line per outgoing edge in
    edge order, an empty line) followed by the well-formed UTF-8 part of its
    old bytes: splitting into lines and joining them again loses nothing,
    and content of ASCII bytes only is kept whole after the header. *)
Theorem spreadsheet_rewrite_prepends_the_header :
  forall (self : Manager) (f : EncodedFile),
    let refs := references_from self (filename (original_plan f)) in
    (is_type "csv" f = false \/ refs = [] -> update_spreadsheet self f = f) /\
    (is_type "csv" f = true -> refs <> [] ->
     update_spreadsheet self f
     = set_encoded_content f
         (header_bytes refs ++ Py.utf8_wellformed_part (encoded_content f)) /\
     (ascii_only (encoded_content f) = true ->
      encoded_content (update_spreadsheet self f)
      = header_bytes refs ++ encoded_content f)).
Proof.
  intros self f refs. subst refs. unfold update_spreadsheet.
  assert (Hk : of_type ["csv"] (original_plan f) = is_type "csv" f).
  { unfold of_type, is_type, Py.mem. cbn [existsb]. now rewrite orb_false_r. }
  rewrite Hk. split.
  - intros [Ht | Hr].
    + now rewrite Ht.
    + rewrite Hr. now destruct (is_type "csv" f).
  - intros Ht Hr. rewrite Ht.
    destruct (references_from self (filename (original_plan f))) as [| ref refs];
      [contradiction |].
    match goal with
    | |- set_encoded_content f (encode_utf8 ?text) = _ /\ _ =>
        assert (E : encode_utf8 text
                    = header_bytes (ref :: refs)
                      ++ Py.utf8_wellformed_part (encoded_content f))
    end.
    { rewrite join_app by apply split_on_nonempty.
      rewrite join_split_on, encode_decode_utf8. f_equal.
      unfold header_bytes.
      rewrite !map_app, !concat_app, map_map. cbn [map List.concat].
      rewrite !app_nil_r. reflexivity. }
    rewrite E. split; [reflexivity |].
    intro Hascii. cbn [encoded_content set_encoded_content].
    now rewrite (utf8_ascii _ Hascii).
Qed.

(** ** What a regenerated email shows *)

Lemma prefix_append_r (sub s after : string) :
  String.prefix sub s = true -> String.prefix sub (s ++ after)%string = true.
Proof.
  revert s. induction sub as [| c sub IH]; intros s H;
    [now destruct (s ++ after)%string |].
  destruct s as [| d s]; [discriminate H |].
  cbn [String.prefix String.append] in *.
  destruct (ascii_dec c d); [now apply IH | discriminate H].
Qed.

Lemma contains_append_r (sub s after : string) :
  Py.contains sub s = true -> Py.contains sub (s ++ after)%string = true.
Proof.
  induction s as [| c s IH]; intro H.
  - cbn [Py.contains] in H. rewrite orb_false_r in H.
    destruct sub; [| discriminate H]. now destruct after.
  - cbn [Py.contains] in H. apply orb_true_iff in H.
    cbn [String.append Py.contains]. apply orb_true_iff.
    destruct H as [H | H].
    + left. exact (prefix_append_r sub (String c s) after H).
    + right. now apply IH.
Qed.

Lemma contains_join (sub sep x : string) (parts : list string) :
  In x parts -> Py.contains sub x = true ->
  Py.contains sub (Py.join sep parts) = true.
Proof.
  intros Hin Hx. induction parts as [| y parts IH]; [destruct Hin |].
  destruct parts as [| z parts].
  - destruct Hin as [-> | []]. exact Hx.
  - change (Py.join sep (y :: z :: parts))
      with (y ++ sep ++ Py.join sep (z :: parts))%string.
    destruct Hin as [-> | Hin].
    + now apply contains_append_r.
    + now apply contains_append_l, contains_append_l, IH.
Qed.

Lemma Forall2_In_l {A B} (R : A -> B -> Prop) (l : list A) (l' : list B) (x : A) :
  Forall2 R l l' -> In x l -> exists y, In y l' /\ R x y.
Proof.
  intro H. induction H as [| a b l l' Hab _ IH]; intro Hin; [destruct Hin |].
  destruct Hin as [<- | Hin].
  - exists b. split; [now left | exact Hab].
  - destruct (IH Hin) as [y [Hy Hxy]]. exists y. split; [now right | exact Hxy].
Qed.

Lemma Forall2_nth_error {A B} (R : A -> B -> Prop) (l : list A) (l' : list B) :
  Forall2 R l l' ->
  forall j x y, nth_error l j = Some x -> nth_error l' j = Some y -> R x y.
Proof.
  intro H. induction H as [| a b l l' Hab _ IH]; intros [| j] x y Hx Hy;
    try discriminate Hx.
  - cbn in Hx, Hy. congruence.
  - eapply IH; eauto.
Qed.

Section EmailFacts.

Variable ext : Externals.

Lemma attachment_lines_list (heading : string) (descriptions : list string)
  (atts : list FileReference) (r r' : Rng) (lines : list string) :
  attachment_lines heading descriptions atts r = Ok lines r' ->
  forall att, In att atts ->
    exists line, In line lines /\
                 Py.contains ("    - " ++ target_file att) line = true.
Proof.
  unfold attachment_lines. intros H att Hatt.
  destruct atts as [| a atts]; [destruct Hatt |].
  apply bind_inv in H. destruct H as [ls [r1 [Hls H]]].
  apply ret_inv in H. destruct H as [<- _].
  eapply (map_M_Forall2
            (fun x line => Py.contains ("    - " ++ target_file x) line = true))
    in Hls.
  - destruct (Forall2_In_l _ _ _ _ Hls Hatt) as [line [Hline Hc]].
    exists line. split; [now right | exact Hc].
  - intros x rx line rl _ Hc. apply random_choice_inv in Hc.
    apply in_map_iff in Hc. destruct Hc as [d [<- _]].
    exact (contains_here ("    - " ++ target_file x) d).
Qed.

Lemma generate_email_shows (lang : string)
  (attachments password_refs : list FileReference) (r r' : Rng) (content : string) :
  _generate_email_with_references ext lang attachments password_refs r
  = Ok content r' ->
  (forall ref, In ref password_refs ->
     Py.contains ("  - " ++ context ref) content = true) /\
  (forall att, In att attachments ->
     endswith_any (Py.lower (target_file att)) listed_suffixes = true ->
     Py.contains ("    - " ++ target_file att) content = true).
Proof.
  unfold _generate_email_with_references. intro H. cbv zeta in H.
  apply bind_inv in H. destruct H as [sender [r1 [_ H]]].
  apply bind_inv in H. destruct H as [recipient [r2 [_ H]]].
  apply bind_inv in H. destruct H as [subject [r3 [_ H]]].
  apply bind_inv in H. destruct H as [date [r4 [_ H]]].
  apply bind_inv in H. destruct H as [first_name [r5 [_ H]]].
  apply bind_inv in H. destruct H as [opening [r6 [_ H]]].
  apply bind_inv in H. destruct H as [listing [r7 [Hlisting H]]].
  apply bind_inv in H. destruct H as [x [r8 [_ H]]].
  apply bind_inv in H. destruct H as [other [r9 [_ H]]].
  apply bind_inv in H. destruct H as [y [r10 [_ H]]].
  apply bind_inv in H. destruct H as [action [r11 [_ H]]].
  apply bind_inv in H. destruct H as [signature [r12 [_ H]]].
  apply bind_inv in H. destruct H as [from_name [r13 [_ H]]].
  apply bind_inv in H. destruct H as [to_name [r14 [_ H]]].
  apply bind_inv in H. destruct H as [uuid [r15 [_ H]]].
  apply bind_inv in H. destruct H as [domain [r16 [_ H]]].
  apply bind_inv in H. destruct H as [closing_name [r17 [_ H]]].
  apply bind_inv in H. destruct H as [job [r18 [_ H]]].
  apply bind_inv in H. destruct H as [company [r19 [_ H]]].
  apply bind_inv in H. destruct H as [phone [r20 [_ H]]].
  apply ret_inv in H. destruct H as [<- _].
  match goal with
  | |- context [Py.join "\n" ?parts] =>
      set (body_parts := parts); set (body := Py.join "\n" body_parts)
  end.
  assert (Hwrap : forall sub, Py.contains sub body = true ->
            Py.contains sub
              ("From: " ++ from_name ++ " <" ++ sender ++ ">" ++ nl
               ++ "To: " ++ to_name ++ " <" ++ recipient ++ ">" ++ nl
               ++ "Subject: " ++ subject ++ nl
               ++ "Date: " ++ date ++ nl
               ++ "Message-ID: <" ++ uuid ++ "@" ++ domain ++ ">" ++ nl
               ++ "MIME-Version: 1.0" ++ nl
               ++ "Content-Type: "
               ++ match attachments with
                  | [] => "text/plain"
                  | _ :: _ => "multipart/mixed"
                  end ++ "; charset=utf-8" ++ nl
               ++ "Content-Transfer-Encoding: 8bit" ++ nl
               ++ "X-Priority: Normal" ++ nl
               ++ "X-Attachments: " ++ Py.str_of_nat (List.length attachments)
               ++ " file(s)" ++ nl
               ++ nl
               ++ body ++ nl
               ++ nl
               ++ "--" ++ nl
               ++ closing_name ++ nl
               ++ job ++ nl
               ++ company ++ nl
               ++ phone ++ nl)%string = true).
  { intros sub Hsub.
    repeat first [ apply contains_append_r; exact Hsub
                 | apply contains_append_l ]. }
  split.
  - intros ref Href. apply Hwrap. unfold body.
    apply (contains_join _ _ ("  - " ++ context ref)%string);
      [| apply contains_self].
    unfold body_parts.
    apply in_or_app. right. apply in_or_app. right. apply in_or_app. left.
    destruct password_refs as [| p ps]; [destruct Href |].
    apply in_or_app. right. apply in_or_app. left.
    exact (in_map (fun pwd_ref => ("  - " ++ context pwd_ref)%string) _ _ Href).
  - intros att Hatt Hrec. apply Hwrap. unfold body.
    destruct attachments as [| a atts]; [destruct Hatt |].
    apply bind_inv in Hlisting. destruct Hlisting as [docs [q1 [Hdocs Hl]]].
    apply bind_inv in Hl. destruct Hl as [imgs [q2 [Himgs Hl]]].
    apply bind_inv in Hl. destruct Hl as [data [q3 [Hdata Hl]]].
    apply ret_inv in Hl. destruct Hl as [Hl _].
    assert (Hline : exists line,
               In line (docs ++ imgs ++ data) /\
               Py.contains ("    - " ++ target_file att) line = true).
    { unfold endswith_any, listed_suffixes in Hrec.
      change [".jpg"; ".png"; ".pdf"; ".docx"; ".txt"; ".xlsx"; ".csv"]
        with ([".jpg"; ".png"] ++ [".pdf"; ".docx"; ".txt"] ++ [".xlsx"; ".csv"])
        in Hrec.
      rewrite !existsb_app in Hrec.
      apply orb_true_iff in Hrec.
      destruct Hrec as [Hrec | Hrec]; [| apply orb_true_iff in Hrec;
                                         destruct Hrec as [Hrec | Hrec]].
      - destruct (attachment_lines_list _ _ _ _ _ _ Himgs att) as [line [Hin Hc]].
        { apply filter_In. split; [exact Hatt | exact Hrec]. }
        exists line. split; [| exact Hc].
        apply in_or_app. right. apply in_or_app. now left.
      - destruct (attachment_lines_list _ _ _ _ _ _ Hdocs att) as [line [Hin Hc]].
        { apply filter_In. split; [exact Hatt | exact Hrec]. }
        exists line. split; [| exact Hc].
        apply in_or_app. now left.
      - destruct (attachment_lines_list _ _ _ _ _ _ Hdata att) as [line [Hin Hc]].
        { apply filter_In. split; [exact Hatt | exact Hrec]. }
        exists line. split; [| exact Hc].
        apply in_or_app. right. apply in_or_app. now right. }
    destruct Hline as [line [Hin Hc]].
    apply (contains_join _ _ line); [| exact Hc].
    unfold body_parts. apply in_or_app. right. apply in_or_app. left.
    rewrite <- Hl. apply in_or_app. right.
    rewrite !app_assoc. apply in_or_app. left. rewrite <- app_assoc. exact Hin.
Qed.

End EmailFacts.

(** X18. When the email step returns, the new text of an eml file shows its
    edges: every password edge that starts at the email appears as a line
    [  - <context>] under the security notes (so the password it spells is
    in the email), and every attachment edge whose target name ends in one
    of the seven endings the generator sorts by is listed by name. *)
Theorem regenerated_email_shows_its_edges :
  forall (ext : Externals) (self self' : Manager) (r r' : Rng)
         (j : nat) (f f' : EncodedFile) (ref : FileReference),
    _update_email_content_with_references ext self r = Ok self' r' ->
    nth_error (encoded_files self) j = Some f ->
    nth_error (encoded_files self') j = Some f' ->
    is_type "eml" f = true ->
    In ref (file_references self) ->
    source_file ref = filename (original_plan f) ->
    (reference_type ref = "password" ->
     Py.contains ("  - " ++ context ref)
                 (string_of_list_byte (encoded_content f')) = true) /\
    (reference_type ref = "attachment" ->
     endswith_any (Py.lower (target_file ref)) listed_suffixes = true ->
     Py.contains ("    - " ++ target_file ref)
                 (string_of_list_byte (encoded_content f')) = true).
Proof.
  intros ext self self' r r' j f f' ref H Hf Hf' Heml Hin Hsrc.
  unfold _update_email_content_with_references in H.
  apply bind_inv in H. destruct H as [files [r1 [Hfiles H]]].
  apply ret_inv in H. destruct H as [<- _].
  cbn [encoded_files set_encoded_files] in Hf'.
  eapply (map_M_Forall2
            (fun g g' =>
               is_type "eml" g = true ->
               source_file ref = filename (original_plan g) ->
               (reference_type ref = "password" ->
                Py.contains ("  - " ++ context ref)
                            (string_of_list_byte (encoded_content g')) = true) /\
               (reference_type ref = "attachment" ->
                endswith_any (Py.lower (target_file ref)) listed_suffixes = true ->
                Py.contains ("    - " ++ target_file ref)
                            (string_of_list_byte (encoded_content g')) = true)))
    in Hfiles.
  - exact (Forall2_nth_error _ _ _ Hfiles j f f' Hf Hf' Heml Hsrc).
  - intros g rg g' rg' _ Hb Hg Hs. cbv beta zeta in Hb. rewrite Hg in Hb.
    assert (Hfrom : In ref (references_from self (filename (original_plan g)))).
    { apply filter_In. split; [exact Hin | now apply String.eqb_eq]. }
    destruct (references_from self (filename (original_plan g))) as [| e es] eqn:E;
      [destruct Hfrom |].
    apply bind_inv in Hb. destruct Hb as [custom [r2 [Hgen Hb]]].
    apply ret_inv in Hb. destruct Hb as [<- _].
    cbn [encoded_content set_encoded_content]. unfold encode_utf8.
    rewrite string_of_list_byte_of_string.
    apply generate_email_shows in Hgen. destruct Hgen as [Hpw Hatt].
    split.
    + intro Hkind. apply Hpw. apply filter_In. split; [exact Hin |].
      apply andb_true_iff. split; now apply String.eqb_eq.
    + intros Hkind Hrec. apply Hatt; [| exact Hrec].
      apply filter_In. split; [exact Hfrom | now apply String.eqb_eq].
Qed.

Lemma regenerated_email_shows_its_edges_witness :
  exists f',
    nth_error (encoded_files (mailbox_regenerated [3; 1; 4])) 0 = Some f' /\
    Py.contains "  - Password for a.txt: Harbor42!"
                (string_of_list_byte (encoded_content f')) = true.
Proof.
  eexists. split; [vm_compute; reflexivity |].
  refine (proj1 (regenerated_email_shows_its_edges Reference.ext mailbox
                   (mailbox_regenerated [3; 1; 4]) [3; 1; 4] _ 0 _ _
                   {| source_file := "memo.eml"; target_file := "a.txt";
                      reference_type := "password";
                      context := "Password for a.txt: Harbor42!" |}
                   _ _ _ _ _ _) _);
    try (vm_compute; reflexivity).
  right. now left.
Defined.

(** ** Unsupported file types *)

Lemma for_each_raises {A S} (body : A -> S -> M S) (xs : list A) (x0 : A) :
  In x0 xs ->
  (forall s r, exists e, body x0 s r = Raise e) ->
  forall s r, exists e, for_each xs body s r = Raise e.
Proof.
  intros Hin Hbody. induction xs as [| x xs IH]; [destruct Hin |].
  intros s r. cbn [for_each]. unfold bind at 1.
  destruct Hin as [-> | Hin].
  - destruct (Hbody s r) as [e He]. rewrite He. now exists e.
  - destruct (body x s r) as [s1 r1 | e]; [now apply IH | now exists e].
Qed.

Lemma selector_total (ftype : string) (r : Rng) :
  exists method r', _choose_encoding_method ftype r = Ok method r'.
Proof.
  unfold _choose_encoding_method.
  destruct (String.eqb ftype "pdf"); [exists NONE, r; reflexivity |].
  destruct (Py.mem ftype ["jpg"; "png"]); [exists NONE, r; reflexivity |].
  destruct (String.eqb ftype "eml"); [exists NONE, r; reflexivity |].
  cbv zeta.
  match goal with
  | |- context [random_choices all_methods ?w] =>
      destruct (random_choices_total all_methods w r) as [m [x [r' [H _]]]]
  end.
  - destruct (String.eqb ftype "docx"); [discriminate |].
    destruct (Py.mem ftype ["xlsx"; "csv"]); [discriminate |].
    destruct (String.eqb ftype "txt"); discriminate.
  - unfold all_methods.
    destruct (String.eqb ftype "docx"); [cbn; lia |].
    destruct (Py.mem ftype ["xlsx"; "csv"]); [cbn; lia |].
    destruct (String.eqb ftype "txt"); cbn; lia.
  - now exists m, r'.
Qed.

(** X19. A plan whose file type, lower-cased, is not one of the eight the
    template factory knows stops the pipeline: [create_file_network] raises,
    whatever the other plans, the state and the random source, and when the
    offending plan is the first one the exception is [ValueError]. *)
Theorem unsupported_type_aborts_the_pipeline :
  forall (ext : Externals) (plans : list FileGenerationPlan)
         (bad : FileGenerationPlan) (self : Manager) (r : Rng),
    In bad plans ->
    Py.mem (Py.lower (file_type bad)) supported_types = false ->
    exists e,
      create_file_network ext plans self r = Raise e /\
      (hd_error plans = Some bad -> e = ValueError).
Proof.
  intros ext plans bad self r Hin Hbad.
  assert (Hbody : forall s t,
             encode_plan ext (documents_of plans) (spreadsheets_of plans)
                         (images_of plans) bad s t = Raise ValueError).
  { intros s t. unfold encode_plan.
    destruct (selector_total (file_type bad) t) as [method [t1 Hm]].
    rewrite (bind_ok _ _ Hm), Hbad. reflexivity. }
  unfold create_file_network. cbv zeta. unfold bind at 1.
  destruct (for_each_raises
              (encode_plan ext (documents_of plans) (spreadsheets_of plans)
                           (images_of plans)) plans bad Hin
              (fun s t => ex_intro _ ValueError (Hbody s t)) self r) as [e He].
  rewrite He. exists e. split; [reflexivity |].
  intro Hhd. destruct plans as [| p rest]; [discriminate Hhd |].
  injection Hhd as ->. cbn [for_each] in He. unfold bind at 1 in He.
  rewrite Hbody in He. congruence.
Qed.

Lemma unsupported_type_aborts_the_pipeline_witness :
  exists e,
    create_file_network Reference.ext
      [Reference.plan "txt" "a.txt"; Reference.plan "mp3" "song.mp3"]
      new_manager [5; 6] = Raise e /\
    (hd_error [Reference.plan "txt" "a.txt"; Reference.plan "mp3" "song.mp3"]
     = Some (Reference.plan "mp3" "song.mp3") -> e = ValueError).
Proof.
  apply (unsupported_type_aborts_the_pipeline Reference.ext
           [Reference.plan "txt" "a.txt"; Reference.plan "mp3" "song.mp3"]
           (Reference.plan "mp3" "song.mp3") new_manager [5; 6]).
  - right. now left.
  - vm_compute. reflexivity.
Defined.

(** * The generation planner *)

Module PlannerFacts.
Import Planner.

Local Open Scope Z_scope.

Lemma lift_ok {A} (c : M A) (r r' : Rng) (a : A) :
  c r = Ok a r' -> lift c r = Planned a r'.
Proof. intro H. unfold lift. now rewrite H. Qed.

Lemma randint_Z_total (a b : Z) (r : Rng) :
  a <= b -> exists k r', randint_Z a b r = Ok k r' /\ a <= k <= b.
Proof.
  intro Hab. unfold randint_Z.
  destruct (Z.ltb_spec b a) as [Hlt | _]; [lia |].
  destruct (randbelow_spec (Z.to_nat (b - a + 1)) r) as [x [r' Hx]].
  rewrite (bind_ok _ _ Hx). eexists. eexists. split; [reflexivity |].
  assert (Hmod : (x mod Z.to_nat (b - a + 1) < Z.to_nat (b - a + 1))%nat)
    by (apply Nat.mod_upper_bound; lia).
  lia.
Qed.

Lemma names_nonempty (language : string) :
  match dict_get base_names language with
  | Some names => names
  | None => en_names
  end <> [].
Proof.
  unfold dict_get, base_names. cbn [find fst snd option_map].
  repeat match goal with
         | |- context [String.eqb ?a ?b] => destruct (String.eqb a b)
         end; discriminate.
Qed.

Lemma generate_filename_total (file_type language : string) (index : Z) (r : Rng) :
  exists name r',
    _generate_filename file_type language index r = Ok name r' /\
    planned_name file_type language name.
Proof.
  unfold _generate_filename.
  destruct (random_choice_total _ r (names_nonempty language))
    as [base_name [r1 [Hb Hbin]]].
  destruct (random_choice_total suffixes r1 ltac:(discriminate))
    as [suffix [r2 [Hs Hsin]]].
  destruct (random_permille_total r2) as [x [r3 Hx]].
  rewrite (bind_ok _ _ Hb), (bind_ok _ _ Hs), (bind_ok _ _ Hx).
  destruct (x <? 300)%nat.
  - destruct (randint_Z_total 20200101 20241231 r3 ltac:(lia))
      as [timestamp [r4 [Ht Hrange]]].
    assert (Hstamp : (timestamp <- randint_Z 20200101 20241231 ;;
                      ret (base_name ++ "_" ++ str_of_Z timestamp)%string) r3
                     = Ok (base_name ++ "_" ++ str_of_Z timestamp)%string r4)
      by (now rewrite (bind_ok _ _ Ht)).
    rewrite (bind_ok _ _ Hstamp).
    eexists. eexists. split; [reflexivity |].
    exists base_name, ("_" ++ str_of_Z timestamp)%string, suffix.
    split; [| split; [exact Hbin | split; [exact Hsin |]]].
    + now rewrite !string_append_assoc.
    + right. now exists timestamp.
  - eexists. eexists. split; [reflexivity |].
    exists base_name, EmptyString, suffix.
    split; [reflexivity | split; [exact Hbin | split; [exact Hsin | now left]]].
Qed.

Lemma total_size_app (plans : list FileGenerationPlan) (p : FileGenerationPlan) :
  total_size (plans ++ [p]) = total_size plans + size_bytes p.
Proof.
  unfold total_size. induction plans as [| q plans IH]; cbn [app map fold_right].
  - lia.
  - rewrite IH. lia.
Qed.

Section Loop.

Variable settings : ChaffSettings.
Hypothesis sizes : min_file_size settings <= max_file_size settings.
Hypothesis types : chaff_file_types settings <> [].
Hypothesis languages : include_languages settings <> [].

Let good := well_planned settings.

(** One turn, given that the size step returns a size within the limits. *)
Lemma plan_one_step (file_count : Z) (target : option Z) (i total : Z)
  (plans : list FileGenerationPlan) (P : Z -> Prop) :
  (forall r, exists size r',
      file_size_at settings file_count target i total r = Ok size r' /\
      min_file_size settings <= size <= max_file_size settings /\ P size) ->
  Forall good plans ->
  forall r, exists p r',
    plan_one settings file_count target i (plans, total) r
    = Ok (plans ++ [p], total + size_bytes p) r' /\
    Forall good (plans ++ [p]) /\ P (size_bytes p).
Proof.
  intros Hsize Hplans r. unfold plan_one.
  destruct (random_choice_total _ r types) as [ftype [r1 [Ht Htin]]].
  destruct (random_choice_total _ r1 languages) as [lang [r2 [Hl Hlin]]].
  destruct (Hsize r2) as [size [r3 [Hs [Hrange HP]]]].
  destruct (generate_filename_total ftype lang i r3) as [name [r4 [Hn Hshape]]].
  rewrite (bind_ok _ _ Ht), (bind_ok _ _ Hl), (bind_ok _ _ Hs), (bind_ok _ _ Hn).
  exists {| file_type := ftype; size_bytes := size;
            language := lang; filename := name |}, r4.
  split; [reflexivity |]. split; [| exact HP].
  apply Forall_app. split; [exact Hplans |].
  constructor; [| constructor]. split; [now repeat split | exact Hshape].
Qed.

(** The loop when sizes are drawn independently. *)
Lemma independent_loop (file_count : Z) (indices : list Z) :
  fill_drive settings = false ->
  forall (plans : list FileGenerationPlan) (total : Z) (r : Rng),
    Forall good plans ->
    exists plans' total' r',
      for_each indices (plan_one settings file_count None) (plans, total) r
      = Ok (plans', total') r' /\
      Forall good plans' /\
      List.length plans' = (List.length plans + List.length indices)%nat.
Proof.
  intro Hfill. induction indices as [| i indices IH]; intros plans total r Hplans.
  - exists plans, total, r. repeat split; [exact Hplans | cbn; lia].
  - cbn [for_each].
    destruct (plan_one_step file_count None i total plans (fun _ => True))
      with (r := r) as [p [r1 [Hp [Hgood _]]]]; [| exact Hplans |].
    { intro r0. unfold file_size_at.
      destruct (randint_Z_total _ _ r0 sizes) as [size [r' [Hs Hrange]]].
      exists size, r'. now repeat split. }
    rewrite (bind_ok _ _ Hp).
    destruct (IH _ (total + size_bytes p) r1 Hgood) as [plans' [total' [r' [H [Hg Hlen]]]]].
    exists plans', total', r'. repeat split; [exact H | exact Hg |].
    rewrite Hlen, length_app. cbn [List.length]. lia.
Qed.

Variable file_count : Z.
Variable target : Z.
Hypothesis fill : fill_drive settings = true.
Hypothesis target_nonzero : target <> 0.

(** The size step when a target is spread: the space left stays within what
    the files left can take. *)
Lemma spread_size (i total : Z) (r : Rng) :
  1 <= file_count - i ->
  (file_count - i) * min_file_size settings <= target - total
    <= (file_count - i) * max_file_size settings ->
  exists size r',
    file_size_at settings file_count (Some target) i total r = Ok size r' /\
    min_file_size settings <= size <= max_file_size settings /\
    (file_count - i - 1) * min_file_size settings <= target - (total + size)
      <= (file_count - i - 1) * max_file_size settings.
Proof.
  intros Hleft Hspace. unfold file_size_at. rewrite fill.
  destruct (Z.eqb_spec target 0) as [E | _]; [contradiction |].
  cbn [andb negb].
  set (remaining_files := file_count - i) in *.
  set (remaining_space := target - total) in *.
  destruct (Z.ltb_spec 1 remaining_files) as [Hmany | Hlast].
  - set (hi := Z.min (max_file_size settings)
                     (remaining_space
                      - (remaining_files - 1) * min_file_size settings)).
    set (lo := Z.max (min_file_size settings)
                     (remaining_space
                      - (remaining_files - 1) * max_file_size settings)).
    assert (Hmono : (remaining_files - 1) * min_file_size settings
                    <= (remaining_files - 1) * max_file_size settings)
      by (apply Z.mul_le_mono_nonneg_l; lia).
    assert (Hlohi : lo <= hi) by (unfold lo, hi; lia).
    destruct (Z.leb_spec lo hi) as [_ | Hno]; [| lia].
    destruct (randint_Z_total lo hi r Hlohi) as [size [r' [Hs Hrange]]].
    exists size, r'. split; [exact Hs |].
    unfold lo, hi, remaining_space in *. lia.
  - assert (E : remaining_files = 1) by lia.
    eexists. eexists. split; [reflexivity |].
    rewrite E in *. unfold remaining_space in *. lia.
Qed.

(** The loop when a target is spread: it gives out exactly the target. *)
Lemma spread_loop (m : nat) :
  forall (k : nat) (plans : list FileGenerationPlan) (total : Z) (r : Rng),
    Z.of_nat (k + m) = file_count ->
    Z.of_nat m * min_file_size settings <= target - total
      <= Z.of_nat m * max_file_size settings ->
    Forall good plans ->
    total_size plans = total ->
    exists plans' r',
      for_each (map Z.of_nat (seq k m))
               (plan_one settings file_count (Some target)) (plans, total) r
      = Ok (plans', target) r' /\
      Forall good plans' /\
      total_size plans' = target /\
      List.length plans' = (List.length plans + m)%nat.
Proof.
  induction m as [| m IH]; intros k plans total r Hcount Hspace Hplans Hsum.
  - exists plans, r. cbn [seq map for_each].
    assert (E : total = target) by lia.
    split; [now rewrite E |].
    split; [exact Hplans | split; lia].
  - cbn [seq map for_each].
    assert (Hleft : file_count - Z.of_nat k = Z.of_nat (S m)) by lia.
    destruct (plan_one_step file_count (Some target) (Z.of_nat k) total plans
                (fun size =>
                   Z.of_nat m * min_file_size settings
                   <= target - (total + size)
                   <= Z.of_nat m * max_file_size settings))
      with (r := r) as [p [r1 [Hp [Hgood Hrest]]]]; [| exact Hplans |].
    { intro r0.
      destruct (spread_size (Z.of_nat k) total r0) as [size [r' [Hs [Hr Hl]]]].
      - lia.
      - rewrite Hleft. exact Hspace.
      - exists size, r'. split; [exact Hs | split; [exact Hr |]].
        replace (Z.of_nat m) with (file_count - Z.of_nat k - 1) by lia.
        exact Hl. }
    rewrite (bind_ok _ _ Hp).
    destruct (IH (S k) (plans ++ [p]) (total + size_bytes p) r1)
      as [plans' [r' [H [Hg [Ht Hlen]]]]].
    + lia.
    + exact Hrest.
    + exact Hgood.
    + rewrite total_size_app. lia.
    + exists plans', r'. repeat split; [exact H | exact Hg | exact Ht |].
      rewrite Hlen, length_app. cbn [List.length]. lia.
Qed.

End Loop.

End PlannerFacts.

Section PlannerProperties.

Import Planner.

Local Open Scope Z_scope.

(** X20. In fill-drive mode, with limits [0 < min_file_size <=
    max_file_size], usable space left after the reserve, and at least one
    file type and language, the planner returns: as many plans as the
    computed file count, each with a type and language of the settings, a
    size between the limits and a name of the generated shape. When the
    count is positive the sizes add up to exactly [file_count * avg_size],
    and this total fits the usable space exactly when
    [file_count * min_file_size] does. *)
Theorem fill_drive_allocates_the_target :
  forall (settings : ChaffSettings) (available_space : Z) (r : Rng),
    fill_drive settings = true ->
    0 < min_file_size settings <= max_file_size settings ->
    0 < available_space - minimum_remaining_disk_space settings ->
    chaff_file_types settings <> [] ->
    include_languages settings <> [] ->
    exists file_count avg_size plans r',
      calculate_fill_drive_parameters settings available_space
      = Some (file_count, avg_size) /\
      generate_file_plan settings available_space r = Planned plans r' /\
      List.length plans = Z.to_nat file_count /\
      Forall (well_planned settings) plans /\
      (0 < file_count ->
       min_file_size settings <= avg_size <= max_file_size settings /\
       total_size plans = file_count * avg_size /\
       (total_size plans
          <= available_space - minimum_remaining_disk_space settings
        <-> file_count * min_file_size settings
              <= available_space - minimum_remaining_disk_space settings)).
Proof.
  intros settings available_space r Hfill Hsizes Husable Htypes Hlangs.
  unfold generate_file_plan, calculate_fill_drive_parameters. rewrite Hfill.
  set (usable_space := available_space - minimum_remaining_disk_space settings) in *.
  destruct (Z.leb_spec usable_space 0) as [Hno | _]; [lia |].
  assert (Havg : min_file_size settings
                 <= (min_file_size settings + max_file_size settings) / 2)
    by (apply Z.div_le_lower_bound; lia).
  destruct (Z.eqb_spec ((min_file_size settings + max_file_size settings) / 2) 0)
    as [E | _]; [lia |].
  cbv zeta.
  set (file_count :=
         Z.max (min_file_count settings)
               (Z.min (usable_space
                       / ((min_file_size settings + max_file_size settings) / 2))
                      (max_file_count settings))).
  set (avg_size :=
         if 0 <? file_count
         then Z.max (min_file_size settings)
                    (Z.min (usable_space / file_count) (max_file_size settings))
         else min_file_size settings).
  exists file_count, avg_size. cbv beta iota.
  destruct (Z.eqb_spec file_count 0) as [Hzero | Hnonzero].
  { exists [], r. split; [reflexivity |]. split; [reflexivity |].
    split; [now rewrite Hzero |]. split; [constructor | lia]. }
  destruct (Z.ltb_spec 0 file_count) as [Hpos | Hneg].
  - (* a positive count: the target is spread over the files *)
    assert (Hbounds : min_file_size settings <= avg_size <= max_file_size settings)
      by (unfold avg_size; lia).
    assert (Hlow : file_count * min_file_size settings <= file_count * avg_size)
      by (apply Z.mul_le_mono_nonneg_l; lia).
    assert (Hhigh : file_count * avg_size <= file_count * max_file_size settings)
      by (apply Z.mul_le_mono_nonneg_l; lia).
    assert (Htarget : file_count * avg_size <> 0).
    { assert (0 < file_count * min_file_size settings)
        by (apply Z.mul_pos_pos; lia).
      lia. }
    destruct (PlannerFacts.spread_loop settings (proj2 Hsizes) Htypes Hlangs
                file_count (file_count * avg_size) Hfill Htarget
                (Z.to_nat file_count) 0%nat [] 0 r)
      as [plans [r' [Hloop [Hgood [Hsum Hlen]]]]].
    + lia.
    + rewrite Z2Nat.id by lia. lia.
    + constructor.
    + reflexivity.
    + exists plans, r'. split; [reflexivity |]. split.
      { apply PlannerFacts.lift_ok. unfold plan_files, range. rewrite Hfill.
        rewrite (bind_ok _ _ Hloop). reflexivity. }
      split; [exact Hlen |]. split; [exact Hgood |]. intros _.
      split; [exact Hbounds |]. split; [exact Hsum |]. rewrite Hsum.
      split; [lia |]. intro Hfits.
      assert (Hquot : min_file_size settings <= usable_space / file_count)
        by (apply Z.div_le_lower_bound; lia).
      assert (Hsmall : avg_size <= usable_space / file_count)
        by (unfold avg_size; lia).
      pose proof (Z.mul_div_le usable_space file_count Hpos) as Hfloor.
      assert (file_count * avg_size <= file_count * (usable_space / file_count))
        by (apply Z.mul_le_mono_nonneg_l; lia).
      lia.
  - (* a negative count: the loop does not run *)
    exists [], r. split; [reflexivity |]. split.
    { apply PlannerFacts.lift_ok. unfold plan_files, range.
      replace (Z.to_nat file_count) with 0%nat by lia. reflexivity. }
    split; [cbn; lia |]. split; [constructor | lia].
Qed.

Lemma fill_drive_allocates_the_target_witness :
  exists file_count avg_size plans r',
    calculate_fill_drive_parameters (sample_settings true) 250
    = Some (file_count, avg_size) /\
    generate_file_plan (sample_settings true) 250 [1; 2; 3; 4]%nat = Planned plans r' /\
    List.length plans = Z.to_nat file_count /\
    Forall (well_planned (sample_settings true)) plans /\
    (0 < file_count ->
     min_file_size (sample_settings true) <= avg_size
       <= max_file_size (sample_settings true) /\
     total_size plans = file_count * avg_size /\
     (total_size plans
        <= 250 - minimum_remaining_disk_space (sample_settings true)
      <-> file_count * min_file_size (sample_settings true)
            <= 250 - minimum_remaining_disk_space (sample_settings true))).
Proof.
  apply (fill_drive_allocates_the_target (sample_settings true) 250 [1; 2; 3; 4]%nat);
    cbn; first [reflexivity | lia | discriminate].
Defined.

(** X21. In normal mode, with [min_file_count <= max_file_count],
    [min_file_size <= max_file_size] and at least one file type and
    language, the planner returns: a number of plans drawn between the two
    counts (none when the count drawn is negative), each with a type and
    language of the settings, a size between the limits and a name made of
    a base name of the language (English for an unknown language), an
    optional stamp between 20200101 and 20241231, a suffix and the type as
    extension. *)
Theorem normal_mode_plans_within_settings :
  forall (settings : ChaffSettings) (available_space : Z) (r : Rng),
    fill_drive settings = false ->
    min_file_count settings <= max_file_count settings ->
    min_file_size settings <= max_file_size settings ->
    chaff_file_types settings <> [] ->
    include_languages settings <> [] ->
    exists file_count plans r',
      generate_file_plan settings available_space r = Planned plans r' /\
      min_file_count settings <= file_count <= max_file_count settings /\
      List.length plans = Z.to_nat file_count /\
      Forall (well_planned settings) plans.
Proof.
  intros settings available_space r Hfill Hcounts Hsizes Htypes Hlangs.
  unfold generate_file_plan. rewrite Hfill.
  destruct (PlannerFacts.randint_Z_total _ _ r Hcounts)
    as [file_count [r1 [Hcount Hrange]]].
  destruct (PlannerFacts.independent_loop settings Hsizes Htypes Hlangs
              file_count (range file_count) Hfill [] 0 r1 (Forall_nil _))
    as [plans [total [r' [Hloop [Hgood Hlen]]]]].
  exists file_count, plans, r'. split.
  { apply PlannerFacts.lift_ok. rewrite (bind_ok _ _ Hcount).
    unfold plan_files. rewrite Hfill, (bind_ok _ _ Hloop). reflexivity. }
  split; [exact Hrange |]. split; [| exact Hgood].
  rewrite Hlen. unfold range. rewrite length_map, length_seq. reflexivity.
Qed.

Lemma normal_mode_plans_within_settings_witness :
  exists file_count plans r',
    generate_file_plan (sample_settings false) 0 [2; 1; 1; 5; 3]%nat = Planned plans r' /\
    min_file_count (sample_settings false) <= file_count
      <= max_file_count (sample_settings false) /\
    List.length plans = Z.to_nat file_count /\
    Forall (well_planned (sample_settings false)) plans.
Proof.
  apply (normal_mode_plans_within_settings (sample_settings false) 0 [2; 1; 1; 5; 3]%nat);
    cbn; first [reflexivity | lia | discriminate].
Defined.

End PlannerProperties.

(** ** The planner on the tape of lowest draws, and its failures *)

Module PlannerRuns.
Import Planner.

Local Open Scope Z_scope.

Lemma randbelow_nil (n : nat) : randbelow n [] = Ok 0%nat [].
Proof. unfold randbelow, bind, draw, ret. now rewrite Nat.Div0.mod_0_l. Qed.

Lemma random_choice_nil {A} (d : A) (l : list A) :
  random_choice (d :: l) [] = Ok d [].
Proof. unfold random_choice. now rewrite (bind_ok _ _ (randbelow_nil _)). Qed.

Lemma randint_Z_nil (a b : Z) : a <= b -> randint_Z a b [] = Ok a [].
Proof.
  intro Hab. unfold randint_Z. destruct (Z.ltb_spec b a); [lia |].
  rewrite (bind_ok _ _ (randbelow_nil _)). unfold ret. f_equal. lia.
Qed.

(** The name every call gives on that tape. *)
Lemma generate_filename_nil (file_type language : string) :
  exists name, forall index : Z,
    _generate_filename file_type language index [] = Ok name [].
Proof.
  unfold _generate_filename.
  pose proof (PlannerFacts.names_nonempty language) as Hnames.
  destruct (match dict_get base_names language with
            | Some names => names
            | None => en_names
            end) as [| base_name names]; [contradiction |].
  eexists. intro index.
  rewrite (bind_ok _ _ (random_choice_nil _ _)).
  unfold suffixes. rewrite (bind_ok _ _ (random_choice_nil _ _)).
  unfold random_permille. rewrite (bind_ok _ _ (randbelow_nil _)).
  cbn [Nat.ltb Nat.leb].
  unfold bind at 1. unfold bind at 1.
  rewrite (randint_Z_nil 20200101 20241231) by lia.
  reflexivity.
Qed.

Lemma lift_failed {A} (c : M A) (r : Rng) (e : exn) :
  c r = Raise e -> lift c r = Failed (Random e).
Proof. intro H. unfold lift. now rewrite H. Qed.

Lemma lift_never_divides {A} (c : M A) (r : Rng) :
  lift c r <> Failed ZeroDivisionError.
Proof. unfold lift. destruct (c r); discriminate. Qed.

Lemma range_positive (n : Z) :
  0 < n -> range n = 0 :: map Z.of_nat (seq 1 (Z.to_nat n - 1)).
Proof.
  intro Hn. unfold range.
  destruct (Z.to_nat n) as [| m] eqn:E; [lia |].
  cbn [seq map Nat.sub]. now rewrite Nat.sub_0_r.
Qed.

End PlannerRuns.

Section PlannerEdgeCases.

Import Planner.

Local Open Scope Z_scope.

(** X22. The index handed to the name generator is not used, and nothing
    else keeps names apart: in normal mode, for any settings that ask for at
    least two files, the run in which every draw comes out lowest returns
    [min_file_count] plans that all carry one and the same name. *)
Theorem planner_names_may_collide :
  forall (settings : ChaffSettings) (available_space : Z),
    fill_drive settings = false ->
    2 <= min_file_count settings <= max_file_count settings ->
    min_file_size settings <= max_file_size settings ->
    chaff_file_types settings <> [] ->
    include_languages settings <> [] ->
    exists plans name,
      generate_file_plan settings available_space [] = Planned plans [] /\
      Z.of_nat (List.length plans) = min_file_count settings /\
      Forall (fun p => filename p = name) plans /\
      ~ NoDup (map filename plans).
Proof.
  intros settings available_space Hfill Hcounts Hsizes Htypes Hlangs.
  destruct (chaff_file_types settings) as [| ftype types] eqn:Et;
    [contradiction |].
  destruct (include_languages settings) as [| lang langs] eqn:El;
    [contradiction |].
  destruct (PlannerRuns.generate_filename_nil ftype lang) as [name Hname].
  set (p0 := {| file_type := ftype; size_bytes := min_file_size settings;
                language := lang; filename := name |}).
  assert (Hloop : forall indices plans total,
             exists total',
               for_each indices
                 (plan_one settings (min_file_count settings) None)
                 (plans, total) []
               = Ok (plans ++ repeat p0 (List.length indices), total') []).
  { induction indices as [| i indices IH]; intros plans total.
    - exists total. cbn. now rewrite app_nil_r.
    - cbn [for_each List.length repeat].
      assert (Hone : plan_one settings (min_file_count settings) None i
                       (plans, total) []
                     = Ok (plans ++ [p0], total + min_file_size settings) []).
      { unfold plan_one. rewrite Et, El.
        rewrite (bind_ok _ _ (PlannerRuns.random_choice_nil _ _)).
        rewrite (bind_ok _ _ (PlannerRuns.random_choice_nil _ _)).
        unfold file_size_at.
        rewrite (bind_ok _ _ (PlannerRuns.randint_Z_nil _ _ Hsizes)).
        rewrite (bind_ok _ _ (Hname i)). reflexivity. }
      rewrite (bind_ok _ _ Hone).
      destruct (IH (plans ++ [p0]) (total + min_file_size settings))
        as [total' Hrest].
      exists total'. rewrite Hrest. now rewrite <- app_assoc. }
  destruct (Hloop (range (min_file_count settings)) [] 0) as [total Hrun].
  exists (repeat p0 (List.length (range (min_file_count settings)))), name.
  assert (Hlen : List.length (range (min_file_count settings))
                 = Z.to_nat (min_file_count settings))
    by (unfold range; now rewrite length_map, length_seq).
  split.
  { unfold generate_file_plan. rewrite Hfill.
    apply PlannerFacts.lift_ok.
    rewrite (bind_ok _ _ (PlannerRuns.randint_Z_nil _ _ (proj2 Hcounts))).
    unfold plan_files. rewrite Hfill, (bind_ok _ _ Hrun). reflexivity. }
  rewrite repeat_length, Hlen.
  split; [lia |]. split.
  - apply Forall_forall. intros p Hp. apply repeat_spec in Hp. now subst p.
  - destruct (Z.to_nat (min_file_count settings)) as [| [| n]] eqn:E; try lia.
    cbn [repeat map]. intro Hnd. inversion Hnd as [| x l Hnotin _]; subst.
    apply Hnotin. now left.
Qed.

Lemma planner_names_may_collide_witness :
  exists plans name,
    generate_file_plan (sample_settings false) 0 [] = Planned plans [] /\
    Z.of_nat (List.length plans) = min_file_count (sample_settings false) /\
    Forall (fun p => filename p = name) plans /\
    ~ NoDup (map filename plans).
Proof.
  apply (planner_names_may_collide (sample_settings false) 0);
    cbn; first [reflexivity | lia | discriminate].
Defined.

(** X23. How the planner fails. In fill-drive mode it raises
    [ZeroDivisionError] exactly when there is usable space and the two size
    limits add up to 0 or 1, so that their mean is 0. In normal mode it
    raises [ValueError] when the count range is empty, [IndexError] when a
    file is to be planned and no file type is configured, and [ValueError]
    when a file is to be planned and the size range is empty. *)
Theorem planner_failure_modes :
  forall (settings : ChaffSettings) (available_space : Z) (r : Rng),
    (fill_drive settings = true ->
     (generate_file_plan settings available_space r = Failed ZeroDivisionError
      <-> 0 < available_space - minimum_remaining_disk_space settings /\
          (min_file_size settings + max_file_size settings) / 2 = 0)) /\
    (fill_drive settings = false ->
     max_file_count settings < min_file_count settings ->
     generate_file_plan settings available_space r = Failed (Random ValueError)) /\
    (fill_drive settings = false ->
     0 < min_file_count settings <= max_file_count settings ->
     chaff_file_types settings = [] ->
     generate_file_plan settings available_space r = Failed (Random IndexError)) /\
    (fill_drive settings = false ->
     0 < min_file_count settings <= max_file_count settings ->
     chaff_file_types settings <> [] ->
     include_languages settings <> [] ->
     max_file_size settings < min_file_size settings ->
     generate_file_plan settings available_space r = Failed (Random ValueError)).
Proof.
  intros settings available_space r. unfold generate_file_plan.
  split; [| split; [| split]]; intro Hfill; rewrite Hfill.
  - unfold calculate_fill_drive_parameters.
    destruct (Z.leb_spec (available_space - minimum_remaining_disk_space settings) 0)
      as [Hno | Hyes].
    { cbn. split; [discriminate | lia]. }
    destruct (Z.eqb_spec ((min_file_size settings + max_file_size settings) / 2) 0)
      as [E | Hne].
    { split; [now split | reflexivity]. }
    cbv zeta beta iota.
    match goal with
    | |- context [if ?c then _ else _] => destruct c
    end.
    + split; [discriminate | intros [_ E]; contradiction].
    + split; [| intros [_ E]; contradiction].
      intro H. now apply PlannerRuns.lift_never_divides in H.
  - intro Hcounts. apply PlannerRuns.lift_failed.
    unfold bind, randint_Z.
    destruct (Z.ltb_spec (max_file_count settings) (min_file_count settings));
      [reflexivity | lia].
  - intros Hcounts Htypes. apply PlannerRuns.lift_failed.
    destruct (PlannerFacts.randint_Z_total _ _ r (proj2 Hcounts))
      as [file_count [r1 [Hcount Hrange]]].
    rewrite (bind_ok _ _ Hcount). unfold plan_files. rewrite Hfill.
    rewrite PlannerRuns.range_positive by lia.
    cbn [for_each]. unfold plan_one. rewrite Htypes. reflexivity.
  - intros Hcounts Htypes Hlangs Hsizes. apply PlannerRuns.lift_failed.
    destruct (PlannerFacts.randint_Z_total _ _ r (proj2 Hcounts))
      as [file_count [r1 [Hcount Hrange]]].
    rewrite (bind_ok _ _ Hcount). unfold plan_files. rewrite Hfill.
    rewrite PlannerRuns.range_positive by lia.
    cbn [for_each].
    assert (Hone : plan_one settings file_count None 0 ([], 0) r1
                   = Raise ValueError).
    { unfold plan_one.
      destruct (random_choice_total _ r1 Htypes) as [ftype [r2 [Ht _]]].
      destruct (random_choice_total _ r2 Hlangs) as [lang [r3 [Hl _]]].
      rewrite (bind_ok _ _ Ht), (bind_ok _ _ Hl).
      unfold file_size_at, randint_Z.
      destruct (Z.ltb_spec (max_file_size settings) (min_file_size settings));
        [reflexivity | lia]. }
    unfold bind at 1. unfold bind at 1. now rewrite Hone.
Qed.

End PlannerEdgeCases.

(** * Written names and the decoder utility *)

Lemma substring_append_r (a b : string) :
  String.substring (String.length a) (String.length b) (a ++ b)%string = b.
Proof.
  induction a as [| c a IH]; cbn [String.length String.append String.substring].
  - induction b as [| d b IHb]; cbn; [reflexivity | now rewrite IHb].
  - exact IH.
Qed.

Lemma substring_append_l (a b : string) :
  String.substring 0 (String.length a) (a ++ b)%string = a.
Proof.
  induction a as [| c a IH]; cbn [String.length String.append String.substring].
  - now destruct b.
  - now rewrite IH.
Qed.

Lemma length_append (a b : string) :
  String.length (a ++ b)%string = String.length a + String.length b.
Proof. induction a as [| c a IH]; cbn; [reflexivity | now rewrite IH]. Qed.

(** Whether a name ends in [ext] is decided by its last characters. *)
Lemma endswith_append (a b ext : string) :
  String.length b = String.length ext ->
  Py.endswith (a ++ b)%string ext = String.eqb b ext.
Proof.
  intro Hlen. unfold Py.endswith. rewrite length_append, <- Hlen.
  replace (String.length a + String.length b - String.length b)
    with (String.length a) by lia.
  rewrite substring_append_r.
  destruct (Nat.leb_spec (String.length b) (String.length a + String.length b));
    [reflexivity | lia].
Qed.

(** X24. A name that ends in one of the four encoding endings is recognised
    by the decoder, whatever precedes the ending and whether or not the
    file opens as an archive, and [get_original_filename] gives back
    exactly what precedes it. *)
Theorem encoding_ending_is_recognised_and_removed :
  forall (name : string) (opens_as_zip : bool),
    (detect_encoding_method (name ++ ".b64") opens_as_zip = Some "base64"%string /\
     get_original_filename (name ++ ".b64") = name) /\
    (detect_encoding_method (name ++ ".enc") opens_as_zip
     = Some "encrypted_fernet"%string /\
     get_original_filename (name ++ ".enc") = name) /\
    (detect_encoding_method (name ++ ".zip") opens_as_zip = Some "zip"%string /\
     get_original_filename (name ++ ".zip") = name) /\
    (detect_encoding_method (name ++ ".dat") opens_as_zip = Some "unknown"%string /\
     get_original_filename (name ++ ".dat") = name).
Proof.
  intros name opens_as_zip.
  assert (Hcut : forall ext : string,
             String.substring 0 (String.length (name ++ ext)
                                 - String.length ext) (name ++ ext)%string
             = name).
  { intro ext. rewrite length_append.
    replace (String.length name + String.length ext - String.length ext)
      with (String.length name) by lia.
    apply substring_append_l. }
  unfold detect_encoding_method, get_original_filename, encoding_extensions.
  cbn [strip_first].
  repeat split;
    repeat (rewrite endswith_append by reflexivity; cbn [String.eqb Ascii.eqb Bool.eqb]);
    first [reflexivity | apply Hcut].
Qed.

(** X25. A file is written under the name of its plan, and the planner
    ends that name in a dot and the file type. For the eight supported
    types such a name has none of the four encoding endings, so the decoder
    never takes a written file for base64 or Fernet content, whatever its
    encoding method: it answers [zip] when the file opens as an archive and
    nothing otherwise, and [get_original_filename] leaves the name as it
    is. *)
Theorem written_names_hide_the_encoding :
  forall (encoded_file : EncodedFile) (stem : string) (opens_as_zip : bool),
    In (file_type (original_plan encoded_file)) supported_types ->
    filename (original_plan encoded_file)
    = (stem ++ "." ++ file_type (original_plan encoded_file))%string ->
    detect_encoding_method (get_actual_filename encoded_file) opens_as_zip
    = (if opens_as_zip then Some "zip"%string else None) /\
    get_original_filename (get_actual_filename encoded_file)
    = get_actual_filename encoded_file.
Proof.
  intros encoded_file stem opens_as_zip Hkind Hname.
  unfold get_actual_filename. rewrite Hname.
  unfold detect_encoding_method, get_original_filename, encoding_extensions.
  cbn [strip_first].
  unfold supported_types in Hkind.
  assert (Hdocx : (stem ++ "." ++ "docx")%string = ((stem ++ ".") ++ "docx")%string)
    by (now rewrite string_append_assoc).
  assert (Hxlsx : (stem ++ "." ++ "xlsx")%string = ((stem ++ ".") ++ "xlsx")%string)
    by (now rewrite string_append_assoc).
  repeat (destruct Hkind as [<- | Hkind]); try destruct Hkind;
    rewrite ?Hdocx, ?Hxlsx;
    repeat (rewrite endswith_append by reflexivity;
            cbn [String.eqb Ascii.eqb Bool.eqb]);
    split; reflexivity.
Qed.

Lemma written_names_hide_the_encoding_witness :
  detect_encoding_method (get_actual_filename Reference.archived_text) false = None /\
  get_original_filename (get_actual_filename Reference.archived_text)
  = get_actual_filename Reference.archived_text.
Proof.
  apply (written_names_hide_the_encoding Reference.archived_text "a" false).
  - cbn. auto 10.
  - reflexivity.
Defined.

(** ** Decoding base64 content *)

Lemma strip_newlines_same_decoding (s : bytes) :
  Base64.same_decoding
    (filter (fun c => negb (Byte.eqb c Base64.NL)) s) s.
Proof.
  induction s as [| c s IH]; [intros q l p; reflexivity |].
  cbn [filter]. destruct (Byte.eqb c Base64.NL) eqn:E; cbn [negb].
  - apply Byte.byte_dec_bl in E. subst c.
    intros q l p. rewrite IH. symmetry. apply Base64Facts.same_decoding_newline.
  - now apply Base64Facts.same_decoding_cons.
Qed.

(** The first attempt of the utility sees what [b64decode] sees. *)
Lemma decode_base64_file_first (s : bytes) (content : bytes) :
  Base64.b64decode s = Some content -> decode_base64_file s = Some content.
Proof.
  intro H. unfold decode_base64_file.
  destruct (existsb (Byte.eqb Base64.NL) s).
  - assert (E : Base64.b64decode
                  (filter (fun c => negb (Byte.eqb c Base64.NL)) s) = Some content)
      by (unfold Base64.b64decode; now rewrite strip_newlines_same_decoding).
    now rewrite E.
  - now rewrite H.
Qed.

Lemma no_newline_in_base64 (content : bytes) :
  existsb (Byte.eqb Base64.NL) (Base64.urlsafe_b64encode content) = false.
Proof.
  unfold Base64.urlsafe_b64encode.
  pose proof (Base64Facts.b64encode_chars content) as Hall.
  induction Hall as [| c s Hc _ IH]; [reflexivity |].
  cbn [map existsb]. rewrite IH, orb_false_r.
  assert (H : forallb (fun c => negb (Byte.eqb Base64.NL
                                        (Base64.urlsafe_encode_translation c)))
                      (Base64.PAD :: Base64.alphabet) = true)
    by (vm_compute; reflexivity).
  rewrite forallb_forall in H. now apply negb_true_iff, H.
Qed.

(** X26. The decoder utility gives back the original bytes of content the
    encoder wrote as base64 or as multi-line base64, with or without its
    line breaks. On url-safe base64 it does so whenever its first, standard
    attempt fails and the second one runs; a first attempt that succeeds on
    url-safe text is returned as it is. *)
Theorem decoder_inverts_standard_base64 :
  forall (ext : Externals) (content : bytes) (supplied : option string) (r : Rng),
    (exists encoded md,
        encode_file ext content BASE64 supplied r = Ok (encoded, md) r /\
        decode_base64_file encoded = Some content) /\
    (exists encoded md,
        encode_file ext content BASE64_MULTILINE supplied r = Ok (encoded, md) r /\
        decode_base64_file encoded = Some content) /\
    (exists encoded md,
        encode_file ext content BASE64_URL_SAFE supplied r = Ok (encoded, md) r /\
        decode_base64_file encoded
        = match Base64.b64decode encoded with
          | Some other => Some other
          | None => Some content
          end).
Proof.
  intros ext content supplied r. split; [| split].
  - eexists. eexists. split; [reflexivity |].
    apply decode_base64_file_first, Base64Facts.b64decode_b64encode.
  - eexists. eexists. split; [reflexivity |].
    apply decode_base64_file_first. unfold Base64.b64decode.
    rewrite Base64Facts.same_decoding_join, Base64Facts.wrapped_concat.
    apply Base64Facts.b64decode_b64encode.
  - eexists. eexists. split; [reflexivity |].
    unfold decode_base64_file. rewrite no_newline_in_base64. cbv zeta.
    destruct (Base64.b64decode (Base64.urlsafe_b64encode content)); [reflexivity |].
    apply Base64Facts.urlsafe_b64decode_b64encode.
Qed.

(** The case the last part leaves open does occur: these three bytes are
    written as [----], which the standard attempt reads as nothing at all. *)
Example decoder_misreads_urlsafe_text :
  Base64.urlsafe_b64encode [xfb; xef; xbe] = list_byte_of_string "----" /\
  decode_base64_file (Base64.urlsafe_b64encode [xfb; xef; xbe]) = Some [].
Proof. split; vm_compute; reflexivity. Qed.

(** * Edges every source is sure to get *)

Lemma for_each_grows {A} (body : A -> Manager -> M Manager) (xs : list A) :
  (forall x s r s' r', In x xs -> body x s r = Ok s' r' ->
     incl (file_references s) (file_references s')) ->
  forall s r s' r', for_each xs body s r = Ok s' r' ->
    incl (file_references s) (file_references s').
Proof.
  intros Hbody s r s' r' H.
  eapply (for_each_invariant
            (fun t => incl (file_references s) (file_references t)));
    [| apply incl_refl | exact H].
  intros x t rt t' rt' Hx Ht Hb. eapply incl_tran; [exact Ht |].
  eapply Hbody; eauto.
Qed.

(** A loop whose every turn only appends, and leaves an edge for its
    element, leaves an edge for every element. *)
Lemma for_each_covers {A} (P : A -> FileReference -> Prop)
  (body : A -> Manager -> M Manager) (xs : list A) :
  (forall x s r s' r', In x xs -> body x s r = Ok s' r' ->
     incl (file_references s) (file_references s') /\
     exists ref, In ref (file_references s') /\ P x ref) ->
  forall s r s' r', for_each xs body s r = Ok s' r' ->
    forall x, In x xs -> exists ref, In ref (file_references s') /\ P x ref.
Proof.
  intros Hbody s r s' r' H x Hx.
  eapply (for_each_reaches
            (fun t => exists ref, In ref (file_references t) /\ P x ref)
            body xs x Hx); [| | exact H].
  - intros y t rt t' rt' Hy [ref [Hin HP]] Hb.
    exists ref. split; [| exact HP].
    now apply (proj1 (Hbody y t rt t' rt' Hy Hb)).
  - intros t rt t' rt' Hb. exact (proj2 (Hbody x t rt t' rt' Hx Hb)).
Qed.

Lemma append_reference_grows (s : Manager) (ref : FileReference) :
  incl (file_references s) (file_references (append_reference s ref)).
Proof. intros x Hx. cbn. apply in_or_app. now left. Qed.

Lemma append_reference_has (s : Manager) (ref : FileReference) :
  In ref (file_references (append_reference s ref)).
Proof. cbn. apply in_or_app. right. now left. Qed.

Lemma appends_grows (P : FileReference -> Prop) (s s' : Manager) :
  appends_edges P s s' -> incl (file_references s) (file_references s').
Proof. intros [new [E _]] x Hx. rewrite E. apply in_or_app. now left. Qed.

Lemma random_sample_length {A} (pool out : list A) (k : nat) (r r' : Rng) :
  random_sample pool k r = Ok out r' -> List.length out = k.
Proof.
  unfold random_sample. destruct (List.length pool <? k); [discriminate |].
  apply sample_loop_length.
Qed.

(** A sample of at least one element, with its first element. *)
Lemma sample_first {A} (pool out : list A) (lo hi k : nat) (r0 r1 r2 : Rng) :
  1 <= lo ->
  randint lo hi r0 = Ok k r1 ->
  random_sample pool k r1 = Ok out r2 ->
  exists a rest, out = a :: rest /\ In a pool.
Proof.
  intros Hlo Hk Hs. apply randint_inv in Hk.
  pose proof (random_sample_length _ _ _ _ _ Hs) as Hlen.
  apply random_sample_incl in Hs.
  destruct out as [| a rest]; [cbn in Hlen; lia |].
  exists a, rest. split; [reflexivity | apply Hs; now left].
Qed.

Section Coverage.

Let edge_from (kind : string) (pool : list FileGenerationPlan)
  (source : FileGenerationPlan) (ref : FileReference) : Prop :=
  source_file ref = filename source /\ reference_type ref = kind /\
  exists target, In target pool /\ target_file ref = filename target.

Lemma email_pass_covers (emails other_files : list FileGenerationPlan)
  (self self' : Manager) (r r' : Rng) :
  other_files <> [] ->
  _create_email_attachments emails other_files self r = Ok self' r' ->
  forall email, In email emails ->
    exists ref, In ref (file_references self') /\
                edge_from "attachment" other_files email ref.
Proof.
  intros Hother H. unfold _create_email_attachments in H.
  eapply for_each_covers; [| exact H].
  intros email s r0 s' r0' _ Hb.
  destruct other_files as [| o others]; [contradiction |].
  cbn [List.length Nat.ltb Nat.leb] in Hb.
  apply bind_inv in Hb. destruct Hb as [num [r1 [Hnum Hb]]].
  apply bind_inv in Hb. destruct Hb as [attachments [r2 [Hsample Hb]]].
  destruct (sample_first _ _ _ _ _ _ _ _ (le_n 1) Hnum Hsample)
    as [a [rest [-> Ha]]].
  assert (Hturn : forall attachment t rt t' rt',
             (ctx <- random_choice (attachment_contexts attachment) ;;
              let t0 := append_reference t
                {| source_file := filename email;
                   target_file := filename attachment;
                   reference_type := "attachment";
                   context := ctx |} in
              x <- random_permille ;;
              if x <? 300 then
                ret (append_reference t0
                  {| source_file := filename attachment;
                     target_file := filename email;
                     reference_type := "email_source";
                     context := ("This file was sent via email: "
                                 ++ filename email)%string |})
              else ret t0) rt = Ok t' rt' ->
             incl (file_references t) (file_references t') /\
             exists ref, In ref (file_references t') /\
                         source_file ref = filename email /\
                         reference_type ref = "attachment"%string /\
                         target_file ref = filename attachment).
  { intros attachment t rt t' rt' Ht.
    apply bind_inv in Ht. destruct Ht as [ctx [q1 [_ Ht]]]. cbv zeta in Ht.
    apply bind_inv in Ht. destruct Ht as [x [q2 [_ Ht]]].
    destruct (x <? 300); apply ret_inv in Ht; destruct Ht as [<- _].
    - split.
      + eapply incl_tran; apply append_reference_grows.
      + eexists. split; [apply append_reference_grows, append_reference_has |].
        now repeat split.
    - split; [apply append_reference_grows |].
      eexists. split; [apply append_reference_has | now repeat split]. }
  split.
  - eapply for_each_grows; [| exact Hb].
    intros att t rt t' rt' _ Ht. exact (proj1 (Hturn att t rt t' rt' Ht)).
  - destruct (for_each_covers
                (fun att ref => source_file ref = filename email /\
                                reference_type ref = "attachment"%string /\
                                target_file ref = filename att)
                _ (a :: rest)
                (fun att t rt t' rt' _ Ht => Hturn att t rt t' rt' Ht)
                s r2 s' r0' Hb a (or_introl eq_refl))
      as [ref [Hin [Hs [Hk Ht]]]].
    exists ref. split; [exact Hin |].
    split; [exact Hs | split; [exact Hk |]]. now exists a.
Qed.

Lemma document_pass_covers (documents : list FileGenerationPlan)
  (self self' : Manager) (r r' : Rng) :
  _create_document_references documents self r = Ok self' r' ->
  forall doc, In doc documents ->
    filter (other_name doc) documents <> [] ->
    exists ref, In ref (file_references self') /\
                edge_from "document_reference"
                          (filter (other_name doc) documents) doc ref.
Proof.
  intros H doc Hdoc Hothers. unfold _create_document_references in H.
  eapply (for_each_reaches
            (fun t => exists ref, In ref (file_references t) /\
                                  edge_from "document_reference"
                                    (filter (other_name doc) documents) doc ref)
            _ documents doc Hdoc); [| | exact H].
  - intros d t rt t' rt' _ [ref [Hin Hedge]] Hb. cbv beta zeta in Hb.
    exists ref. split; [| exact Hedge].
    destruct (filter (other_name d) documents);
      [apply ret_inv in Hb; destruct Hb as [<- _]; exact Hin |].
    apply bind_inv in Hb. destruct Hb as [num [r1 [_ Hb]]].
    apply bind_inv in Hb. destruct Hb as [referenced [r2 [_ Hb]]].
    eapply for_each_grows; [| exact Hb | exact Hin].
    intros ref_doc u ru u' ru' _ Hu.
    apply bind_inv in Hu. destruct Hu as [ctx [q [_ Hu]]].
    apply ret_inv in Hu. destruct Hu as [<- _]. apply append_reference_grows.
  - intros t rt t' rt' Hb. cbv beta zeta in Hb.
    destruct (filter (other_name doc) documents) as [| o others] eqn:E;
      [contradiction |].
    apply bind_inv in Hb. destruct Hb as [num [r1 [Hnum Hb]]].
    apply bind_inv in Hb. destruct Hb as [referenced [r2 [Hsample Hb]]].
    destruct (sample_first _ _ _ _ _ _ _ _ (le_n 1) Hnum Hsample)
      as [a [rest [-> Ha]]].
    assert (Hturn : forall ref_doc u ru u' ru',
               (ctx <- random_choice (document_reference_types ref_doc) ;;
                ret (append_reference u
                       {| source_file := filename doc;
                          target_file := filename ref_doc;
                          reference_type := "document_reference";
                          context := ctx |})) ru = Ok u' ru' ->
               incl (file_references u) (file_references u') /\
               exists ref, In ref (file_references u') /\
                           source_file ref = filename doc /\
                           reference_type ref = "document_reference"%string /\
                           target_file ref = filename ref_doc).
    { intros ref_doc u ru u' ru' Hu.
      apply bind_inv in Hu. destruct Hu as [ctx [q [_ Hu]]].
      apply ret_inv in Hu. destruct Hu as [<- _].
      split; [apply append_reference_grows |].
      eexists. split; [apply append_reference_has | now repeat split]. }
    destruct (for_each_covers
                (fun ref_doc ref => source_file ref = filename doc /\
                                    reference_type ref = "document_reference"%string /\
                                    target_file ref = filename ref_doc)
                _ (a :: rest)
                (fun f u ru u' ru' _ Hu => Hturn f u ru u' ru' Hu)
                t r2 t' rt' Hb a (or_introl eq_refl))
      as [ref [Hin [Hs [Hk Ht]]]].
    exists ref. split; [exact Hin |].
    split; [exact Hs | split; [exact Hk |]]. now exists a.
Qed.

Lemma spreadsheet_pass_covers (spreadsheets other_files : list FileGenerationPlan)
  (self self' : Manager) (r r' : Rng) :
  other_files <> [] ->
  _create_spreadsheet_references spreadsheets other_files self r = Ok self' r' ->
  forall sheet, In sheet spreadsheets ->
    exists ref, In ref (file_references self') /\
                edge_from "data_source" other_files sheet ref.
Proof.
  intros Hother H. unfold _create_spreadsheet_references in H.
  eapply for_each_covers; [| exact H].
  intros sheet s r0 s' r0' _ Hb. cbv beta in Hb.
  destruct other_files as [| o others]; [contradiction |].
  apply bind_inv in Hb. destruct Hb as [num [r1 [Hnum Hb]]].
  apply bind_inv in Hb. destruct Hb as [referenced [r2 [Hsample Hb]]].
  destruct (sample_first _ _ _ _ _ _ _ _ (le_S _ _ (le_n 1)) Hnum Hsample)
    as [a [rest [-> Ha]]].
  assert (Hturn : forall ref_file t rt t' rt',
             (ctx <- random_choice (spreadsheet_reference_contexts ref_file) ;;
              ret (append_reference t
                     {| source_file := filename sheet;
                        target_file := filename ref_file;
                        reference_type := "data_source";
                        context := ctx |})) rt = Ok t' rt' ->
             incl (file_references t) (file_references t') /\
             exists ref, In ref (file_references t') /\
                         source_file ref = filename sheet /\
                         reference_type ref = "data_source"%string /\
                         target_file ref = filename ref_file).
  { intros ref_file t rt t' rt' Ht.
    apply bind_inv in Ht. destruct Ht as [ctx [q [_ Ht]]].
    apply ret_inv in Ht. destruct Ht as [<- _].
    split; [apply append_reference_grows |].
    eexists. split; [apply append_reference_has | now repeat split]. }
  split.
  - eapply for_each_grows; [| exact Hb].
    intros f t rt t' rt' _ Ht. exact (proj1 (Hturn f t rt t' rt' Ht)).
  - destruct (for_each_covers
                (fun f ref => source_file ref = filename sheet /\
                              reference_type ref = "data_source"%string /\
                              target_file ref = filename f)
                _ (a :: rest)
                (fun f t rt t' rt' _ Ht => Hturn f t rt t' rt' Ht)
                s r2 s' r0' Hb a (or_introl eq_refl))
      as [ref [Hin [Hs [Hk Ht]]]].
    exists ref. split; [exact Hin |].
    split; [exact Hs | split; [exact Hk |]]. now exists a.
Qed.

End Coverage.

(** X27. When the graph builder returns, no source is left without its
    edge: every email has an attachment edge to a document, spreadsheet or
    image if the plan set holds any; every document has a
    [document_reference] edge to a differently named document if there is
    one; and every spreadsheet has a [data_source] edge to a document or
    image if the plan set holds any. *)
Theorem every_source_gets_its_edge :
  forall (plans : list FileGenerationPlan) (self self' : Manager) (r r' : Rng),
    create_cross_references plans self r = Ok self' r' ->
    (forall email, In email (emails_of plans) ->
       documents_of plans ++ spreadsheets_of plans ++ images_of plans <> [] ->
       exists target,
         In target (documents_of plans ++ spreadsheets_of plans ++ images_of plans) /\
         has_edge "attachment" (filename email) (filename target) self') /\
    (forall doc, In doc (documents_of plans) ->
       filter (other_name doc) (documents_of plans) <> [] ->
       exists target,
         In target (documents_of plans) /\
         filename target <> filename doc /\
         has_edge "document_reference" (filename doc) (filename target) self') /\
    (forall sheet, In sheet (spreadsheets_of plans) ->
       documents_of plans ++ images_of plans <> [] ->
       exists target,
         In target (documents_of plans ++ images_of plans) /\
         has_edge "data_source" (filename sheet) (filename target) self').
Proof.
  intros plans self self' r r' H. unfold create_cross_references in H.
  apply bind_inv in H. destruct H as [s1 [r1 [H1 H]]].
  apply bind_inv in H. destruct H as [s2 [r2 [H2 H]]].
  apply bind_inv in H. destruct H as [s3 [r3 [H3 H]]].
  apply bind_inv in H. destruct H as [s4 [r4 [H4 H]]].
  apply bind_inv in H. destruct H as [s5 [r5 [H5 H]]].
  apply bind_inv in H. destruct H as [s6 [r6 [H6 H]]].
  apply bind_inv in H. destruct H as [s7 [r7 [H7 H]]].
  apply bind_inv in H. destruct H as [s8 [r8 [H8 H]]].
  pose proof (appends_grows _ _ _ (image_embeddings_typed plans _ _ _ _ H2)) as G2.
  pose proof (appends_grows _ _ _ (document_references_typed plans _ _ _ _ H3)) as G3.
  pose proof (appends_grows _ _ _ (spreadsheet_references_typed plans _ _ _ _ H4)) as G4.
  pose proof (appends_grows _ _ _ (password_references_typed plans _ _ _ _ H5)) as G5.
  pose proof (appends_grows _ _ _ (backup_references_typed plans _ _ _ _ H6)) as G6.
  pose proof (appends_grows _ _ _ (data_references_typed plans _ _ _ _ H7)) as G7.
  pose proof (appends_grows _ _ _ (project_references_typed plans _ _ _ _ H8)) as G8.
  pose proof (appends_grows _ _ _ (version_references_typed plans _ _ _ _ H)) as G9.
  split; [| split].
  - intros email Hemail Hpool.
    destruct (email_pass_covers _ _ _ _ _ _ Hpool H1 email Hemail)
      as [ref [Hin [Hs [Hk [target [Ht Hn]]]]]].
    exists target. split; [exact Ht |]. exists ref.
    split; [| now repeat split]. auto 10.
  - intros doc Hdoc Hothers.
    destruct (document_pass_covers _ _ _ _ _ H3 doc Hdoc Hothers)
      as [ref [Hin [Hs [Hk [target [Ht Hn]]]]]].
    apply filter_In in Ht. destruct Ht as [Ht Hne].
    exists target. split; [exact Ht |]. split.
    + unfold other_name in Hne. apply negb_true_iff in Hne.
      now apply String.eqb_neq in Hne.
    + exists ref. split; [| now repeat split]. auto 10.
  - intros sheet Hsheet Hpool.
    destruct (spreadsheet_pass_covers _ _ _ _ _ _ Hpool H4 sheet Hsheet)
      as [ref [Hin [Hs [Hk [target [Ht Hn]]]]]].
    exists target. split; [exact Ht |]. exists ref.
    split; [| now repeat split]. auto 10.
Qed.

Lemma every_source_gets_its_edge_witness :
  exists target,
    In target (documents_of Reference.office_plans
               ++ spreadsheets_of Reference.office_plans
               ++ images_of Reference.office_plans) /\
    has_edge "attachment" "memo.eml" (filename target) (Reference.linked [1; 2; 3]).
Proof.
  refine (proj1 (every_source_gets_its_edge Reference.office_plans new_manager
                   (Reference.linked [1; 2; 3]) [1; 2; 3] [] _)
                (Reference.plan "eml" "memo.eml") _ _).
  - vm_compute. reflexivity.
  - vm_compute. now left.
  - vm_compute. discriminate.
Defined.

(** * What reaches the caller of the pipeline *)

(** A pass that only draws and appends edges keeps the encoded files and
    the registry. *)
Ltac keeps_files H Hs :=
  cbv beta zeta in H;
  lazymatch type of H with
  | ret _ _ = Ok _ _ =>
      apply ret_inv in H; destruct H as [<- _]; exact Hs
  | bind _ _ _ = Ok _ _ =>
      let a := fresh "a" in
      let q := fresh "q" in
      let H1 := fresh "H" in
      apply bind_inv in H; destruct H as [a [q [H1 H]]]; keeps_files H Hs
  | for_each _ _ _ _ = Ok _ _ =>
      lazymatch goal with
      | |- ?field _ = ?F =>
          let x := fresh "x" in
          let t := fresh "t" in
          let rt := fresh "rt" in
          let t' := fresh "t" in
          let rt' := fresh "rt" in
          let Ht := fresh "Ht" in
          let Hb := fresh "Hb" in
          eapply (for_each_invariant (fun m => field m = F));
          [| exact Hs | exact H];
          intros x t rt t' rt' _ Ht Hb;
          try (destruct x as [? ?]);
          keeps_files Hb Ht
      end
  | (if ?c then _ else _) _ = Ok _ _ =>
      destruct c; keeps_files H Hs
  | (match ?l with [] => _ | _ :: _ => _ end) _ = Ok _ _ =>
      destruct l; keeps_files H Hs
  end.

Lemma cross_references_keep_files (plans : list FileGenerationPlan)
  (self self' : Manager) (r r' : Rng) :
  create_cross_references plans self r = Ok self' r' ->
  encoded_files self' = encoded_files self.
Proof.
  unfold create_cross_references. intro H.
  apply bind_inv in H. destruct H as [s1 [r1 [H1 H]]].
  apply bind_inv in H. destruct H as [s2 [r2 [H2 H]]].
  apply bind_inv in H. destruct H as [s3 [r3 [H3 H]]].
  apply bind_inv in H. destruct H as [s4 [r4 [H4 H]]].
  apply bind_inv in H. destruct H as [s5 [r5 [H5 H]]].
  apply bind_inv in H. destruct H as [s6 [r6 [H6 H]]].
  apply bind_inv in H. destruct H as [s7 [r7 [H7 H]]].
  apply bind_inv in H. destruct H as [s8 [r8 [H8 H]]].
  assert (E1 : encoded_files s1 = encoded_files self)
    by (unfold _create_email_attachments in H1; keeps_files H1 (eq_refl (encoded_files self))).
  assert (E2 : encoded_files s2 = encoded_files self)
    by (unfold _create_document_image_embeddings in H2; keeps_files H2 E1).
  assert (E3 : encoded_files s3 = encoded_files self)
    by (unfold _create_document_references in H3; keeps_files H3 E2).
  assert (E4 : encoded_files s4 = encoded_files self)
    by (unfold _create_spreadsheet_references in H4; keeps_files H4 E3).
  assert (E5 : encoded_files s5 = encoded_files self)
    by (unfold _create_password_references in H5; keeps_files H5 E4).
  assert (E6 : encoded_files s6 = encoded_files self)
    by (unfold _create_backup_references in H6; keeps_files H6 E5).
  assert (E7 : encoded_files s7 = encoded_files self)
    by (unfold _create_data_references in H7; keeps_files H7 E6).
  assert (E8 : encoded_files s8 = encoded_files self)
    by (unfold _create_project_references in H8; keeps_files H8 E7).
  unfold _create_version_references in H. keeps_files H E8.
Qed.

Lemma cross_references_keep_passwords (plans : list FileGenerationPlan)
  (self self' : Manager) (r r' : Rng) :
  create_cross_references plans self r = Ok self' r' ->
  passwords self' = passwords self.
Proof.
  unfold create_cross_references. intro H.
  apply bind_inv in H. destruct H as [s1 [r1 [H1 H]]].
  apply bind_inv in H. destruct H as [s2 [r2 [H2 H]]].
  apply bind_inv in H. destruct H as [s3 [r3 [H3 H]]].
  apply bind_inv in H. destruct H as [s4 [r4 [H4 H]]].
  apply bind_inv in H. destruct H as [s5 [r5 [H5 H]]].
  apply bind_inv in H. destruct H as [s6 [r6 [H6 H]]].
  apply bind_inv in H. destruct H as [s7 [r7 [H7 H]]].
  apply bind_inv in H. destruct H as [s8 [r8 [H8 H]]].
  assert (E1 : passwords s1 = passwords self)
    by (unfold _create_email_attachments in H1; keeps_files H1 (eq_refl (passwords self))).
  assert (E2 : passwords s2 = passwords self)
    by (unfold _create_document_image_embeddings in H2; keeps_files H2 E1).
  assert (E3 : passwords s3 = passwords self)
    by (unfold _create_document_references in H3; keeps_files H3 E2).
  assert (E4 : passwords s4 = passwords self)
    by (unfold _create_spreadsheet_references in H4; keeps_files H4 E3).
  assert (E5 : passwords s5 = passwords self)
    by (unfold _create_password_references in H5; keeps_files H5 E4).
  assert (E6 : passwords s6 = passwords self)
    by (unfold _create_backup_references in H6; keeps_files H6 E5).
  assert (E7 : passwords s7 = passwords self)
    by (unfold _create_data_references in H7; keeps_files H7 E6).
  assert (E8 : passwords s8 = passwords self)
    by (unfold _create_project_references in H8; keeps_files H8 E7).
  unfold _create_version_references in H. keeps_files H E8.
Qed.

Section FreshFiles.

Variable ext : Externals.

Lemma encode_plan_fresh (documents spreadsheets images : list FileGenerationPlan)
  (plan : FileGenerationPlan) (s s' : Manager) (r r' : Rng) :
  encode_plan ext documents spreadsheets images plan s r = Ok s' r' ->
  exists ef,
    encoded_files s' = encoded_files s ++ [ef] /\
    original_plan ef = plan /\ freshly_encoded ext ef.
Proof.
  unfold encode_plan. intro H.
  apply bind_inv in H. destruct H as [method [r1 [Hm H]]].
  apply bind_inv in H. destruct H as [u [r2 [_ H]]].
  apply bind_inv in H. destruct H as [[image_refs attachment_refs] [r3 [_ H]]].
  apply bind_inv in H. destruct H as [original_content [r4 [Hgen H]]].
  apply bind_inv in H. destruct H as [[encoded md] [r5 [Henc H]]].
  apply ret_inv in H. destruct H as [<- _].
  eexists. split; [reflexivity |]. split; [reflexivity |].
  exists image_refs, attachment_refs, original_content, md, r, r1, r3, r4, r5.
  cbn [original_plan encoding_method encoded_content password key salt references].
  now repeat split.
Qed.

Lemma encode_loop_fresh (documents spreadsheets images : list FileGenerationPlan)
  (todo : list FileGenerationPlan) :
  forall (s s' : Manager) (r r' : Rng),
    for_each todo (encode_plan ext documents spreadsheets images) s r = Ok s' r' ->
    exists new,
      encoded_files s' = encoded_files s ++ new /\
      map original_plan new = todo /\
      Forall (freshly_encoded ext) new.
Proof.
  induction todo as [| plan todo IH]; intros s s' r r' H.
  - apply ret_inv in H. destruct H as [<- _].
    exists []. split; [now rewrite app_nil_r | split; constructor].
  - cbn [for_each] in H. apply bind_inv in H. destruct H as [s1 [r1 [H1 H]]].
    apply encode_plan_fresh in H1. destruct H1 as [ef [Hfiles [Hplan Hfresh]]].
    destruct (IH _ _ _ _ H) as [new [E [Hplans Hall]]].
    exists (ef :: new). split; [| split].
    + rewrite E, Hfiles. now rewrite <- app_assoc.
    + cbn [map]. now rewrite Hplan, Hplans.
    + now constructor.
Qed.

End FreshFiles.

Lemma Forall2_app_l {A B} (R : A -> B -> Prop) (l1 l2 : list A) (l' : list B) :
  Forall2 R (l1 ++ l2) l' ->
  exists l1' l2', l' = l1' ++ l2' /\ Forall2 R l1 l1' /\ Forall2 R l2 l2'.
Proof.
  intro H. apply Forall2_app_inv_l in H.
  destruct H as [l1' [l2' [H1 [H2 E]]]]. now exists l1', l2'.
Qed.

(** The four rewriting steps, on the list of files. *)
Lemma rewriting_frame (ext : Externals) (self emailed final : Manager)
  (r r1 r2 : Rng) :
  _update_email_content_with_references ext self r = Ok emailed r1 ->
  _distribute_password_hints
    (_update_spreadsheet_content_with_references
       (_update_document_content_with_references emailed)) r1
  = Ok final r2 ->
  Forall2 (rewritten ["eml"; "txt"; "csv"])
          (encoded_files self) (encoded_files final).
Proof.
  intros Hemail Hhints.
  apply update_email_rewritten in Hemail.
  destruct Hemail as [_ [_ [_ Hfiles]]].
  apply distribute_hints_rewritten in Hhints.
  cbn [encoded_files set_encoded_files
       _update_document_content_with_references
       _update_spreadsheet_content_with_references] in *.
  eapply Forall2_rewritten_trans;
    [eapply Forall2_rewritten_more; [| exact Hfiles] |].
  { intros k [<- | []]. now left. }
  eapply Forall2_rewritten_trans;
    [| eapply Forall2_rewritten_more; [| exact Hhints]].
  2: { intros k [<- | []]. right. now left. }
  eapply Forall2_rewritten_trans.
  - eapply Forall2_rewritten_more; [| apply Forall2_map_r].
    2: { intro f. apply (update_document_rewritten emailed). }
    intros k [<- | []]. right. now left.
  - eapply Forall2_rewritten_more; [| apply Forall2_map_r].
    2: { intro f. apply update_spreadsheet_rewritten. }
    intros k [<- | []]. right. right. now left.
Qed.

(** X28. The pipeline hands back the files the manager held before, each
    unchanged or, if it is of type eml, txt or csv, with nothing but its
    content rewritten, followed by one file per plan, in plan order. Of
    those, a file whose type is not eml, txt or csv is exactly what the
    encoding step built: the method is the one the selector returned for
    its type, the content is the template's content for the plan encoded by
    that method, and password, key and salt are the ones the encoder
    reported. *)
Theorem other_kinds_arrive_as_encoded :
  forall (ext : Externals) (plans : list FileGenerationPlan) (self : Manager)
         (r r' : Rng) (fs : list EncodedFile) (m : Manager),
    create_file_network ext plans self r = Ok (fs, m) r' ->
    exists old new,
      fs = old ++ new /\
      Forall2 (rewritten ["eml"; "txt"; "csv"]) (encoded_files self) old /\
      map original_plan new = plans /\
      Forall (fun f =>
                Py.mem (file_type (original_plan f)) ["eml"; "txt"; "csv"] = false ->
                freshly_encoded ext f) new.
Proof.
  intros ext plans self r r' fs m H. unfold create_file_network in H.
  apply bind_inv in H. destruct H as [s1 [r1 [H1 H]]].
  apply bind_inv in H. destruct H as [s2 [r2 [H2 H]]].
  apply bind_inv in H. destruct H as [s3 [r3 [H3 H]]].
  apply bind_inv in H. destruct H as [s6 [r6 [H6 H]]].
  apply ret_inv in H. destruct H as [H _]. inversion H; subst fs m; clear H.
  apply encode_loop_fresh in H1. destruct H1 as [new [E1 [Hplans Hfresh]]].
  apply cross_references_keep_files in H2.
  pose proof (rewriting_frame ext s2 s3 s6 r2 r3 r6 H3 H6) as Hfiles.
  rewrite H2, E1 in Hfiles.
  apply Forall2_app_l in Hfiles.
  destruct Hfiles as [old' [new' [-> [Hold Hnew]]]].
  exists old', new'. split; [reflexivity |]. split; [| split].
  - exact Hold.
  - rewrite <- Hplans. clear - Hnew.
    induction Hnew as [| f f' l l' Hff _ IH]; [reflexivity |].
    cbn [map]. rewrite IH. f_equal.
    destruct Hff as [-> | [_ [c ->]]]; reflexivity.
  - clear - Hnew Hfresh.
    induction Hnew as [| f f' l l' Hff _ IH]; [constructor |].
    inversion Hfresh as [| ? ? Hf Hrest]; subst.
    constructor; [| now apply IH].
    intro Hkind. destruct Hff as [-> | [Hin [c ->]]]; [exact Hf |].
    exfalso. cbn [original_plan set_encoded_content] in Hkind.
    apply mem_In in Hin. congruence.
Qed.

Lemma other_kinds_arrive_as_encoded_witness :
  exists old new,
    fst (office_network mailbox [7; 7; 7]) = old ++ new /\
    Forall2 (rewritten ["eml"; "txt"; "csv"]) (encoded_files mailbox) old /\
    map original_plan new = Reference.office_plans /\
    Forall (fun f =>
              Py.mem (file_type (original_plan f)) ["eml"; "txt"; "csv"] = false ->
              freshly_encoded Reference.ext f) new.
Proof.
  apply (other_kinds_arrive_as_encoded Reference.ext Reference.office_plans
           mailbox [7; 7; 7]
           (match create_file_network Reference.ext Reference.office_plans
                    mailbox [7; 7; 7] with
            | Ok _ t => t
            | Raise _ => []
            end)
           (fst (office_network mailbox [7; 7; 7]))
           (snd (office_network mailbox [7; 7; 7]))).
  vm_compute. reflexivity.
Defined.

(** * Credentials and the registry *)

(** The registry without the assumption of unique names. *)

Lemma registered_password_last (name : string) (files : list EncodedFile)
  (ef : EncodedFile) :
  registered_password name (files ++ [ef])
  = if String.eqb (filename (original_plan ef)) name && truthy (password ef)
    then password ef
    else registered_password name files.
Proof. unfold registered_password. now rewrite fold_left_app. Qed.

Lemma registered_password_credentials (name : string) (l : list EncodedFile) :
  forall l', map credentials l' = map credentials l ->
             registered_password name l' = registered_password name l.
Proof.
  unfold registered_password. generalize (@None string) as held.
  induction l as [| f l IH]; intros held [| f' l'] E; try discriminate;
    [reflexivity |].
  cbn [map] in E. inversion E as [[E1 E2 E3 E4 E5]].
  cbn [fold_left]. rewrite E1, E3. now apply IH.
Qed.

Lemma encode_loop_registry (ext : Externals)
  (documents spreadsheets images todo : list FileGenerationPlan) :
  forall (s s' : Manager) (r r' : Rng),
    Forall credentials_consistent (encoded_files s) ->
    (forall name, dict_get (passwords s) name
                  = registered_password name (encoded_files s)) ->
    for_each todo (encode_plan ext documents spreadsheets images) s r = Ok s' r' ->
    (exists new, encoded_files s' = encoded_files s ++ new /\
                 map original_plan new = todo) /\
    Forall credentials_consistent (encoded_files s') /\
    (forall name, dict_get (passwords s') name
                  = registered_password name (encoded_files s')).
Proof.
  induction todo as [| plan todo IH]; intros s s' r r' Hall Hreg H.
  - apply ret_inv in H. destruct H as [<- _].
    split; [exists []; now rewrite app_nil_r | now split].
  - cbn [for_each] in H. apply bind_inv in H. destruct H as [s1 [r1 [H1 H]]].
    apply encode_plan_step in H1.
    destruct H1 as [ef [Hfiles [Hplan [Hcred Hpw]]]].
    destruct (IH s1 s' r1 r') as [[new [E Hplans]] Hrest]; [| | exact H |].
    + rewrite Hfiles. apply Forall_app. split; [exact Hall | now constructor].
    + intro name. rewrite Hfiles, Hpw, registered_password_last, Hplan.
      destruct Hcred as [[[_ Hp] | [_ [pw [Hp Hne]]]] _]; rewrite Hp.
      * cbn [truthy]. rewrite andb_false_r. apply Hreg.
      * rewrite dict_get_set, (String.eqb_sym name).
        destruct pw as [| c pw]; [congruence |]. cbn [truthy].
        rewrite andb_true_r.
        destruct (String.eqb (filename plan) name); [reflexivity | apply Hreg].
    + split; [| exact Hrest]. exists (ef :: new). split.
      * rewrite E, Hfiles. now rewrite <- app_assoc.
      * cbn [map]. now rewrite Hplan, Hplans.
Qed.

(** C10. Starting from a fresh manager, [create_file_network] returns one
    encoded file per plan, in order; a file has a password exactly when its
    method is [ENCRYPTED_FERNET], [ZIP_PASSWORD] or [ZIP_ENCRYPTED], a
    salt exactly when it is [ENCRYPTED_FERNET], and never an empty password;
    the registry holds under each name the password of the last protected
    file of that name; and where the plans have unique names it maps a name
    to a password exactly when the file of that name carries that
    password. *)
Theorem credentials_follow_the_method :
  forall (ext : Externals) (plans : list FileGenerationPlan)
         (r r' : Rng) (fs : list EncodedFile) (m : Manager),
    create_file_network ext plans new_manager r = Ok (fs, m) r' ->
    map original_plan fs = plans /\
    (forall f, In f fs ->
       (password f <> None <-> uses_password (encoding_method f) = true) /\
       (salt f <> None <-> encoding_method f = ENCRYPTED_FERNET) /\
       password f <> Some EmptyString) /\
    (forall name, dict_get (passwords m) name = registered_password name fs) /\
    (NoDup (map filename plans) ->
     forall name pw,
       dict_get (passwords m) name = Some pw <->
       exists f, In f fs /\ filename (original_plan f) = name /\
                 password f = Some pw).
Proof.
  intros ext plans r r' fs m Hrun.
  assert (Hunique : NoDup (map filename plans) ->
                    forall name pw,
                      dict_get (passwords m) name = Some pw <->
                      exists f, In f fs /\ filename (original_plan f) = name /\
                                password f = Some pw).
  { intro Hnd.
    exact (proj2 (proj2 (credentials_with_unique_names ext plans r r' fs m Hnd Hrun))). }
  pose proof Hrun as H. unfold create_file_network in H.
  apply bind_inv in H. destruct H as [s1 [r1 [H1 H]]].
  apply bind_inv in H. destruct H as [s2 [r2 [H2 H]]].
  apply bind_inv in H. destruct H as [s3 [r3 [H3 H]]].
  apply bind_inv in H. destruct H as [s6 [r6 [H6 H]]].
  apply ret_inv in H. destruct H as [H _]. inversion H; subst fs m; clear H.
  apply encode_loop_registry in H1; [| constructor | reflexivity].
  destruct H1 as [[new [Hfiles Hplans]] [Hall Hreg]].
  cbn [encoded_files new_manager app] in Hfiles. subst new.
  pose proof (cross_references_keep_files _ _ _ _ _ H2) as Hf2.
  pose proof (cross_references_keep_passwords _ _ _ _ _ H2) as Hp2.
  apply update_email_credentials in H3. destruct H3 as [Hf3 Hp3].
  apply distribute_hints_credentials in H6. destruct H6 as [Hf6 Hp6].
  cbn [encoded_files passwords set_encoded_files
       _update_document_content_with_references
       _update_spreadsheet_content_with_references] in Hf6, Hp6.
  assert (Hsame : map credentials (encoded_files s6)
                  = map credentials (encoded_files s1)).
  { rewrite Hf6, !map_map. rewrite (map_ext _ credentials).
    - now rewrite Hf3, Hf2.
    - intro f. now rewrite update_spreadsheet_credentials, update_document_credentials. }
  split; [| split; [| split; [| exact Hunique]]].
  - rewrite <- (Hplans).
    change original_plan with (fun f => fst (fst (fst (credentials f)))).
    rewrite <- !(map_map credentials (fun c => fst (fst (fst c)))).
    now rewrite Hsame.
  - intros f' Hf'.
    destruct (same_credentials_In _ _ f' Hsame Hf') as [f [Hf Ec]].
    rewrite Forall_forall in Hall.
    pose proof (credentials_consistent_transfer f f' Ec (Hall f Hf)) as [Hpw Hsalt].
    split; [| split; [exact Hsalt |]].
    + destruct Hpw as [[Hu Hp] | [Hu [pw [Hp _]]]]; rewrite Hu, Hp; split;
        congruence.
    + destruct Hpw as [[_ Hp] | [_ [pw [Hp Hne]]]]; rewrite Hp; congruence.
  - intro name. rewrite (registered_password_credentials name _ _ Hsame).
    rewrite Hp6, Hp3, Hp2. apply Hreg.
Qed.

Lemma credentials_follow_the_method_witness :
  map original_plan (fst (Reference.network [350; 960])) = Reference.two_texts /\
  (forall f, In f (fst (Reference.network [350; 960])) ->
     (password f <> None <-> uses_password (encoding_method f) = true) /\
     (salt f <> None <-> encoding_method f = ENCRYPTED_FERNET) /\
     password f <> Some EmptyString) /\
  (forall name,
     dict_get (passwords (snd (Reference.network [350; 960]))) name
     = registered_password name (fst (Reference.network [350; 960]))) /\
  (NoDup (map filename Reference.two_texts) ->
   forall name pw,
     dict_get (passwords (snd (Reference.network [350; 960]))) name = Some pw <->
     exists f, In f (fst (Reference.network [350; 960])) /\
               filename (original_plan f) = name /\
               password f = Some pw).
Proof.
  apply (credentials_follow_the_method Reference.ext Reference.two_texts
           [350; 960] []
           (fst (Reference.network [350; 960]))
           (snd (Reference.network [350; 960]))).
  vm_compute. reflexivity.
Defined.

(** C10 as the specification words it fails: of two protected files planned
    under one name, the first keeps its password while the registry holds
    the second's, so the name of a password-method file is not mapped to
    that file's password. *)
Lemma registry_keeps_one_password_per_name :
  exists first second m r',
    create_file_network Reference.ext same_name_twice new_manager
      [960; 5; 0; 0; 0; 0; 960; 7; 0; 0; 0; 0]
    = Ok ([first; second], m) r' /\
    filename (original_plan first) = "a.txt" /\
    filename (original_plan second) = "a.txt" /\
    uses_password (encoding_method first) = true /\
    password first = Some "Sampleword15!" /\
    password second = Some "Sampleword17!" /\
    dict_get (passwords m) "a.txt" = Some "Sampleword17!" /\
    ~ (forall name pw,
         dict_get (passwords m) name = Some pw <->
         exists f, In f [first; second] /\ filename (original_plan f) = name /\
                   password f = Some pw).
Proof.
  destruct (create_file_network Reference.ext same_name_twice new_manager
              [960; 5; 0; 0; 0; 0; 960; 7; 0; 0; 0; 0])
    as [[[| first [| second [| ? ?]]] m] r' | e] eqn:E;
    try (vm_compute in E; discriminate).
  exists first, second, m, r'. split; [reflexivity |].
  vm_compute in E. inversion E; subst; clear E.
  repeat split; try (vm_compute; reflexivity).
  intro Hall.
  assert (Hget : dict_get [("a.txt", "Sampleword17!")] "a.txt" = Some "Sampleword15!").
  { apply Hall. eexists. split; [left; reflexivity |]. split; reflexivity. }
  vm_compute in Hget. discriminate.
Qed.
